(** * Volume: a multi-channel 3D image grid with a world-space geometry

    A shallow embedding of [voxel/volume.py].  Tensor entries and matrix
    coefficients are exact rationals ([Qc], canonical fractions, so that
    numeric equality is Leibniz equality); rounding noise of machine floats
    is outside the model.  Shapes and voxel offsets are integers, as in the
    source.  Python exceptions are values of [exception], and every function
    that may raise returns a [result]. *)

From Stdlib Require Import ZArith QArith Qcanon Qcabs Qround String List Bool Lia Lqa.
From Stdlib Require SpecFloat.
Import ListNotations.

Open Scope Z_scope.

(* ------------------------------------------------------------------------- *)
(** ** Exceptions and results *)

Inductive exception : Type :=
| ValueError (msg : string)
| AttributeError (msg : string)
| IndexError (msg : string)
| RuntimeError (msg : string).

Inductive result (A : Type) : Type :=
| Ok (a : A)
| Raise (e : exception).

Arguments Ok {A} a.
Arguments Raise {A} e.

Definition bind {A B : Type} (r : result A) (k : A -> result B) : result B :=
  match r with
  | Ok a => k a
  | Raise e => Raise e
  end.

Notation "x <- c ;; k" := (bind c (fun x => k))
  (at level 61, c at next level, right associativity).
Notation "' pat <- c ;; k" := (bind c (fun x => match x with pat => k end))
  (at level 61, pat pattern, c at next level, right associativity).

(* ------------------------------------------------------------------------- *)
(** ** Numbers *)

Definition Qc_of_Z (z : Z) : Qc := Q2Qc (inject_Z z).
Definition Qc_of_nat (n : nat) : Qc := Qc_of_Z (Z.of_nat n).

Definition Qcleb (x y : Qc) : bool := Qle_bool x y.
Definition Qcltb (x y : Qc) : bool := negb (Qle_bool y x).
Definition Qceqb (x y : Qc) : bool := Qeq_bool x y.

(** The absolute tolerance [atol=1e-4] of every [torch.allclose] call of the
    source (all of them pass [rtol=0]). *)
Definition atol : Qc := Q2Qc (1 # 10000).

(** [torch.allclose(a, b, atol=1e-4, rtol=0)] on one entry: |a - b| <= atol. *)
Definition close (a b : Qc) : bool := Qcleb (Qcabs (a - b)%Qc) atol.

(** [Tensor.round()]: to the nearest integer, halves to the even neighbour. *)
Definition round_half_even (q : Qc) : Z :=
  let f := Qfloor q in
  match Qcompare (q - inject_Z f)%Q (1 # 2) with
  | Lt => f
  | Gt => f + 1
  | Eq => if Z.even f then f else f + 1
  end.

(** Python's [int(x)] on a float: truncation toward zero. *)
Definition trunc (q : Qc) : Z :=
  if Qle_bool 0 q then Qfloor q else Qceiling q.

(** 3-vectors: [torch] tensors of three numbers. *)
Definition Vec3 : Type := (Qc * Qc * Qc)%type.
Definition Z3 : Type := (Z * Z * Z)%type.

Definition map3 {A B : Type} (f : A -> B) (v : A * A * A) : B * B * B :=
  let '(x, y, z) := v in (f x, f y, f z).
Definition zip3 {A B C : Type} (f : A -> B -> C) (u : A * A * A) (v : B * B * B)
  : C * C * C :=
  let '(x, y, z) := u in let '(x', y', z') := v in (f x x', f y y', f z z').
Definition all3 {A : Type} (p : A -> bool) (v : A * A * A) : bool :=
  let '(x, y, z) := v in p x && p y && p z.
Definition any3 {A : Type} (p : A -> bool) (v : A * A * A) : bool :=
  let '(x, y, z) := v in p x || p y || p z.
Definition list3 {A : Type} (v : A * A * A) : list A :=
  let '(x, y, z) := v in [x; y; z].

Definition Z3_eqb (u v : Z3) : bool := all3 (fun b : bool => b) (zip3 Z.eqb u v).
Definition Z3_to_Vec3 (v : Z3) : Vec3 := map3 Qc_of_Z v.
Definition vzero : Vec3 := (Qc_of_Z 0, Qc_of_Z 0, Qc_of_Z 0).

Definition vadd : Vec3 -> Vec3 -> Vec3 := zip3 Qcplus.
Definition vsub : Vec3 -> Vec3 -> Vec3 := zip3 Qcminus.
Definition vmul : Vec3 -> Vec3 -> Vec3 := zip3 Qcmult.
Definition vdiv : Vec3 -> Vec3 -> Vec3 := zip3 Qcdiv.
Definition vopp : Vec3 -> Vec3 := map3 Qcopp.

(** [torch.allclose] on two 3-vectors. *)
Definition vclose (u v : Vec3) : bool := all3 (fun b : bool => b) (zip3 close u v).

(** [Tensor.clamp(min=lo)] and [Tensor.clamp(max=hi)] on integers. *)
Definition clamp_min (lo x : Z) : Z := Z.max x lo.
Definition clamp_max (hi x : Z) : Z := Z.min x hi.

(* ------------------------------------------------------------------------- *)
(** ** Tensors

    A [torch.Tensor] is its shape, its element type and its entries in
    row-major order.  The rank is dynamic, as in the source (a volume tensor
    is 4D, a channel reduction is 3D, centroids are 2D).  The element type
    is a tag that casts and results carry along; which element types each
    [torch] kernel accepts is not part of the model. *)

Inductive dtype : Type := boolean | int32 | int64 | float16 | float32.

Definition dtype_eqb (a b : dtype) : bool :=
  match a, b with
  | boolean, boolean | int32, int32 | int64, int64
  | float16, float16 | float32, float32 => true
  | _, _ => false
  end.

Record Tensor : Type := mkTensor {
  shape : list nat;
  dtype_of : dtype;
  data : list Qc
}.

Definition numel (s : list nat) : nat := fold_right Nat.mul 1%nat s.
Definition ndim (t : Tensor) : nat := length (shape t).

(** A tensor is well formed when it holds one entry per index. *)
Definition tensor_wf (t : Tensor) : Prop := length (data t) = numel (shape t).

(** [k] consecutive chunks of [sz] entries. *)
Fixpoint chunks {A : Type} (k sz : nat) (l : list A) : list (list A) :=
  match k with
  | O => []
  | S k' => firstn sz l :: chunks k' sz (skipn sz l)
  end.

(** The one primitive behind slicing, integer indexing, padding and
    broadcasting: along [axis], entry [k] of the result is the slice of [t]
    at position [i] when [idxs] says [Some i] at [k], and a slice of [fill]
    when it says [None]. *)
Definition gather_axis (axis : nat) (idxs : list (option nat)) (fill : Qc)
  (t : Tensor) : Tensor :=
  let s := shape t in
  let inner := numel (skipn (S axis) s) in
  let n := nth axis s 0%nat in
  let outer := numel (firstn axis s) in
  let pick (blk : list Qc) (oi : option nat) : list Qc :=
    match oi with
    | Some i => firstn inner (skipn (i * inner) blk)
    | None => repeat fill inner
    end in
  mkTensor (firstn axis s ++ length idxs :: skipn (S axis) s) (dtype_of t)
    (flat_map (fun blk => flat_map (pick blk) idxs)
       (chunks outer (n * inner) (data t))).

(** Drops axis [axis] from the shape (the entries stay as they are). *)
Definition drop_axis (axis : nat) (t : Tensor) : Tensor :=
  mkTensor (firstn axis (shape t) ++ skipn (S axis) (shape t)) (dtype_of t) (data t).

(** [Tensor.unsqueeze(0)]. *)
Definition unsqueeze0 (t : Tensor) : Tensor :=
  mkTensor (1%nat :: shape t) (dtype_of t) (data t).

(** *** Basic indexing: [tensor[items]] *)

Inductive index_item : Type :=
| Idx (i : Z)
| Slice (start stop step : option Z)
| Ellipsis.

Definition slice_all : index_item := Slice None None None.

Definition is_int (s : index_item) : bool :=
  match s with Idx _ => true | _ => false end.
Definition is_ellipsis (s : index_item) : bool :=
  match s with Ellipsis => true | _ => false end.

(** A slice bound as [slice.indices] reads it: a negative bound counts from
    the end, and the outcome is clipped to [0, n]. *)
Definition slice_bound (n : Z) (b : Z) : Z :=
  Z.max 0 (Z.min n (if b <? 0 then b + n else b)).

(** The positions [slice(start, stop, step)] selects on an axis of length [n].
    [torch] refuses steps that are not positive. *)
Definition slice_indices (start stop step : option Z) (n : nat)
  : result (list nat) :=
  let st := match step with Some s => s | None => 1 end in
  if st <=? 0 then Raise (ValueError "step must be greater than zero")
  else
    let n' := Z.of_nat n in
    let lo := match start with Some s => slice_bound n' s | None => 0 end in
    let hi := match stop with Some s => slice_bound n' s | None => n' end in
    let count := if hi <=? lo then 0 else (hi - lo + st - 1) / st in
    Ok (map (fun k => Z.to_nat (lo + Z.of_nat k * st)) (seq 0 (Z.to_nat count))).

(** The position an integer index selects, counted from the end when
    negative. *)
Definition int_index (i : Z) (n : nat) : result nat :=
  let i' := if i <? 0 then i + Z.of_nat n else i in
  if (0 <=? i') && (i' <? Z.of_nat n) then Ok (Z.to_nat i')
  else Raise (IndexError "index out of range").

Fixpoint index_from (axis : nat) (items : list index_item) (t : Tensor)
  : result Tensor :=
  match items with
  | [] => Ok t
  | Idx i :: rest =>
      k <- int_index i (nth axis (shape t) 0%nat) ;;
      index_from axis rest (drop_axis axis (gather_axis axis [Some k] (Q2Qc 0) t))
  | Slice a b c :: rest =>
      idxs <- slice_indices a b c (nth axis (shape t) 0%nat) ;;
      index_from (S axis) rest (gather_axis axis (map Some idxs) (Q2Qc 0) t)
  | Ellipsis :: rest => Raise (IndexError "an index can only have a single ellipsis")
  end.

(** Replaces the first [Ellipsis] by as many full slices as the rank needs. *)
Fixpoint fill_ellipsis (missing : nat) (items : list index_item) : list index_item :=
  match items with
  | [] => []
  | Ellipsis :: rest => repeat slice_all missing ++ rest
  | s :: rest => s :: fill_ellipsis missing rest
  end.

Definition getitem (t : Tensor) (items : list index_item) : result Tensor :=
  let used := length (filter (fun s => negb (is_ellipsis s)) items) in
  if (ndim t <? used)%nat then Raise (IndexError "too many indices for tensor")
  else index_from 0 (fill_ellipsis (ndim t - used) items) t.

(** *** Padding: [torch.nn.functional.pad] *)

(** Where the entries of a padded axis of length [n] come from, for [a]
    entries before and [b] after. *)
Definition pad_indices (mode : string) (n a b : nat) : result (list (option nat)) :=
  let body := map Some (seq 0 n) in
  if String.eqb mode "constant" then
    Ok (repeat None a ++ body ++ repeat None b)
  else if String.eqb mode "replicate" then
    if (n =? 0)%nat then Raise (RuntimeError "replicate padding of an empty axis")
    else Ok (repeat (Some 0%nat) a ++ body ++ repeat (Some (n - 1)%nat) b)
  else if String.eqb mode "reflect" then
    if ((a <? n) && (b <? n))%nat then
      Ok (rev (map Some (seq 1 a)) ++ body
            ++ map (fun k => Some (n - 2 - k)%nat) (seq 0 b))
    else Raise (RuntimeError "padding size should be less than the input dimension")
  else Raise (RuntimeError "unrecognised padding mode").

(** [pads] is read as [torch] reads it: pairs (before, after), the first pair
    for the last axis. *)
Fixpoint pad_from (axis_from_end : nat) (pads : list nat) (mode : string)
  (t : Tensor) : result Tensor :=
  match pads with
  | [] => Ok t
  | [_] => Raise (RuntimeError "padding length must be divisible by 2")
  | a :: b :: rest =>
      if (ndim t <=? axis_from_end)%nat then
        Raise (RuntimeError "padding length too large")
      else
        let axis := (ndim t - 1 - axis_from_end)%nat in
        idxs <- pad_indices mode (nth axis (shape t) 0%nat) a b ;;
        pad_from (S axis_from_end) rest mode (gather_axis axis idxs (Q2Qc 0) t)
  end.

Definition F_pad (t : Tensor) (pads : list nat) (mode : string) : result Tensor :=
  pad_from 0 pads mode t.

(** *** Reductions *)

Definition Qcmin (x y : Qc) : Qc := if Qcleb x y then x else y.
Definition Qcmax (x y : Qc) : Qc := if Qcleb x y then y else x.
Definition Qcsum (l : list Qc) : Qc := fold_right Qcplus (Q2Qc 0) l.

Definition scalar_tensor (dt : dtype) (x : Qc) : Tensor := mkTensor [] dt [x].

(** [Tensor.min()] and [Tensor.max()] over every entry; [torch] refuses an
    empty tensor. *)
Definition tensor_min (t : Tensor) : result Tensor :=
  match data t with
  | [] => Raise (RuntimeError "min(): cannot reduce an empty tensor")
  | x :: rest => Ok (scalar_tensor (dtype_of t) (fold_left Qcmin rest x))
  end.

Definition tensor_max (t : Tensor) : result Tensor :=
  match data t with
  | [] => Raise (RuntimeError "max(): cannot reduce an empty tensor")
  | x :: rest => Ok (scalar_tensor (dtype_of t) (fold_left Qcmax rest x))
  end.

(** [Tensor.flatten()]. *)
Definition flatten (t : Tensor) : Tensor :=
  mkTensor [numel (shape t)] (dtype_of t) (data t).

Fixpoint insert_desc (x : Qc) (l : list Qc) : list Qc :=
  match l with
  | [] => [x]
  | y :: rest => if Qcleb y x then x :: l else y :: insert_desc x rest
  end.
Definition sort_desc (l : list Qc) : list Qc := fold_right insert_desc [] l.

(** [Tensor.topk(k, largest, sorted=False).values] of a 1D tensor: the [k]
    largest (or smallest) entries; [torch] refuses [k] above the length. *)
Definition topk_values (t : Tensor) (k : Z) (largest : bool) : result Tensor :=
  if (k <? 0) || (Z.of_nat (length (data t)) <? k) then
    Raise (RuntimeError "selected index k out of range")
  else
    let sorted := sort_desc (data t) in
    let picked := firstn (Z.to_nat k) (if largest then sorted else rev sorted) in
    Ok (mkTensor [Z.to_nat k] (dtype_of t) picked).

(** An axis given as Python gives it, negative counting from the end. *)
Definition norm_dim (rank : nat) (dim : Z) : result nat :=
  let d := if dim <? 0 then dim + Z.of_nat rank else dim in
  if (0 <=? d) && (d <? Z.of_nat rank) then Ok (Z.to_nat d)
  else Raise (IndexError "dimension out of range").

(** The entries met along [axis] at inner position [j] of one outer block. *)
Definition column (inner n j : nat) (blk : list Qc) : list Qc :=
  map (fun i => nth (i * inner + j) blk (Q2Qc 0)) (seq 0 n).

(** Reduces [axis] away with [f]. *)
Definition reduce_axis (axis : nat) (f : list Qc -> Qc) (dt : dtype) (t : Tensor)
  : Tensor :=
  let s := shape t in
  let inner := numel (skipn (S axis) s) in
  let n := nth axis s 0%nat in
  let outer := numel (firstn axis s) in
  mkTensor (firstn axis s ++ skipn (S axis) s) dt
    (flat_map (fun blk => map (fun j => f (column inner n j blk)) (seq 0 inner))
       (chunks outer (n * inner) (data t))).

Definition list_min (l : list Qc) : Qc :=
  match l with [] => Q2Qc 0 | x :: rest => fold_left Qcmin rest x end.
Definition list_max (l : list Qc) : Qc :=
  match l with [] => Q2Qc 0 | x :: rest => fold_left Qcmax rest x end.

(** [Tensor.amax(dim)] / [Tensor.amin(dim)]: one axis, or every entry when
    [dim] is [None]; an empty axis cannot be reduced. *)
Definition amax_or_amin (pick : list Qc -> Qc) (dim : option Z) (t : Tensor)
  : result Tensor :=
  match dim with
  | None =>
      match data t with
      | [] => Raise (RuntimeError "cannot reduce an empty tensor")
      | _ => Ok (scalar_tensor (dtype_of t) (pick (data t)))
      end
  | Some d =>
      axis <- norm_dim (ndim t) d ;;
      if (nth axis (shape t) 0 =? 0)%nat then
        Raise (RuntimeError "expected reduction dim to have non-zero size")
      else Ok (reduce_axis axis pick (dtype_of t) t)
  end.

Definition amax : option Z -> Tensor -> result Tensor := amax_or_amin list_max.
Definition amin : option Z -> Tensor -> result Tensor := amax_or_amin list_min.

(** The element type of a sum: integers and booleans add up as [int64]. *)
Definition sum_dtype (dt : dtype) : dtype :=
  match dt with
  | boolean | int32 | int64 => int64
  | _ => dt
  end.

(** [Tensor.sum(dim)]. *)
Definition tensor_sum (dim : option Z) (t : Tensor) : result Tensor :=
  match dim with
  | None => Ok (scalar_tensor (sum_dtype (dtype_of t)) (Qcsum (data t)))
  | Some d =>
      axis <- norm_dim (ndim t) d ;;
      Ok (reduce_axis axis Qcsum (sum_dtype (dtype_of t)) t)
  end.

(** [Tensor.mean(dim)] of a float tensor.  The mean over an empty axis is
    0/0, which the rational model reads as 0. *)
Definition tensor_mean (dim : Z) (t : Tensor) : result Tensor :=
  axis <- norm_dim (ndim t) dim ;;
  let n := Qc_of_nat (nth axis (shape t) 0%nat) in
  Ok (reduce_axis axis (fun l => (Qcsum l / n)%Qc) (dtype_of t) t).

(** The index of the [k]-th entry in row-major order. *)
Fixpoint unravel (s : list nat) (k : nat) : list nat :=
  match s with
  | [] => []
  | _ :: rest =>
      let inner := numel rest in
      (k / inner)%nat :: unravel rest (k mod inner)%nat
  end.

(** [Tensor.nonzero()]: the indices of the entries that are not zero, one
    row each, in row-major order. *)
Definition nonzero (t : Tensor) : Tensor :=
  let hits := filter (fun k => negb (Qceqb (nth k (data t) (Q2Qc 0)) (Q2Qc 0)))
                (seq 0 (length (data t))) in
  mkTensor [length hits; ndim t] int64
    (flat_map (fun k => map Qc_of_nat (unravel (shape t) k)) hits).

(** [Tensor.view(shape)]: same entries, another shape of the same size. *)
Definition view (s : list nat) (t : Tensor) : result Tensor :=
  if (numel s =? numel (shape t))%nat then Ok (mkTensor s (dtype_of t) (data t))
  else Raise (RuntimeError "shape is invalid for input size").

(** *** Element-wise operations *)

Definition tensor_map (f : Qc -> Qc) (dt : dtype) (t : Tensor) : Tensor :=
  mkTensor (shape t) dt (map f (data t)).

(** Values after a cast: integers truncate, booleans test for non-zero. *)
Definition cast_value (dt : dtype) (x : Qc) : Qc :=
  match dt with
  | boolean => if Qceqb x (Q2Qc 0) then Q2Qc 0 else Q2Qc 1
  | int32 | int64 => Qc_of_Z (trunc x)
  | float16 | float32 => x
  end.

(** [Tensor.type(dtype)], and [.float()], [.int()], [.bool()], [.half()]. *)
Definition cast (dt : dtype) (t : Tensor) : Tensor := tensor_map (cast_value dt) dt t.

(** Broadcasting of two shapes, read from the last axis. *)
Fixpoint broadcast_rev (a b : list nat) : option (list nat) :=
  match a, b with
  | [], _ => Some b
  | _, [] => Some a
  | x :: a', y :: b' =>
      match broadcast_rev a' b' with
      | None => None
      | Some r =>
          if (x =? y)%nat then Some (x :: r)
          else if (x =? 1)%nat then Some (y :: r)
          else if (y =? 1)%nat then Some (x :: r)
          else None
      end
  end.

Definition broadcast_shapes (a b : list nat) : result (list nat) :=
  match broadcast_rev (rev a) (rev b) with
  | Some r => Ok (rev r)
  | None => Raise (RuntimeError "the sizes of the tensors must match")
  end.

(** Expands [t] to shape [s]: missing leading axes are added, and an axis of
    length one is repeated. *)
Definition broadcast_to (s : list nat) (t : Tensor) : Tensor :=
  let lead := (length s - ndim t)%nat in
  let t0 := mkTensor (repeat 1%nat lead ++ shape t) (dtype_of t) (data t) in
  fold_left
    (fun acc axis =>
       let want := nth axis s 0%nat in
       if (nth axis (shape acc) 0 =? want)%nat then acc
       else gather_axis axis (repeat (Some 0%nat) want) (Q2Qc 0) acc)
    (seq 0 (length s)) t0.

Fixpoint map2 {A B C : Type} (f : A -> B -> C) (l : list A) (l' : list B) : list C :=
  match l, l' with
  | x :: r, y :: r' => f x y :: map2 f r r'
  | _, _ => []
  end.

(** [a OP b] with broadcasting. *)
Definition tensor_binop (f : Qc -> Qc -> Qc) (dt : dtype) (a b : Tensor)
  : result Tensor :=
  s <- broadcast_shapes (shape a) (shape b) ;;
  Ok (mkTensor s dt (map2 f (data (broadcast_to s a)) (data (broadcast_to s b)))).

(** [a OP= b]: the outcome is written into [a], which keeps its shape, so
    [b] has to broadcast to it. *)
Definition tensor_binop_inplace (f : Qc -> Qc -> Qc) (a b : Tensor) : result Tensor :=
  s <- broadcast_shapes (shape a) (shape b) ;;
  if list_eq_dec Nat.eq_dec s (shape a) then
    Ok (mkTensor (shape a) (dtype_of a)
          (map (cast_value (dtype_of a)) (map2 f (data a) (data (broadcast_to s b)))))
  else Raise (RuntimeError "output shape does not match the broadcast shape").

(** [torch.full(shape, fill)], and with it [torch.zeros] and [torch.ones]. *)
Definition full (s : list nat) (fill : Qc) (dt : dtype) : Tensor :=
  mkTensor s dt (repeat (cast_value dt fill) (numel s)).

(** [torch.stack([x, y, z], dim=-1)] of three tensors of one shape. *)
Definition stack_last (x y z : Tensor) : Tensor :=
  mkTensor (shape x ++ [3%nat]) (dtype_of x)
    (flat_map (fun k => [nth k (data x) (Q2Qc 0); nth k (data y) (Q2Qc 0);
                         nth k (data z) (Q2Qc 0)])
       (seq 0 (length (data x)))).

(** [torch.cat(tensors, dim=0)]: the tensors must agree on every other axis. *)
Fixpoint cat0 (ts : list Tensor) : result Tensor :=
  match ts with
  | [] => Raise (RuntimeError "expected a non-empty list of tensors")
  | [t] => Ok t
  | t :: rest =>
      r <- cat0 rest ;;
      if list_eq_dec Nat.eq_dec (tl (shape t)) (tl (shape r)) then
        Ok (mkTensor ((hd 0 (shape t) + hd 0 (shape r))%nat :: tl (shape t))
              (dtype_of t) (data t ++ data r))
      else Raise (RuntimeError "sizes of tensors must match except in dimension 0")
  end.

(* ------------------------------------------------------------------------- *)
(** ** Affine geometry

    The affine algebra ([vx.AffineMatrix], [vx.AcquisitionGeometry],
    [vx.AffineVolumeTransform], [vx.Space]) is consumed by [volume.py] and
    lives in other modules of the package. *)

Definition Mat3 : Type := (Vec3 * Vec3 * Vec3)%type.

Definition dot (u v : Vec3) : Qc :=
  let '(a, b, c) := u in let '(x, y, z) := v in (a * x + b * y + c * z)%Qc.

Definition mat_vec (m : Mat3) (v : Vec3) : Vec3 :=
  let '(r0, r1, r2) := m in (dot r0 v, dot r1 v, dot r2 v).

Definition transpose (m : Mat3) : Mat3 :=
  let '((a, b, c), (d, e, f), (g, h, i)) := m in
  ((a, d, g), (b, e, h), (c, f, i)).

Definition mat_mul (m n : Mat3) : Mat3 :=
  let '(c0, c1, c2) := transpose n in
  transpose (mat_vec m c0, mat_vec m c1, mat_vec m c2).

Definition mat_id : Mat3 :=
  ((Q2Qc 1, Q2Qc 0, Q2Qc 0), (Q2Qc 0, Q2Qc 1, Q2Qc 0), (Q2Qc 0, Q2Qc 0, Q2Qc 1)).

Definition diag (s : Vec3) : Mat3 :=
  let '(x, y, z) := s in
  ((x, Q2Qc 0, Q2Qc 0), (Q2Qc 0, y, Q2Qc 0), (Q2Qc 0, Q2Qc 0, z)).

Definition det (m : Mat3) : Qc :=
  let '((a, b, c), (d, e, f), (g, h, i)) := m in
  (a * (e * i - f * h) - b * (d * i - f * g) + c * (d * h - e * g))%Qc.

Definition adjugate (m : Mat3) : Mat3 :=
  let '((a, b, c), (d, e, f), (g, h, i)) := m in
  (((e * i - f * h), (c * h - b * i), (b * f - c * e)),
   ((f * g - d * i), (a * i - c * g), (c * d - a * f)),
   ((d * h - e * g), (b * g - a * h), (a * e - b * d)))%Qc.

Definition mat_scale (k : Qc) (m : Mat3) : Mat3 := map3 (map3 (Qcmult k)) m.

(** [torch.allclose] on the entries of two 3x3 blocks. *)
Definition mat_close (m n : Mat3) : bool := all3 (fun b : bool => b) (zip3 vclose m n).

(** Modelled from the spec: [vx.AffineMatrix] is missing from the sources.  The
    spec describes it as "a voxel-to-world affine matrix (3x4 or 4x4 semantics:
    3x3 rotation/scale + translation)"; the last row of the 4x4 form is
    always (0, 0, 0, 1) and is not stored. *)
Record AffineMatrix : Type := mkAffine {
  lin : Mat3;
  trans : Vec3
}.

Definition affine_id : AffineMatrix := mkAffine mat_id vzero.

(** Modelled from the spec: [AffineMatrix.transform(points)] on one point. *)
Definition affine_apply (a : AffineMatrix) (p : Vec3) : Vec3 :=
  vadd (mat_vec (lin a) p) (trans a).

(** Modelled from the spec: the composition [a @ b] (apply [b], then [a]). *)
Definition compose (a b : AffineMatrix) : AffineMatrix :=
  mkAffine (mat_mul (lin a) (lin b)) (affine_apply a (trans b)).

(** Modelled from the spec: [AffineMatrix.inverse()].  A singular matrix has
    no inverse and the call raises. *)
Definition inverse (a : AffineMatrix) : result AffineMatrix :=
  let d := det (lin a) in
  if Qceqb d (Q2Qc 0) then Raise (RuntimeError "the matrix is singular")
  else
    let li := mat_scale (/ d)%Qc (adjugate (lin a)) in
    Ok (mkAffine li (vopp (mat_vec li (trans a)))).

(** Modelled from the spec: [vx.Space], the coordinate space of a delta. *)
Inductive Space : Type := voxel | world.

Definition Space_eqb (a b : Space) : bool :=
  match a, b with
  | voxel, voxel | world, world => true
  | _, _ => false
  end.

(** Modelled from the spec: [shift(delta, space)] moves the origin of the
    grid by [delta], given in voxels (applied before the matrix) or in world
    units (applied after it).  The rotation/scale block is untouched. *)
Definition affine_shift (a : AffineMatrix) (delta : Vec3) (space : Space)
  : AffineMatrix :=
  match space with
  | voxel => mkAffine (lin a) (affine_apply a delta)
  | world => mkAffine (lin a) (vadd (trans a) delta)
  end.

(** Modelled from the spec: [scale(factor, space)] rescales the grid axes
    (voxel space) or the world axes (world space). *)
Definition affine_scale (a : AffineMatrix) (factor : Vec3) (space : Space)
  : AffineMatrix :=
  match space with
  | voxel => mkAffine (mat_mul (lin a) (diag factor)) (trans a)
  | world => mkAffine (mat_mul (diag factor) (lin a)) (mat_vec (diag factor) (trans a))
  end.

(** [a.tensor[:, :3]] against [b.tensor[:, :3]]: the first three columns; the
    fourth row of both is (0, 0, 0). *)
Definition linear_close (a b : AffineMatrix) : bool := mat_close (lin a) (lin b).

(** [a.tensor[:3, -1]] against [b.tensor[:3, -1]]: the translation column. *)
Definition translation_close (a b : AffineMatrix) : bool := vclose (trans a) (trans b).

(** Modelled from the spec: the slice direction of an acquisition, which a
    volume passes along and never reads. *)
Inductive SliceDirection : Type := sagittal | coronal | axial.

(** Modelled from the spec: [vx.AcquisitionGeometry] is missing from the
    sources: "a voxel-to-world affine transform plus the voxel grid shape it
    is anchored to". *)
Record AcquisitionGeometry : Type := mkGeometry {
  baseshape : Z3;
  matrix : AffineMatrix;
  explicit_slice_direction : option SliceDirection
}.

(** Modelled from the spec: [AcquisitionGeometry.shift] moves the matrix
    and keeps the anchored shape and the slice direction. *)
Definition shift (g : AcquisitionGeometry) (delta : Vec3) (space : Space)
  : AcquisitionGeometry :=
  mkGeometry (baseshape g) (affine_shift (matrix g) delta space)
    (explicit_slice_direction g).

(** Modelled from the spec: [AcquisitionGeometry.scale] rescales the matrix
    and keeps the anchored shape and the slice direction. *)
Definition scale (g : AcquisitionGeometry) (factor : Vec3) (space : Space)
  : AcquisitionGeometry :=
  mkGeometry (baseshape g) (affine_scale (matrix g) factor space)
    (explicit_slice_direction g).

(** Modelled from the spec: the geometry a volume gets when none is given,
    "a shifted identity in which the image volume is centered at the world
    origin" (docstring of [Volume.__init__]). *)
Definition centered_identity (bs : Z3) : AffineMatrix :=
  mkAffine mat_id
    (map3 (fun n => (- ((Qc_of_Z n - Q2Qc 1) / Q2Qc 2))%Qc) bs).

(** Geometries agree within the tolerance: same anchored shape, and every
    matrix entry within [atol]. *)
Definition geometry_close (g h : AcquisitionGeometry) : bool :=
  Z3_eqb (baseshape g) (baseshape h)
  && linear_close (matrix g) (matrix h)
  && translation_close (matrix g) (matrix h).

(** Modelled from the spec: [vx.AffineVolumeTransform], an affine map
    between the grids of a source and a target geometry, held either in
    voxel coordinates (source voxels to target voxels) or in world
    coordinates. *)
Record AffineVolumeTransform : Type := mkTransform {
  avt_matrix : AffineMatrix;
  avt_space : Space;
  avt_source : AcquisitionGeometry;
  avt_target : AcquisitionGeometry
}.

(** Modelled from the spec: [AffineVolumeTransform.convert(space, source)]
    re-expresses the map in the other coordinates, through the geometries
    of its source and target; nothing changes when the space is already
    the requested one. *)
Definition convert (t : AffineVolumeTransform) (space : Space)
  (source : option AcquisitionGeometry) : result AffineVolumeTransform :=
  let src := match source with Some s => s | None => avt_source t end in
  match avt_space t, space with
  | world, world | voxel, voxel =>
      Ok (mkTransform (avt_matrix t) space src (avt_target t))
  | voxel, world =>
      si <- inverse (matrix src) ;;
      Ok (mkTransform (compose (matrix (avt_target t)) (compose (avt_matrix t) si))
            world src (avt_target t))
  | world, voxel =>
      ti <- inverse (matrix (avt_target t)) ;;
      Ok (mkTransform (compose ti (compose (avt_matrix t) (matrix src)))
            voxel src (avt_target t))
  end.

(** Modelled from the spec: [AffineVolumeTransform.inverse()] swaps source
    and target. *)
Definition transform_inverse (t : AffineVolumeTransform) : result AffineVolumeTransform :=
  mi <- inverse (avt_matrix t) ;;
  Ok (mkTransform mi (avt_space t) (avt_target t) (avt_source t)).

(** Modelled from the spec: [vx.Mesh] is missing from the sources; only its
    vertices matter to a volume. *)
Record Mesh : Type := mkMesh { vertices : list Vec3 }.

(** Modelled from the spec: [vx.mesh.construct_box_mesh(min_corner,
    max_corner)] is the box with these two opposite corners. *)
Definition construct_box_mesh (min_point max_point : Vec3) : Mesh :=
  let '(x0, y0, z0) := min_point in
  let '(x1, y1, z1) := max_point in
  mkMesh [(x0, y0, z0); (x1, y0, z0); (x0, y1, z0); (x1, y1, z0);
          (x0, y0, z1); (x1, y0, z1); (x0, y1, z1); (x1, y1, z1)].

(** Modelled from the spec: [Mesh.transform(geometry)] maps every vertex. *)
Definition mesh_transform (m : Mesh) (a : AffineMatrix) : Mesh :=
  mkMesh (map (affine_apply a) (vertices m)).

(** A world-space amount given as one number for every axis, or per axis. *)
Inductive scalar_or_vector : Type :=
| Scalar (q : Qc)
| Vector (v : Vec3).

Definition as_vector (m : scalar_or_vector) : Vec3 :=
  match m with
  | Scalar q => (q, q, q)
  | Vector v => v
  end.


(* ------------------------------------------------------------------------- *)
(** ** The Volume class *)

Record Volume : Type := mkVolume {
  tensor : Tensor;
  geometry : AcquisitionGeometry
}.

(** What a caller may pass as [geometry]: nothing, a bare matrix, or an
    acquisition geometry. *)
Inductive geometry_arg : Type :=
| GeomNone
| GeomMatrix (m : AffineMatrix)
| GeomAcquisition (g : AcquisitionGeometry).

(** Modelled from the spec: the constructor
    [AcquisitionGeometry(baseshape, matrix, slice_direction)]. *)
Definition AcquisitionGeometry_new (bs : Z3) (m : option AffineMatrix)
  (sd : option SliceDirection) : AcquisitionGeometry :=
  mkGeometry bs (match m with Some a => a | None => centered_identity bs end) sd.

(** [tensor.shape[1:]] of a 4D tensor. *)
Definition tensor_baseshape (t : Tensor) : Z3 :=
  match shape t with
  | [_; w; h; d] => (Z.of_nat w, Z.of_nat h, Z.of_nat d)
  | _ => (0, 0, 0)
  end.

(** Properties [shape], [baseshape], [num_channels] and [dtype]. *)
Definition volume_shape (self : Volume) : list nat := shape (tensor self).
Definition volume_baseshape (self : Volume) : Z3 := tensor_baseshape (tensor self).
Definition num_channels (self : Volume) : nat := hd 0%nat (shape (tensor self)).
Definition volume_dtype (self : Volume) : dtype := dtype_of (tensor self).

(** The setter of the [geometry] property, on a volume holding [t]. *)
Definition geometry_setter (t : Tensor) (g : geometry_arg) : result AcquisitionGeometry :=
  match g with
  | GeomAcquisition a =>
      if negb (Z3_eqb (baseshape a) (tensor_baseshape t)) then
        Raise (ValueError "acquisition geometry shape must match the image base shape")
      else Ok a
  | GeomMatrix m => Ok (AcquisitionGeometry_new (tensor_baseshape t) (Some m) None)
  | GeomNone => Ok (AcquisitionGeometry_new (tensor_baseshape t) None None)
  end.

(** [Volume.__init__]. *)
Definition Volume_init (t : Tensor) (g : geometry_arg) : result Volume :=
  t' <- (if (ndim t =? 3)%nat then Ok (unsqueeze0 t)
         else if negb (ndim t =? 4)%nat then
           Raise (ValueError "expected 3D or 4D features")
         else Ok t) ;;
  a <- geometry_setter t' g ;;
  Ok (mkVolume t' a).

(** [Volume.new]: a volume over [t], with the current geometry when none is
    given. *)
Definition new (self : Volume) (t : Tensor) (g : geometry_arg) : result Volume :=
  Volume_init t (match g with
                 | GeomNone => GeomAcquisition (geometry self)
                 | _ => g
                 end).

(** The invariant of the class: a 4D tensor, and a geometry anchored to its
    spatial shape. *)
Definition Volume_ok (v : Volume) : Prop :=
  ndim (tensor v) = 4%nat /\ baseshape (geometry v) = tensor_baseshape (tensor v).

(** [Volume.quantile]. *)
Definition quantile (self : Volume) (q : Qc) : result Tensor :=
  if Qcltb q (Q2Qc 0) || Qcltb (Q2Qc 1) q then
    Raise (ValueError "quantile must be between 0 and 1")
  else if Qceqb q (Q2Qc 0) then tensor_min (tensor self)
  else if Qceqb q (Q2Qc 1) then tensor_max (tensor self)
  else
    let flattened := flatten (tensor self) in
    let n := Qc_of_nat (numel (shape flattened)) in
    if Qcltb (Q2Qc (1 # 2)) q then
      let k := trunc (n * (Q2Qc 1 - q))%Qc + 1 in
      v <- topk_values flattened k true ;;
      tensor_min v
    else
      let k := trunc (n * q)%Qc + 1 in
      v <- topk_values flattened k false ;;
      tensor_max v.

(** The three entries of a tensor of shape [3]. *)
Definition vec3_of_tensor (t : Tensor) : Vec3 :=
  (nth 0 (data t) (Q2Qc 0), nth 1 (data t) (Q2Qc 0), nth 2 (data t) (Q2Qc 0)).

Definition arange (n : nat) : Tensor := mkTensor [n] int64 (map Qc_of_nat (seq 0 n)).

(** The helper [coord] of [Volume.centroids]:
    [(a * arange(a.shape[-1])).sum(-1) / (a.sum(-1) + 1e-6)]. *)
Definition coord (a : Tensor) : result Tensor :=
  weighted <- tensor_binop Qcmult float32 a (arange (last (shape a) 0%nat)) ;;
  num <- tensor_sum (Some (-1)) weighted ;;
  total <- tensor_sum (Some (-1)) a ;;
  den <- tensor_binop Qcplus float32 total (scalar_tensor float32 (Q2Qc (1 # 1000000))) ;;
  tensor_binop Qcdiv float32 num den.

(** [Volume.centroids].  The class defines no attribute [matrix], so the
    world-space branch raises when it reads [self.matrix]. *)
Definition centroids (self : Volume) (space : Space) : result Tensor :=
  let clamped_tensor := cast float32 (tensor_map (Qcmax (Q2Qc 0)) (volume_dtype self) (tensor self)) in
  z_mean <- tensor_mean (-1) clamped_tensor ;;
  xm <- tensor_mean (-1) z_mean ;;
  x <- coord xm ;;
  ym <- tensor_mean (-2) z_mean ;;
  y <- coord ym ;;
  zm <- tensor_mean (-2) clamped_tensor ;;
  zm' <- tensor_mean (-2) zm ;;
  z <- coord zm' ;;
  let centroids := stack_last x y z in
  if Space_eqb space world then
    Raise (AttributeError "'Volume' object has no attribute 'matrix'")
  else Ok centroids.


(* ------------------------------------------------------------------------- *)
(** ** Reference collaborators and sample data

    Concrete stand-ins for the collaborators that the methods below take as
    parameters, and small volumes to run the methods on. *)

(** Modelled from the spec: [vx.slicing.expand_slicing] is missing from the
    sources ("expansion of partial slicing tuples to full rank"): an
    ellipsis stands for the axes not named, and full slices complete the
    tuple. *)
Definition expand_to_rank (items : list index_item) (rank : nat)
  : result (list index_item) :=
  let used := length (filter (fun s => negb (is_ellipsis s)) items) in
  if (rank <? used)%nat then Raise (IndexError "too many indices")
  else
    let filled := fill_ellipsis (rank - used) items in
    Ok (filled ++ repeat slice_all (rank - length filled)).

(** Modelled from the spec: [vx.slicing.slicing_to_coordinates] is missing
    from the sources ("conversions between (start,stop,stride)-tuples and
    integer corner coordinate pairs"): the first and the last voxel each
    slice selects, and the strides when one is given. *)
Definition slice_corners (item : index_item) (n : Z) : result (Z * Z * option Z) :=
  match item with
  | Slice a b c =>
      let lo := match a with Some s => slice_bound n s | None => 0 end in
      let hi := match b with Some s => slice_bound n s | None => n end in
      Ok (lo, hi - 1, c)
  | _ => Raise (ValueError "expected a slice")
  end.

(** Modelled from the spec: the corners of the three spatial slices, a
    missing slice standing for the whole axis. *)
Definition corners_of_slicing (items : list index_item) (bs : Z3)
  : result (Z3 * Z3 * option Z3) :=
  let '(w, h, d) := bs in
  let item k := nth k items slice_all in
  '(x0, x1, sx) <- slice_corners (item 0%nat) w ;;
  '(y0, y1, sy) <- slice_corners (item 1%nat) h ;;
  '(z0, z1, sz) <- slice_corners (item 2%nat) d ;;
  let strides :=
    match sx, sy, sz with
    | None, None, None => None
    | _, _, _ =>
        let or1 (s : option Z) := match s with Some v => v | None => 1 end in
        Some (or1 sx, or1 sy, or1 sz)
    end in
  Ok ((x0, y0, z0), (x1, y1, z1), strides).

(** Modelled from the spec: [vx.slicing.coordinates_to_slicing] is missing
    from the sources: the slices from the first to the last voxel, both
    included. *)
Definition slicing_of_corners (minc maxc : list Z) (stride : option (list Z))
  : result (list index_item) :=
  Ok (map (fun k =>
             Slice (Some (nth k minc 0)) (Some (nth k maxc 0 + 1))
               (match stride with Some s => Some (nth k s 1) | None => None end))
        (seq 0 (length minc))).

(** The spacing of a geometry whose axes are the world axes: the absolute
    values of the diagonal. *)
Definition diagonal_spacing (m : Mat3) : Vec3 :=
  let '((a, _, _), (_, e, _), (_, _, i)) := m in (Qcabs a, Qcabs e, Qcabs i).

(** An interpolation primitive that is never available: a call that
    succeeds with it did not interpolate. *)
Definition no_interpolation (input grid : Tensor) (mode padding_mode : string)
  : result Tensor :=
  Raise (RuntimeError "interpolation is not available").

(** Rational stand-ins for the transcendental functions (the first terms of
    the exponential series; powers with a natural exponent), a generator
    that yields zeros, and a filter that smooths nothing. *)
Definition series_exp (x : Qc) : Qc := (Q2Qc 1 + x + x * x / Q2Qc 2)%Qc.
Definition natural_pow (x y : Qc) : Qc := Qcpower x (Z.to_nat (trunc y)).
Definition zero_entries (n : nat) : list Qc := repeat (Q2Qc 0) n.
Definition no_blur (t : Tensor) (sigma : Vec3) (truncate : Qc) : result Tensor :=
  Ok (cast float32 t).

(** A one-channel volume of shape (1, w, h, d) holding 1, 2, 3, ... in
    row-major order, with the default geometry. *)
Definition sample_tensor (w h d : nat) : Tensor :=
  mkTensor [1%nat; w; h; d] float32 (map Qc_of_nat (seq 1 (w * h * d))).

Definition sample_volume (w h d : nat) : Volume :=
  mkVolume (sample_tensor w h d)
    (AcquisitionGeometry_new (Z.of_nat w, Z.of_nat h, Z.of_nat d) None None).

(** A geometry whose voxels are a hundred-thousandth of a world unit wide. *)
Definition fine_geometry (bs : Z3) : AcquisitionGeometry :=
  let s := Q2Qc (1 # 100000) in
  mkGeometry bs (mkAffine (diag (s, s, s)) vzero) None.

Definition fine_volume (w h d : nat) : Volume :=
  mkVolume (sample_tensor w h d) (fine_geometry (Z.of_nat w, Z.of_nat h, Z.of_nat d)).

(** Entry-wise equality of two lists of numbers. *)
Fixpoint same_entries (a b : list Qc) : bool :=
  match a, b with
  | [], [] => true
  | x :: a', y :: b' => Qceqb x y && same_entries a' b'
  | _, _ => false
  end.

(** An interpolation primitive that finds nothing to sample: zeros, on the
    batch and channels of the input and the grid shape asked for. *)
Definition blank_sample (input grid : Tensor) (mode padding_mode : string)
  : result Tensor :=
  match shape input, shape grid with
  | [n; c; _; _; _], [_; w; h; d; _] => Ok (full [n; c; w; h; d] (Q2Qc 0) float32)
  | _, _ => Raise (RuntimeError "expected a 5D input and a 5D grid")
  end.


(** A volume of [c] channels holding 1, 2, 3, ..., and a one-channel volume
    of zeros, both with the default geometry. *)
Definition layered_volume (c w h d : nat) : Volume :=
  mkVolume (mkTensor [c; w; h; d] float32 (map Qc_of_nat (seq 1 (c * (w * h * d)))))
    (AcquisitionGeometry_new (Z.of_nat w, Z.of_nat h, Z.of_nat d) None None).

Definition blank_volume (w h d : nat) : Volume :=
  mkVolume (full [1%nat; w; h; d] (Q2Qc 0) float32)
    (AcquisitionGeometry_new (Z.of_nat w, Z.of_nat h, Z.of_nat d) None None).

Section VolumeMethods.

(** The collaborators of the class that the rational model cannot define
    or that live in other modules and libraries.

    - [voxel_spacing]: the [spacing] attribute of a geometry, the world
      size of a voxel along each grid axis.  It is read off the
      rotation/scale block (lengths of its columns, which need square
      roots), so it is a function of that block alone.
    - [expand_slicing], [slicing_to_coordinates],
      [coordinates_to_slicing]: the slicing utilities of [vx.slicing].
    - [grid_sample]: [torch.nn.functional.grid_sample] with
      [align_corners=True], the interpolation primitive. *)
Variable voxel_spacing : Mat3 -> Vec3.
Variable expand_slicing : list index_item -> nat -> result (list index_item).
Variable slicing_to_coordinates :
  list index_item -> Z3 -> result (Z3 * Z3 * option Z3).
Variable coordinates_to_slicing :
  list Z -> list Z -> option (list Z) -> result (list index_item).
Variable grid_sample : Tensor -> Tensor -> string -> string -> result Tensor.

Definition spacing (g : AcquisitionGeometry) : Vec3 := voxel_spacing (lin (matrix g)).

(** [Volume.bounds]. *)
Definition bounds (self : Volume) (nonzero_only : bool)
  (margin : option scalar_or_vector) : result Mesh :=
  '(min_point, max_point) <-
    (if nonzero_only then
       t <- (if (1 <? num_channels self)%nat then Ok (tensor self)
             else tensor_sum (Some 0) (tensor self)) ;;
       v <- view (tl (volume_shape self)) t ;;
       let nz := nonzero v in
       if (hd 0 (shape nz) =? 0)%nat then
         Raise (ValueError "cannot compute nonzero bounds on an empty volume")
       else
         mn <- amin (Some 0) nz ;;
         mx <- amax (Some 0) nz ;;
         Ok (vec3_of_tensor (cast float32 mn), vec3_of_tensor (cast float32 mx))
     else
       Ok (vzero, vsub (Z3_to_Vec3 (volume_baseshape self))
                    (Q2Qc 1, Q2Qc 1, Q2Qc 1))) ;;
  let min_point :=
    match margin with
    | Some m =>
        let min_point := vsub min_point (vdiv (as_vector m) (spacing (geometry self))) in
        vadd min_point (vdiv (as_vector m) (spacing (geometry self)))
    | None => min_point
    end in
  let mesh := construct_box_mesh min_point max_point in
  Ok (mesh_transform mesh (matrix (geometry self))).

(** What a caller may pass as [cropping]: a mesh, a tuple of indexing
    items, one bare item ([int], [slice] or [...]), or anything else. *)
Inductive cropping_arg : Type :=
| CropMesh (m : Mesh)
| CropTuple (items : list index_item)
| CropItem (item : index_item)
| CropOther.

(** [points.amin(0)] and [points.amax(0)] of a list of points. *)
Definition points_reduce (pick : list Qc -> Qc) (points : list Vec3) : result Vec3 :=
  match points with
  | [] => Raise (RuntimeError "expected reduction dim to have non-zero size")
  | _ => Ok (pick (map (fun p => fst (fst p)) points),
             pick (map (fun p => snd (fst p)) points),
             pick (map (fun p => snd p) points))
  end.

(** [tensor.shape[-3:]]. *)
Definition last3 (s : list nat) : Z3 :=
  match rev s with
  | d :: h :: w :: _ => (Z.of_nat w, Z.of_nat h, Z.of_nat d)
  | _ => (0, 0, 0)
  end.

(** [Volume.crop]. *)
Definition crop (self : Volume) (cropping : cropping_arg)
  (margin : option scalar_or_vector) : result Volume :=
  (* transform to voxel units *)
  let margin :=
    option_map (fun m => map3 round_half_even
                           (vdiv (as_vector m) (spacing (geometry self)))) margin in
  '(slicing, minc, stride) <-
    match cropping with
    | CropMesh mesh =>
        world2voxel <- inverse (matrix (geometry self)) ;;
        let points := map (affine_apply world2voxel) (vertices mesh) in
        lo <- points_reduce list_min points ;;
        hi <- points_reduce list_max points ;;
        let minc := map3 (fun q : Qc => Qceiling q) lo in
        let maxc := map3 (fun q : Qc => Qfloor q) hi in
        (* extend the boundary *)
        let '(minc, maxc) :=
          match margin with
          | Some m => (zip3 Z.sub minc m, zip3 Z.add maxc m)
          | None => (minc, maxc)
          end in
        (* clamp the coordinates within the volume extent *)
        let minc := map3 (clamp_min 0) minc in
        let maxc := zip3 clamp_max (volume_baseshape self) maxc in
        sl <- coordinates_to_slicing (list3 minc) (list3 maxc) None ;;
        Ok (slice_all :: sl, minc, @None Z3)
    | CropTuple _ | CropItem _ =>
        (* conform single indexing items to a tuple format *)
        let cropping :=
          match cropping with
          | CropTuple items => items
          | CropItem item => [item]
          | _ => []
          end in
        slicing <- expand_slicing cropping 4%nat ;;
        (* do not allow cropping to remove a spatial dimension *)
        if existsb is_int (tl slicing) then
          Raise (ValueError "cannot remove a spatial dimension when cropping a volume")
        else
          '(minc, maxc, stride) <-
            slicing_to_coordinates (tl cropping) (volume_baseshape self) ;;
          match margin with
          | Some m =>
              let minc := map3 (clamp_min 0) (zip3 Z.sub minc m) in
              let maxc := zip3 clamp_max (volume_baseshape self) (zip3 Z.add maxc m) in
              match slicing with
              | [] => Raise (IndexError "tuple index out of range")
              | s0 :: _ =>
                  sl <- coordinates_to_slicing (list3 minc) (list3 maxc)
                          (option_map list3 stride) ;;
                  Ok (s0 :: sl, minc, stride)
              end
          | None => Ok (slicing, minc, stride)
          end
    | CropOther => Raise (ValueError "unknown cropping item")
    end ;;
  (* update the geometry based on any inferred voxel shift or scale *)
  let geometry := geometry self in
  let geometry :=
    if any3 (fun c => negb (c =? 0)) minc
    then shift geometry (Z3_to_Vec3 minc) voxel else geometry in
  let geometry :=
    match stride with
    | Some s => scale geometry (Z3_to_Vec3 s) voxel
    | None => geometry
    end in
  (* apply the cropping *)
  cropped_tensor <- getitem (tensor self) slicing ;;
  let cropped_geometry :=
    AcquisitionGeometry_new (last3 (shape cropped_tensor)) (Some (matrix geometry))
      (explicit_slice_direction geometry) in
  new self cropped_tensor (GeomAcquisition cropped_geometry).

(** The integer entries of an index tensor. *)
Definition tensor_ints (t : Tensor) : list Z := map (fun q : Qc => Qfloor q) (data t).

(** [Volume.crop_to_nonzero]. *)
Definition crop_to_nonzero (self : Volume) (margin : option scalar_or_vector)
  : result Volume :=
  let nz := nonzero (tensor self) in
  minc <- amin (Some 0) nz ;;
  maxc <- amax (Some 0) nz ;;
  sl <- coordinates_to_slicing (tensor_ints minc) (tensor_ints maxc) None ;;
  crop self (CropTuple sl) margin.

(** [normalize_grid_points], on one point:
    [points / (baseshape - 1) * 2 - 1]. *)
Definition normalize_grid_points (bs : Z3) (p : Vec3) : Vec3 :=
  zip3 (fun c n => (c / (Qc_of_Z n - Q2Qc 1) * Q2Qc 2 - Q2Qc 1)%Qc) p bs.

(** [Tensor.flip(-1)] of a point. *)
Definition flip (p : Vec3) : Vec3 := let '(x, y, z) := p in (z, y, x).

(** The index grid of [torch.meshgrid(..., indexing='ij')], stacked on the
    last axis. *)
Definition grid_points (w h d : nat) : list Vec3 :=
  flat_map (fun x =>
    flat_map (fun y =>
      map (fun z => (Qc_of_nat x, Qc_of_nat y, Qc_of_nat z)) (seq 0 d))
      (seq 0 h))
    (seq 0 w).

(** [volume_grid]: the coordinates of every voxel of a grid, as a tensor
    of shape (W, H, D, 3).  [torch.arange] refuses a negative length. *)
Definition volume_grid (bs : Z3) (transform : option AffineMatrix)
  (normalize : option Z3) : result Tensor :=
  let '(w, h, d) := bs in
  if (w <? 0) || (h <? 0) || (d <? 0) then
    Raise (RuntimeError "upper bound and lower bound inconsistent with step sign")
  else
    let grid := grid_points (Z.to_nat w) (Z.to_nat h) (Z.to_nat d) in
    let grid :=
      match transform with
      | Some a => map (affine_apply a) grid
      | None => grid
      end in
    let grid :=
      match normalize with
      | Some n => map (fun p => flip (normalize_grid_points n p)) grid
      | None => grid
      end in
    Ok (mkTensor [Z.to_nat w; Z.to_nat h; Z.to_nat d; 3%nat] float32
          (flat_map list3 grid)).

(** [Tensor.squeeze(0)]. *)
Definition squeeze0 (t : Tensor) : Tensor :=
  match shape t with
  | 1%nat :: rest => mkTensor rest (dtype_of t) (data t)
  | _ => t
  end.

(** What a caller may pass as [target]: a volume or a geometry. *)
Inductive like_target : Type :=
| LikeVolume (v : Volume)
| LikeGeometry (g : AcquisitionGeometry).

(** [dict(zeros='constant', reflection='reflect', border='replicate').get]. *)
Definition padding_equivalent (padding_mode : string) : option string :=
  if String.eqb padding_mode "zeros" then Some "constant"%string
  else if String.eqb padding_mode "reflection" then Some "reflect"%string
  else if String.eqb padding_mode "border" then Some "replicate"%string
  else None.

Definition interpolation_mode (mode : string) : string :=
  if String.eqb mode "linear" then "bilinear"%string else mode.

(** The last part of [Volume.resample_like]: grid interpolation. *)
Definition resample_by_grid (self : Volume) (target : AcquisitionGeometry)
  (mode padding_mode : string) : result Volume :=
  inv <- inverse (matrix (geometry self)) ;;
  let transform := compose inv (matrix target) in
  grid <- volume_grid (baseshape target) (Some transform)
            (Some (volume_baseshape self)) ;;
  out <- grid_sample (unsqueeze0 (cast float32 (tensor self))) (unsqueeze0 grid)
           (interpolation_mode mode) padding_mode ;;
  let resampled := squeeze0 out in
  (* keep the data type consistent when using nearest neighbor sampling *)
  let resampled :=
    if String.eqb mode "nearest" then cast (volume_dtype self) resampled
    else resampled in
  new self resampled (GeomAcquisition target).

(** The crop-and-pad part of [Volume.resample_like], entered once the
    voxel-space translation [delta_rounded] is known to be a whole number
    of voxels. *)
Definition resample_by_shift (self : Volume) (target : AcquisitionGeometry)
  (delta_rounded : Z3) (padding_mode : string) : result Volume :=
  (* the relative shifts in voxels at the lower (origin) and upper corners *)
  let lower := delta_rounded in
  let upper := zip3 Z.sub (zip3 Z.add lower (baseshape target))
                 (volume_baseshape self) in
  (* apply any necessary cropping to the tensor *)
  let minc := map3 (clamp_min 0) lower in
  let maxc := zip3 Z.add (map3 (clamp_max 0) upper) (volume_baseshape self) in
  let slicing :=
    slice_all :: map (fun ab => Slice (Some (fst ab)) (Some (snd ab)) None)
                   (combine (list3 minc) (list3 maxc)) in
  resampled <- getitem (tensor self) slicing ;;
  (* apply any necessary padding to the tensor *)
  let a := map3 Z.abs (map3 (clamp_max 0) lower) in
  let b := map3 (clamp_min 0) upper in
  let padding := flat_map (fun ba => [fst ba; snd ba]) (combine (list3 b) (list3 a)) in
  resampled <-
    (if existsb (fun d => negb (d =? 0)) padding then
       match padding_equivalent padding_mode with
       | None => Raise (ValueError "no padding mode equivolent")
       | Some mode =>
           let reverse := rev (map Z.to_nat padding) in
           F_pad resampled reverse mode
       end
     else Ok resampled) ;;
  new self resampled (GeomAcquisition target).

(** [Volume.resample_like]. *)
Definition resample_like (self : Volume) (target : like_target)
  (mode padding_mode : string) : result Volume :=
  let target :=
    match target with
    | LikeVolume v => geometry v
    | LikeGeometry g => g
    end in
  (* first, check the rotation and scale *)
  if linear_close (matrix (geometry self)) (matrix target) then
    (* then check if the source and target have matching baseshapes and
       matrices, because in that case nothing has to be modified at all *)
    if Z3_eqb (baseshape target) (volume_baseshape self)
       && translation_close (matrix (geometry self)) (matrix target)
    then new self (tensor self) (GeomAcquisition target)
    else
      (* check if the voxel-space translations are all integers *)
      inv <- inverse (matrix (geometry self)) ;;
      let delta := affine_apply (compose inv (matrix target)) vzero in
      let delta_rounded := map3 round_half_even delta in
      if vclose delta (Z3_to_Vec3 delta_rounded) then
        resample_by_shift self target delta_rounded padding_mode
      else resample_by_grid self target mode padding_mode
  else resample_by_grid self target mode padding_mode.

(** [Volume.resample].  [new_spacing] is the argument after
    [torch.tensor(spacing)]: a 0D tensor for a scalar. *)
Definition resample (self : Volume) (new_spacing : Tensor)
  (mode padding_mode : string) : result Volume :=
  let new_spacing :=
    if (ndim new_spacing =? 0)%nat then
      mkTensor [3%nat] (dtype_of new_spacing)
        (data new_spacing ++ data new_spacing ++ data new_spacing)
    else new_spacing in
  if negb (ndim new_spacing =? 1)%nat || negb (hd 0 (shape new_spacing) =? 3)%nat then
    Raise (ValueError "expected 3D spacing")
  else
    let target_spacing := vec3_of_tensor new_spacing in
    (* new shape of the grid, rounded up to avoid losing any data *)
    let curshape := Z3_to_Vec3 (volume_baseshape self) in
    let newshape :=
      map3 (fun q : Qc => Qceiling q)
        (vdiv (vmul (spacing (geometry self)) curshape) target_spacing) in
    (* determine the new geometry *)
    let factor := vdiv target_spacing (spacing (geometry self)) in
    let delta :=
      zip3 (fun s r => (Q2Qc (1 # 2) * s * (Q2Qc 1 - r))%Qc) factor
        (vdiv (Z3_to_Vec3 newshape) curshape) in
    let matrix' := scale (shift (geometry self) delta voxel) factor voxel in
    let target := AcquisitionGeometry_new newshape (Some (matrix matrix')) None in
    resample_like self (LikeGeometry target) mode padding_mode.

(** The integer part of [Volume.reshape] and [Volume.pad]:
    [(cur - target) // 2], floor division as Python and [torch] define it. *)
Definition centering_shift (cur target : Z3) : Z3 :=
  map3 (fun d => d / 2) (zip3 Z.sub cur target).

(** [Volume.reshape]. *)
Definition reshape (self : Volume) (bs : Z3) : result Volume :=
  let delta := centering_shift (volume_baseshape self) bs in
  let target :=
    AcquisitionGeometry_new bs
      (Some (matrix (shift (geometry self) (Z3_to_Vec3 delta) voxel)))
      (explicit_slice_direction (geometry self)) in
  resample_like self (LikeGeometry target) "nearest" "zeros".

(** [Volume.pad]. *)
Definition pad (self : Volume) (delta : scalar_or_vector) : result Volume :=
  let curr_shape := volume_baseshape self in
  let new_shape :=
    zip3 Z.add curr_shape
      (map3 round_half_even (vdiv (as_vector delta) (spacing (geometry self)))) in
  let offset := centering_shift curr_shape new_shape in
  let target :=
    AcquisitionGeometry_new new_shape
      (Some (matrix (shift (geometry self) (Z3_to_Vec3 offset) voxel)))
      (explicit_slice_direction (geometry self)) in
  resample_like self (LikeGeometry target) "nearest" "zeros".

(** What a caller may pass as [transform]. *)
Inductive transform_arg : Type :=
| TransformMatrix (m : AffineMatrix)
| TransformVolume (t : AffineVolumeTransform).

(** [Volume.transform]. *)
Definition transform (self : Volume) (t : transform_arg)
  (resample_data negate : bool) (mode : string) : result Volume :=
  (* a simple matrix is assumed to be a world-space transform *)
  let t :=
    match t with
    | TransformVolume t => t
    | TransformMatrix m => mkTransform m world (geometry self) (geometry self)
    end in
  if negb resample_data then
    (* just apply the transform to the acquisition geometry *)
    if negate then
      Raise (ValueError "cannot negate transform when resampling is disabled")
    else
      t <- convert t world None ;;
      new self (tensor self)
        (GeomMatrix (compose (avt_matrix t) (matrix (geometry self))))
  else
    (* if we're resampling, convert to a voxel-to-voxel transform *)
    let target := avt_target t in
    c <- convert t voxel (Some (geometry self)) ;;
    inverted <- transform_inverse c ;;
    (* construct the transformed resampling grid *)
    grid <- volume_grid (baseshape target) (Some (avt_matrix inverted))
              (Some (volume_baseshape self)) ;;
    out <- grid_sample (unsqueeze0 (cast float32 (tensor self))) (unsqueeze0 grid)
             (interpolation_mode mode) "zeros" ;;
    let interpolated := squeeze0 out in
    target <-
      (if negate then
         (* apply inverse transform to the geometry to cancel out world
            space changes *)
         w <- convert inverted world None ;;
         Ok (GeomMatrix (compose (avt_matrix w) (matrix target)))
       else Ok (GeomAcquisition target)) ;;
    new self interpolated target.

(** More collaborators: the transcendental functions of [torch], which have
    no rational values; the random generators; and the separable Gaussian
    filter of [vx.filters], consumed as a filtering primitive. *)
Variable float_exp : Qc -> Qc.
Variable float_pow : Qc -> Qc -> Qc.
Variable rand_entries : nat -> list Qc.
Variable randn_entries : nat -> list Qc.
Variable gaussian_blur : Tensor -> Vec3 -> Qc -> result Tensor.

(** An operand of an operator: a volume, a tensor or a Python number. *)
Inductive operand : Type :=
| OtherVolume (v : Volume)
| OtherTensor (t : Tensor)
| OtherNumber (q : Qc).

(** [_cast_volume_as_tensor].  A Python number takes part in an operation
    as a 0D tensor. *)
Definition _cast_volume_as_tensor (other : operand) : Tensor :=
  match other with
  | OtherVolume v => tensor v
  | OtherTensor t => t
  | OtherNumber q => scalar_tensor float32 q
  end.

Inductive binary_operator : Type :=
| op_eq | op_ne | op_lt | op_le | op_gt | op_ge
| op_and | op_or | op_xor
| op_add | op_sub | op_mul | op_truediv | op_pow
| op_maximum | op_minimum.

Definition Qc_of_bool (b : bool) : Qc := if b then Q2Qc 1 else Q2Qc 0.

Definition apply_operator (op : binary_operator) (x y : Qc) : Qc :=
  match op with
  | op_eq => Qc_of_bool (Qceqb x y)
  | op_ne => Qc_of_bool (negb (Qceqb x y))
  | op_lt => Qc_of_bool (Qcltb x y)
  | op_le => Qc_of_bool (Qcleb x y)
  | op_gt => Qc_of_bool (Qcltb y x)
  | op_ge => Qc_of_bool (Qcleb y x)
  | op_and => Qc_of_Z (Z.land (trunc x) (trunc y))
  | op_or => Qc_of_Z (Z.lor (trunc x) (trunc y))
  | op_xor => Qc_of_Z (Z.lxor (trunc x) (trunc y))
  | op_add => (x + y)%Qc
  | op_sub => (x - y)%Qc
  | op_mul => (x * y)%Qc
  | op_truediv => (x / y)%Qc
  | op_pow => float_pow x y
  | op_maximum => Qcmax x y
  | op_minimum => Qcmin x y
  end.

Definition dtype_rank (dt : dtype) : nat :=
  match dt with
  | boolean => 0 | int32 => 1 | int64 => 2 | float16 => 3 | float32 => 4
  end%nat.

(** The element type of an operation's outcome: comparisons are boolean, a
    true division is floating, anything else takes the wider operand. *)
Definition operator_dtype (op : binary_operator) (a b : dtype) : dtype :=
  let wider := if (dtype_rank a <? dtype_rank b)%nat then b else a in
  match op with
  | op_eq | op_ne | op_lt | op_le | op_gt | op_ge => boolean
  | op_truediv => if (dtype_rank wider <? 3)%nat then float32 else wider
  | _ => wider
  end.

(** The body shared by the binary operator overloads:
    [self.new(self.tensor OP _cast_volume_as_tensor(other))], and with the
    operands swapped for the reflected ones. *)
Definition binary (op : binary_operator) (reflected : bool) (self : Volume)
  (other : operand) : result Volume :=
  let o := _cast_volume_as_tensor other in
  let dt := operator_dtype op (volume_dtype self) (dtype_of o) in
  t <- (if reflected then tensor_binop (apply_operator op) dt o (tensor self)
        else tensor_binop (apply_operator op) dt (tensor self) o) ;;
  new self t GeomNone.

(* comparison operators *)
Definition __eq__ := binary op_eq false.
Definition __ne__ := binary op_ne false.
Definition __lt__ := binary op_lt false.
Definition __le__ := binary op_le false.
Definition __gt__ := binary op_gt false.
Definition __ge__ := binary op_ge false.
(* binary operators *)
Definition __and__ := binary op_and false.
Definition __or__ := binary op_or false.
Definition __xor__ := binary op_xor false.
Definition __add__ := binary op_add false.
Definition __radd__ := binary op_add true.
Definition __sub__ := binary op_sub false.
Definition __rsub__ := binary op_sub true.
Definition __mul__ := binary op_mul false.
Definition __rmul__ := binary op_mul true.
Definition __truediv__ := binary op_truediv false.
Definition __rtruediv__ := binary op_truediv true.
Definition __pow__ := binary op_pow false.

(** [Volume.maximum] and [Volume.minimum]. *)
Definition maximum (self other : Volume) : result Volume :=
  binary op_maximum false self (OtherTensor (tensor other)).
Definition minimum (self other : Volume) : result Volume :=
  binary op_minimum false self (OtherTensor (tensor other)).

(** The body shared by the methods that map the entries:
    [self.new(self.tensor.f())]. *)
Definition unary (f : Qc -> Qc) (dt : dtype) (self : Volume) : result Volume :=
  new self (tensor_map f dt (tensor self)) GeomNone.

(* unary operators *)
Definition __pos__ (self : Volume) := unary (fun x => x) (volume_dtype self) self.
Definition __neg__ (self : Volume) := unary Qcopp (volume_dtype self) self.

Definition detach (self : Volume) := new self (tensor self) GeomNone.

(** [Volume.to], [cuda] and [cpu]: the entries move to another device and
    stay what they are. *)
Inductive device : Type := cpu_device | cuda_device.

Definition to (self : Volume) (d : option device) : result Volume :=
  match d with
  | None => Ok self
  | Some _ => new self (tensor self) GeomNone
  end.
Definition cuda (self : Volume) := new self (tensor self) GeomNone.
Definition cpu (self : Volume) := new self (tensor self) GeomNone.
Definition volume_floor (self : Volume) :=
  unary (fun x : Qc => Qc_of_Z (Qfloor x)) (volume_dtype self) self.
Definition volume_ceil (self : Volume) :=
  unary (fun x : Qc => Qc_of_Z (Qceiling x)) (volume_dtype self) self.
Definition volume_abs (self : Volume) := unary Qcabs (volume_dtype self) self.
Definition volume_exp (self : Volume) := unary float_exp float32 self.
(** No rational is a NaN. *)
Definition isnan (self : Volume) := unary (fun _ => Q2Qc 0) boolean self.

(** [Volume.astype], and [float], [half], [int], [bool]. *)
Definition astype (self : Volume) (dt : dtype) : result Volume :=
  if dtype_eqb (volume_dtype self) dt then Ok self
  else new self (cast dt (tensor self)) GeomNone.
Definition volume_float (self : Volume) := new self (cast float32 (tensor self)) GeomNone.
Definition volume_half (self : Volume) := new self (cast float16 (tensor self)) GeomNone.
Definition volume_int (self : Volume) := new self (cast int32 (tensor self)) GeomNone.
Definition volume_bool (self : Volume) := new self (cast boolean (tensor self)) GeomNone.

Definition clamp_value (lo hi : option Qc) (x : Qc) : Qc :=
  let x := match lo with Some l => Qcmax l x | None => x end in
  match hi with Some h => Qcmin h x | None => x end.

(** [Volume.clamp] with [inplace=False]. *)
Definition clamp (self : Volume) (lo hi : option Qc) : result Volume :=
  unary (clamp_value lo hi) (volume_dtype self) self.

(** [Volume.isin]. *)
Definition isin (self : Volume) (elements : list Qc) : result Volume :=
  unary (fun x => Qc_of_bool (existsb (Qceqb x) elements)) boolean self.

(** The outcome of a reduction: a volume when the channel axis is reduced,
    a bare tensor otherwise. *)
Inductive volume_or_tensor : Type :=
| AVolume (v : Volume)
| ATensor (t : Tensor).

Definition reduction (reduce : option Z -> Tensor -> result Tensor)
  (self : Volume) (dim : option Z) : result volume_or_tensor :=
  reduced <- reduce dim (tensor self) ;;
  match dim with
  | Some 0 => v <- new self reduced GeomNone ;; Ok (AVolume v)
  | _ => Ok (ATensor reduced)
  end.

Definition volume_max := reduction amax.
Definition volume_min := reduction amin.
Definition volume_sum := reduction tensor_sum.

(** The shape of a like-constructor:
    [self.shape if channels is None else (channels, *self.baseshape)]. *)
Definition like_shape (self : Volume) (channels : option nat) : list nat :=
  match channels with
  | None => volume_shape self
  | Some c => c :: tl (volume_shape self)
  end.

Definition like_dtype (self : Volume) (dt : option dtype) : dtype :=
  match dt with Some d => d | None => volume_dtype self end.

Definition full_like (self : Volume) (fill : Qc) (channels : option nat)
  (dt : option dtype) : result Volume :=
  new self (full (like_shape self channels) fill (like_dtype self dt)) GeomNone.
Definition zeros_like (self : Volume) := full_like self (Q2Qc 0).
Definition ones_like (self : Volume) := full_like self (Q2Qc 1).

Definition rand_like (self : Volume) (channels : option nat) (dt : option dtype)
  : result Volume :=
  let s := like_shape self channels in
  new self (mkTensor s (like_dtype self dt) (rand_entries (numel s))) GeomNone.
Definition randn_like (self : Volume) (channels : option nat) (dt : option dtype)
  : result Volume :=
  let s := like_shape self channels in
  new self (mkTensor s (like_dtype self dt) (randn_entries (numel s))) GeomNone.

(** The assignment operators work in place: the tensor keeps its shape and
    the geometry is not assigned again. *)
Definition inplace (op : binary_operator) (self : Volume) (other : operand)
  : result Volume :=
  t <- tensor_binop_inplace (apply_operator op) (tensor self)
         (_cast_volume_as_tensor other) ;;
  Ok (mkVolume t (geometry self)).

Definition __iadd__ := inplace op_add.
Definition __isub__ := inplace op_sub.
Definition __imul__ := inplace op_mul.
Definition __itruediv__ := inplace op_truediv.

(** [Volume.smooth]. *)
Definition smooth (self : Volume) (sigma : scalar_or_vector) (truncate : Qc)
  : result Volume :=
  let scaled := vdiv (as_vector sigma) (spacing (geometry self)) in
  blurred <- gaussian_blur (tensor self) scaled truncate ;;
  new self blurred GeomNone.

(** [stack], the module-level function. *)
Definition stack (vols : list Volume) : result Volume :=
  match vols with
  | [] => Raise (IndexError "tuple index out of range")
  | [v] => Ok v
  | v :: _ => t <- cat0 (map tensor vols) ;; new v t GeomNone
  end.

(** [Volume.__getitem__] on anything but a boolean mask is [crop]. *)
Definition __getitem__ (self : Volume) (indexing : cropping_arg) : result Volume :=
  crop self indexing None.

(** The tuple a slicing argument stands for (a bare item is a tuple of one). *)
Definition cropping_items (c : cropping_arg) : option (list index_item) :=
  match c with
  | CropTuple items => Some items
  | CropItem item => Some [item]
  | _ => None
  end.

(** The public operations that yield a volume, with their arguments. *)
Inductive operation : Type :=
| Crop (cropping : cropping_arg) (margin : option scalar_or_vector)
| CropToNonzero (margin : option scalar_or_vector)
| GetItem (indexing : cropping_arg)
| ResampleLike (target : like_target) (mode padding_mode : string)
| Resample (new_spacing : Tensor) (mode padding_mode : string)
| Reshape (bs : Z3)
| Pad (delta : scalar_or_vector)
| Transform (t : transform_arg) (resample_data negate : bool) (mode : string)
| Smooth (sigma : scalar_or_vector) (truncate : Qc)
| Binary (op : binary_operator) (reflected : bool) (other : operand)
| InPlace (op : binary_operator) (other : operand)
| Maximum (other : Volume)
| Minimum (other : Volume)
| Pos | Neg | Detach | To (d : option device) | Cuda | Cpu
| Floor | Ceil | Abs | Exp | IsNan
| AsType (dt : dtype) | Float | Half | Int | Bool
| Clamp (lo hi : option Qc)
| IsIn (elements : list Qc)
| Max (dim : option Z) | Min (dim : option Z) | Sum (dim : option Z)
| FullLike (fill : Qc) (channels : option nat) (dt : option dtype)
| ZerosLike (channels : option nat) (dt : option dtype)
| OnesLike (channels : option nat) (dt : option dtype)
| RandLike (channels : option nat) (dt : option dtype)
| RandnLike (channels : option nat) (dt : option dtype)
| Stack (others : list Volume).

Definition as_volume (r : result Volume) : result volume_or_tensor :=
  v <- r ;; Ok (AVolume v).

(** Calls the method an [operation] names on [self]. *)
Definition run (op : operation) (self : Volume) : result volume_or_tensor :=
  match op with
  | Crop c m => as_volume (crop self c m)
  | CropToNonzero m => as_volume (crop_to_nonzero self m)
  | GetItem c => as_volume (__getitem__ self c)
  | ResampleLike t mode pm => as_volume (resample_like self t mode pm)
  | Resample s mode pm => as_volume (resample self s mode pm)
  | Reshape bs => as_volume (reshape self bs)
  | Pad delta => as_volume (pad self delta)
  | Transform t r n mode => as_volume (transform self t r n mode)
  | Smooth sigma truncate => as_volume (smooth self sigma truncate)
  | Binary op reflected other => as_volume (binary op reflected self other)
  | InPlace op other => as_volume (inplace op self other)
  | Maximum other => as_volume (maximum self other)
  | Minimum other => as_volume (minimum self other)
  | Pos => as_volume (__pos__ self)
  | Neg => as_volume (__neg__ self)
  | Detach => as_volume (detach self)
  | To d => as_volume (to self d)
  | Cuda => as_volume (cuda self)
  | Cpu => as_volume (cpu self)
  | Floor => as_volume (volume_floor self)
  | Ceil => as_volume (volume_ceil self)
  | Abs => as_volume (volume_abs self)
  | Exp => as_volume (volume_exp self)
  | IsNan => as_volume (isnan self)
  | AsType dt => as_volume (astype self dt)
  | Float => as_volume (volume_float self)
  | Half => as_volume (volume_half self)
  | Int => as_volume (volume_int self)
  | Bool => as_volume (volume_bool self)
  | Clamp lo hi => as_volume (clamp self lo hi)
  | IsIn elements => as_volume (isin self elements)
  | Max dim => volume_max self dim
  | Min dim => volume_min self dim
  | Sum dim => volume_sum self dim
  | FullLike fill c dt => as_volume (full_like self fill c dt)
  | ZerosLike c dt => as_volume (zeros_like self c dt)
  | OnesLike c dt => as_volume (ones_like self c dt)
  | RandLike c dt => as_volume (rand_like self c dt)
  | RandnLike c dt => as_volume (randn_like self c dt)
  | Stack others => as_volume (stack (self :: others))
  end.

(** *** The explicit crop and pad that the fast path is compared with

    Written from the description of the fast path in the specification: on
    each spatial axis, with [lower] the shift in voxels and
    [upper = lower + target_shape - source_shape], keep the voxels of the
    interval from [clamp(lower, min=0)] to [clamp(upper, max=0) +
    source_shape], then add [|clamp(lower, max=0)|] voxels before and
    [clamp(upper, min=0)] voxels after; crop first, pad second. *)

(** The positions [i] of an axis of length [n] with [lo <= i < hi]. *)
Definition interval_positions (lo hi : Z) (n : nat) : list nat :=
  filter (fun i => (lo <=? Z.of_nat i) && (Z.of_nat i <? hi)) (seq 0 n).

Definition crop_axis (axis : nat) (lo hi : Z) (t : Tensor) : Tensor :=
  gather_axis axis (map Some (interval_positions lo hi (nth axis (shape t) 0%nat)))
    (Q2Qc 0) t.

Definition pad_axis (axis : nat) (mode : string) (before after : Z) (t : Tensor)
  : result Tensor :=
  idxs <- pad_indices mode (nth axis (shape t) 0%nat) (Z.to_nat before) (Z.to_nat after) ;;
  Ok (gather_axis axis idxs (Q2Qc 0) t).

Definition explicit_crop_pad (t : Tensor) (lower target_shape source_shape : Z3)
  (padding_mode : string) : result Tensor :=
  let upper := zip3 Z.sub (zip3 Z.add lower target_shape) source_shape in
  let '(lo0, lo1, lo2) := map3 (clamp_min 0) lower in
  let '(hi0, hi1, hi2) := zip3 Z.add (map3 (clamp_max 0) upper) source_shape in
  let cropped := crop_axis 3 lo2 hi2 (crop_axis 2 lo1 hi1 (crop_axis 1 lo0 hi0 t)) in
  let '(before0, before1, before2) := map3 Z.abs (map3 (clamp_max 0) lower) in
  let '(after0, after1, after2) := map3 (clamp_min 0) upper in
  if all3 (fun p => p =? 0) (before0, before1, before2)
     && all3 (fun p => p =? 0) (after0, after1, after2)
  then Ok cropped
  else
    match padding_equivalent padding_mode with
    | None => Raise (ValueError "no padding mode equivolent")
    | Some mode =>
        p <- pad_axis 3 mode before2 after2 cropped ;;
        p <- pad_axis 2 mode before1 after1 p ;;
        pad_axis 1 mode before0 after0 p
    end.

(** A shift that the crop and pad can realise: on every axis the target
    grid has a length, and the shifted grid still touches the source grid. *)
Definition shift_within (lower target_shape source_shape : Z3) : Prop :=
  let '(l0, l1, l2) := lower in
  let '(t0, t1, t2) := target_shape in
  let '(s0, s1, s2) := source_shape in
  (0 <= t0 /\ - t0 <= l0 <= s0) /\ (0 <= t1 /\ - t1 <= l1 <= s1)
  /\ (0 <= t2 /\ - t2 <= l2 <= s2).

(** Every length of a shape is at least zero. *)
Definition nonnegative (s : Z3) : Prop :=
  let '(a, b, c) := s in 0 <= a /\ 0 <= b /\ 0 <= c.

(** Every difference between two shapes is even. *)
Definition even_difference (s s' : Z3) : Prop :=
  let '(a, b, c) := s in
  let '(a', b', c') := s' in
  Z.even (a - a') = true /\ Z.even (b - b') = true /\ Z.even (c - c') = true.

(** The shape [pad] asks for: [curr_shape + round(delta / spacing)]. *)
Definition padded_shape (self : Volume) (delta : scalar_or_vector) : Z3 :=
  zip3 Z.add (volume_baseshape self)
    (map3 round_half_even (vdiv (as_vector delta) (spacing (geometry self)))).


(** A matrix that can be inverted: its rotation/scale block has a
    determinant. *)
Definition invertible (a : AffineMatrix) : Prop := det (lin a) <> Q2Qc 0.

(** *** Vocabulary of the further properties *)

(** The operations that work on the entries and leave the grid alone. *)
Definition entrywise (op : operation) : bool :=
  match op with
  | Crop _ _ | CropToNonzero _ | GetItem _ | ResampleLike _ _ _ | Resample _ _ _
  | Reshape _ | Pad _ | Transform _ _ _ _ => false
  | _ => true
  end.



(** How many entries of a list pass a test. *)
Definition count (p : Qc -> bool) (l : list Qc) : nat := length (filter p l).

(** Every entry stands in relation [R] to every later one. *)
Fixpoint ordered (R : Qc -> Qc -> Prop) (l : list Qc) : Prop :=
  match l with
  | [] => True
  | x :: rest => (forall y, In y rest -> R x y) /\ ordered R rest
  end.

(** A quantile [q = j / 2^m] fine enough for [n] voxels: the products
    [n * q] and [n * (1 - q)] are then multiples of [2^-m] below [2^24],
    which floats hold exactly, so that the source truncates the very number
    the rational model truncates. *)
Definition dyadic_for (n : nat) (q : Qc) : Prop :=
  exists (j : Z) (m : nat),
    q = (Qc_of_Z j / Qc_of_Z (2 ^ Z.of_nat m))%Qc
    /\ Z.of_nat n * 2 ^ Z.of_nat m <= 2 ^ 24.

(** The rank [quantile] asks [topk] for, from the far end when [q] is above
    one half. *)
Definition quantile_rank (n : nat) (q : Qc) : Z :=
  if Qcltb (Q2Qc (1 # 2)) q then trunc (Qc_of_nat n * (Q2Qc 1 - q))%Qc + 1
  else trunc (Qc_of_nat n * q)%Qc + 1.

(** *** Centres of mass, as the docstring of [centroids] reads

    "Compute the centroids (centers of mass) for each volume channel": the
    mean position of a channel along an axis, weighted by its intensities
    clamped below at zero and averaged over the two other axes, with the
    1e-6 that the source adds to the total weight. *)

(** Voxel (c, x, y, z) of a (C, W, H, D) tensor, clamped below at zero. *)
Definition clamped_voxel (t : Tensor) (c x y z : nat) : Qc :=
  let w := nth 1 (shape t) 0%nat in
  let h := nth 2 (shape t) 0%nat in
  let d := nth 3 (shape t) 0%nat in
  Qcmax (Q2Qc 0) (nth (((c * w + x) * h + y) * d + z) (data t) (Q2Qc 0)).

Definition mean_over (n : nat) (f : nat -> Qc) : Qc :=
  (Qcsum (map f (seq 0 n)) / Qc_of_nat n)%Qc.

(** The weighted mean index of [n] weights. *)
Definition centre_of (n : nat) (a : nat -> Qc) : Qc :=
  (Qcsum (map (fun i => a i * Qc_of_nat i) (seq 0 n))
   / (Qcsum (map a (seq 0 n)) + Q2Qc (1 # 1000000)))%Qc.

Definition centre_of_mass (t : Tensor) (c : nat) : Vec3 :=
  let w := nth 1 (shape t) 0%nat in
  let h := nth 2 (shape t) 0%nat in
  let d := nth 3 (shape t) 0%nat in
  (centre_of w (fun x => mean_over h (fun y => mean_over d (fun z => clamped_voxel t c x y z))),
   centre_of h (fun y => mean_over w (fun x => mean_over d (fun z => clamped_voxel t c x y z))),
   centre_of d (fun z => mean_over w (fun x => mean_over h (fun y => clamped_voxel t c x y z)))).

(* ------------------------------------------------------------------------- *)
(** ** [filters.py]

    The two functions of the module, over the exponential of [torch] and
    its convolutions.  The device and the element type of the kernel are
    tags that do not change its entries and are left out. *)

(** [torch.nn.functional.conv{n}d(input, kernel_dim, groups=groups,
    padding='same')] for [n] from 1 to 3, the 1D kernel laid along the
    spatial axis [dim]. *)
Variable conv : nat -> Tensor -> Tensor -> nat -> nat -> result Tensor.







(* ------------------------------------------------------------------------- *)
(** *** The margin of [bounds] on float32 tensors

    The corners of [bounds] are float32 tensors, and the two in-place
    updates by the margin round one after the other, which exact rationals
    cannot show.  Here are the corners in the IEEE 754 arithmetic of
    [SpecFloat]: binary32 is the format of 24 bits of precision whose
    infinities have exponent 128. *)








(* ------------------------------------------------------------------------- *)
(** ** Properties *)

Lemma Z3_eqb_eq (u v : Z3) : Z3_eqb u v = true <-> u = v.
Proof.
  destruct u as [[a b] c], v as [[a' b'] c']. unfold Z3_eqb; simpl.
  rewrite !andb_true_iff, !Z.eqb_eq. split.
  - intros [[-> ->] ->]. reflexivity.
  - intros H. inversion H. auto.
Qed.

Lemma Z3_eqb_refl (u : Z3) : Z3_eqb u u = true.
Proof. apply Z3_eqb_eq. reflexivity. Qed.

(** The constructor establishes the invariant. *)
Lemma Volume_init_ok (t : Tensor) (g : geometry_arg) (v : Volume) :
  Volume_init t g = Ok v -> Volume_ok v.
Proof.
  unfold Volume_init, Volume_ok.
  destruct (ndim t =? 3)%nat eqn:E3; simpl.
  - apply Nat.eqb_eq in E3.
    destruct g as [| m | a]; simpl.
    + intros H; inversion H; subst; simpl. unfold ndim in *; simpl. split; congruence.
    + intros H; inversion H; subst; simpl. unfold ndim in *; simpl. split; congruence.
    + destruct (Z3_eqb (baseshape a) (tensor_baseshape (unsqueeze0 t))) eqn:Eb; simpl.
      * intros H; inversion H; subst; simpl. apply Z3_eqb_eq in Eb.
        unfold ndim in *; simpl. split; congruence.
      * discriminate.
  - destruct (ndim t =? 4)%nat eqn:E4; simpl; [| discriminate].
    apply Nat.eqb_eq in E4.
    destruct g as [| m | a]; simpl.
    + intros H; inversion H; subst; simpl. split; congruence.
    + intros H; inversion H; subst; simpl. split; congruence.
    + destruct (Z3_eqb (baseshape a) (tensor_baseshape t)) eqn:Eb; simpl.
      * intros H; inversion H; subst; simpl. apply Z3_eqb_eq in Eb. split; congruence.
      * discriminate.
Qed.

Lemma new_ok (self : Volume) (t : Tensor) (g : geometry_arg) (v : Volume) :
  new self t g = Ok v -> Volume_ok v.
Proof. unfold new. apply Volume_init_ok. Qed.

(** On a 4D tensor and a geometry anchored to its spatial shape, [new]
    returns the two, paired. *)
Lemma new_acquisition (self : Volume) (t : Tensor) (a : AcquisitionGeometry) :
  ndim t = 4%nat -> baseshape a = tensor_baseshape t ->
  new self t (GeomAcquisition a) = Ok (mkVolume t a).
Proof.
  intros Hn Hb. unfold new, Volume_init. rewrite Hn. simpl.
  rewrite Hb, Z3_eqb_refl. reflexivity.
Qed.

(** C3.  When the rotation/scale block of the target matches the source
    within 1e-4, the anchored shapes are equal and the translations match
    within 1e-4, [resample_like] is a no-op: it returns the tensor of the
    source, untouched, paired with the target geometry. *)
Theorem resample_like_matching_geometry_is_noop
  (self : Volume) (target : like_target) (mode padding_mode : string) :
  let t := match target with LikeVolume v => geometry v | LikeGeometry g => g end in
  Volume_ok self ->
  linear_close (matrix (geometry self)) (matrix t) = true ->
  baseshape t = volume_baseshape self ->
  translation_close (matrix (geometry self)) (matrix t) = true ->
  resample_like self target mode padding_mode = Ok (mkVolume (tensor self) t).
Proof.
  intros t [Hn _] Hl Hb Ht. unfold resample_like. fold t.
  rewrite Hl, Hb, Z3_eqb_refl, Ht. simpl.
  apply new_acquisition; assumption.
Qed.


Lemma Qcleb_true (x y : Qc) : Qcleb x y = true <-> (x <= y)%Qc.
Proof. unfold Qcleb, Qcle. apply Qle_bool_iff. Qed.

Lemma Qcleb_false (x y : Qc) : Qcleb x y = false -> (y <= x)%Qc.
Proof.
  intros H. apply Qclt_le_weak. apply Qcnot_le_lt. intros Hle.
  apply Qcleb_true in Hle. congruence.
Qed.

Lemma Qcltb_true (x y : Qc) : Qcltb x y = true <-> (x < y)%Qc.
Proof.
  unfold Qcltb. rewrite negb_true_iff. split.
  - intros H. apply Qcnot_le_lt. intros Hle. apply Qcleb_true in Hle.
    unfold Qcleb in Hle. congruence.
  - intros H. destruct (Qle_bool y x) eqn:E; [| reflexivity].
    apply Qle_bool_iff in E. exfalso. exact (Qclt_not_le _ _ H E).
Qed.

(** [fold_left Qcmin] returns an entry that is below every entry. *)
Lemma fold_min_spec (rest : list Qc) (x : Qc) :
  In (fold_left Qcmin rest x) (x :: rest)
  /\ forall y, In y (x :: rest) -> (fold_left Qcmin rest x <= y)%Qc.
Proof.
  revert x. induction rest as [| z rest IH]; intros x; simpl.
  - split; [auto |]. intros y [<- | []]. apply Qcle_refl.
  - destruct (IH (Qcmin x z)) as [Hin Hle]. split.
    + destruct Hin as [Hin | Hin]; [| auto].
      rewrite <- Hin. unfold Qcmin. destruct (Qcleb x z); auto.
    + intros y Hy.
      assert (Hxz : (Qcmin x z <= x)%Qc /\ (Qcmin x z <= z)%Qc).
      { unfold Qcmin. destruct (Qcleb x z) eqn:E.
        - split; [apply Qcle_refl | apply Qcleb_true; exact E].
        - split; [apply Qcleb_false; exact E | apply Qcle_refl]. }
      destruct Hy as [<- | [<- | Hy]].
      * eapply Qcle_trans; [apply Hle; left; reflexivity | apply Hxz].
      * eapply Qcle_trans; [apply Hle; left; reflexivity | apply Hxz].
      * apply Hle. right. exact Hy.
Qed.

Lemma fold_max_spec (rest : list Qc) (x : Qc) :
  In (fold_left Qcmax rest x) (x :: rest)
  /\ forall y, In y (x :: rest) -> (y <= fold_left Qcmax rest x)%Qc.
Proof.
  revert x. induction rest as [| z rest IH]; intros x; simpl.
  - split; [auto |]. intros y [<- | []]. apply Qcle_refl.
  - destruct (IH (Qcmax x z)) as [Hin Hle]. split.
    + destruct Hin as [Hin | Hin]; [| auto].
      rewrite <- Hin. unfold Qcmax. destruct (Qcleb x z); auto.
    + intros y Hy.
      assert (Hxz : (x <= Qcmax x z)%Qc /\ (z <= Qcmax x z)%Qc).
      { unfold Qcmax. destruct (Qcleb x z) eqn:E.
        - split; [apply Qcleb_true; exact E | apply Qcle_refl].
        - split; [apply Qcle_refl | apply Qcleb_false; exact E]. }
      destruct Hy as [<- | [<- | Hy]].
      * eapply Qcle_trans; [apply Hxz | apply Hle; left; reflexivity].
      * eapply Qcle_trans; [apply Hxz | apply Hle; left; reflexivity].
      * apply Hle. right. exact Hy.
Qed.

(** C7.  [quantile(0)] is [tensor.min()] and [quantile(1)] is
    [tensor.max()], exactly: on a volume with an entry they return an entry
    of the data that bounds every entry from below (from above); and a
    quantile below 0 or above 1 raises the [ValueError] of the range check. *)
Theorem quantile_boundaries (self : Volume) :
  quantile self (Q2Qc 0) = tensor_min (tensor self)
  /\ quantile self (Q2Qc 1) = tensor_max (tensor self)
  /\ (data (tensor self) <> [] ->
      exists lo hi,
        quantile self (Q2Qc 0) = Ok (scalar_tensor (volume_dtype self) lo)
        /\ quantile self (Q2Qc 1) = Ok (scalar_tensor (volume_dtype self) hi)
        /\ In lo (data (tensor self)) /\ In hi (data (tensor self))
        /\ forall y, In y (data (tensor self)) -> (lo <= y)%Qc /\ (y <= hi)%Qc)
  /\ (forall q : Qc, (q < Q2Qc 0)%Qc \/ (Q2Qc 1 < q)%Qc ->
      quantile self q = Raise (ValueError "quantile must be between 0 and 1")).
Proof.
  assert (H0 : quantile self (Q2Qc 0) = tensor_min (tensor self)) by reflexivity.
  assert (H1 : quantile self (Q2Qc 1) = tensor_max (tensor self)) by reflexivity.
  split; [exact H0 |]. split; [exact H1 |]. split.
  - intros Hne. rewrite H0, H1. unfold tensor_min, tensor_max, volume_dtype.
    destruct (data (tensor self)) as [| x rest] eqn:E; [congruence |].
    destruct (fold_min_spec rest x) as [Hin Hle].
    destruct (fold_max_spec rest x) as [Hin' Hle'].
    exists (fold_left Qcmin rest x), (fold_left Qcmax rest x).
    repeat split; auto.
  - intros q Hq. unfold quantile.
    replace (Qcltb q (Q2Qc 0) || Qcltb (Q2Qc 1) q) with true; [reflexivity |].
    symmetry. apply orb_true_iff.
    destruct Hq as [Hq | Hq]; [left | right]; apply Qcltb_true; exact Hq.
Qed.



Lemma bind_ok {A B : Type} (c : result A) (k : A -> result B) (b : B) :
  bind c k = Ok b -> exists a, c = Ok a /\ k a = Ok b.
Proof. destruct c as [a | e]; simpl; [eauto | discriminate]. Qed.

Ltac bind_inv H :=
  let x := fresh "x" in
  let Hx := fresh "Hx" in
  apply bind_ok in H; destruct H as (x & Hx & H).

(** C6.  A slicing whose expansion holds an integer at a spatial position
    would drop that axis: [crop] raises the [ValueError] of the check and
    yields no volume. *)
Theorem crop_rejects_integer_at_spatial_axis
  (self : Volume) (cropping : cropping_arg) (margin : option scalar_or_vector)
  (items slicing : list index_item) :
  cropping_items cropping = Some items ->
  expand_slicing items 4%nat = Ok slicing ->
  existsb is_int (tl slicing) = true ->
  crop self cropping margin
  = Raise (ValueError "cannot remove a spatial dimension when cropping a volume").
Proof.
  intros Hc He Hi. unfold crop.
  destruct cropping as [m | its | it |]; simpl in Hc; try discriminate;
    inversion Hc; subst; rewrite He; simpl; rewrite Hi; reflexivity.
Qed.

Lemma crop_ok (self : Volume) (c : cropping_arg) (m : option scalar_or_vector)
  (v : Volume) : crop self c m = Ok v -> Volume_ok v.
Proof.
  unfold crop. intros H. bind_inv H. destruct x as [[sl minc] stride].
  bind_inv H. eapply new_ok; eassumption.
Qed.

Lemma resample_by_grid_ok (self : Volume) (g : AcquisitionGeometry)
  (mode pm : string) (v : Volume) :
  resample_by_grid self g mode pm = Ok v -> Volume_ok v.
Proof.
  unfold resample_by_grid. intros H. do 3 bind_inv H. eapply new_ok; eassumption.
Qed.

Lemma resample_by_shift_ok (self : Volume) (g : AcquisitionGeometry)
  (d : Z3) (pm : string) (v : Volume) :
  resample_by_shift self g d pm = Ok v -> Volume_ok v.
Proof.
  unfold resample_by_shift. intros H. do 2 bind_inv H. eapply new_ok; eassumption.
Qed.

Lemma resample_like_ok (self : Volume) (t : like_target) (mode pm : string)
  (v : Volume) : resample_like self t mode pm = Ok v -> Volume_ok v.
Proof.
  unfold resample_like. intros H.
  destruct (linear_close _ _); [| eapply resample_by_grid_ok; eassumption].
  destruct (_ && _); [eapply new_ok; eassumption |].
  bind_inv H.
  destruct (vclose _ _);
    [eapply resample_by_shift_ok | eapply resample_by_grid_ok]; eassumption.
Qed.

Lemma transform_ok (self : Volume) (t : transform_arg) (r n : bool)
  (mode : string) (v : Volume) :
  transform self t r n mode = Ok v -> Volume_ok v.
Proof.
  unfold transform. intros H. destruct r; simpl in H.
  - do 5 bind_inv H. eapply new_ok; eassumption.
  - destruct n; [discriminate |]. bind_inv H. eapply new_ok; eassumption.
Qed.

Lemma inplace_ok (op : binary_operator) (self : Volume) (other : operand)
  (v : Volume) : Volume_ok self -> inplace op self other = Ok v -> Volume_ok v.
Proof.
  unfold inplace. intros [Hn Hb] H. bind_inv H. inversion H; subst.
  unfold tensor_binop_inplace in Hx. bind_inv Hx.
  destruct (list_eq_dec _ _ _); [| discriminate].
  inversion Hx; subst. split; assumption.
Qed.

Lemma reduction_ok (reduce : option Z -> Tensor -> result Tensor)
  (self : Volume) (dim : option Z) (v : Volume) :
  reduction reduce self dim = Ok (AVolume v) -> Volume_ok v.
Proof.
  unfold reduction. intros H. bind_inv H.
  destruct dim as [[| p | p] |]; try discriminate.
  bind_inv H. inversion H; subst. eapply new_ok; eassumption.
Qed.

Lemma as_volume_ok (r : result Volume) (v : Volume) :
  as_volume r = Ok (AVolume v) -> r = Ok v.
Proof. unfold as_volume. intros H. bind_inv H. inversion H; congruence. Qed.

(** C5.  The geometry of a volume is anchored to the spatial shape of its
    tensor: the constructor and the setter establish it and refuse a
    geometry anchored to another shape, and every public operation that
    yields a volume hands back one that satisfies it. *)
Theorem geometry_matches_tensor_shape :
  (forall t g v, Volume_init t g = Ok v -> Volume_ok v)
  /\ (forall t a, baseshape a <> tensor_baseshape t ->
        geometry_setter t (GeomAcquisition a)
        = Raise (ValueError "acquisition geometry shape must match the image base shape"))
  /\ (forall t a, ndim t = 4%nat -> baseshape a <> tensor_baseshape t ->
        Volume_init t (GeomAcquisition a)
        = Raise (ValueError "acquisition geometry shape must match the image base shape"))
  /\ (forall op self v, Volume_ok self -> run op self = Ok (AVolume v) -> Volume_ok v).
Proof.
  assert (Hset : forall t a, baseshape a <> tensor_baseshape t ->
            geometry_setter t (GeomAcquisition a)
            = Raise (ValueError "acquisition geometry shape must match the image base shape")).
  { intros t a Hne. unfold geometry_setter.
    destruct (Z3_eqb (baseshape a) (tensor_baseshape t)) eqn:E; [| reflexivity].
    apply Z3_eqb_eq in E. contradiction. }
  split; [exact Volume_init_ok |]. split; [exact Hset |]. split.
  - intros t a Hn Hne. unfold Volume_init. rewrite Hn. cbn [Nat.eqb negb bind].
    rewrite (Hset t a Hne). reflexivity.
  - intros op self v Hself H.
    destruct op; simpl in H;
      try (apply as_volume_ok in H);
      try (eapply reduction_ok; eassumption);
      try (eapply new_ok; eassumption);
      try (eapply crop_ok; eassumption);
      try (eapply resample_like_ok; eassumption);
      try (eapply transform_ok; eassumption);
      try (eapply inplace_ok; eassumption).
    + (* crop_to_nonzero *)
      unfold crop_to_nonzero in H. do 3 bind_inv H. eapply crop_ok; eassumption.
    + (* resample *)
      unfold resample in H.
      destruct (_ || _); [discriminate |]. eapply resample_like_ok; eassumption.
    + (* smooth *)
      unfold smooth in H. bind_inv H. eapply new_ok; eassumption.
    + (* binary *)
      unfold binary in H. bind_inv H. eapply new_ok; eassumption.
    + unfold maximum, binary in H. bind_inv H. eapply new_ok; eassumption.
    + unfold minimum, binary in H. bind_inv H. eapply new_ok; eassumption.
    + (* to *)
      unfold to in H. destruct d.
      * eapply new_ok; eassumption.
      * inversion H; subst. assumption.
    + (* astype *)
      unfold astype in H. destruct (dtype_eqb _ _).
      * inversion H; subst. assumption.
      * eapply new_ok; eassumption.
    + (* stack *)
      unfold stack in H. destruct others as [| o rest].
      * inversion H; subst. assumption.
      * bind_inv H. eapply new_ok; eassumption.
Qed.

(** *** Rounding and tolerance on whole numbers *)

Lemma Qc_of_Z_this (z : Z) : this (Qc_of_Z z) = inject_Z z.
Proof.
  unfold Qc_of_Z, Q2Qc. cbn [this]. unfold inject_Z.
  apply Qred_identity. apply Z.gcd_1_r.
Qed.

Lemma round_half_even_Z (z : Z) : round_half_even (Qc_of_Z z) = z.
Proof.
  unfold round_half_even. rewrite Qc_of_Z_this, Qfloor_Z.
  replace (Qcompare (inject_Z z - inject_Z z) (1 # 2)) with Lt; [reflexivity |].
  symmetry. apply Qlt_alt.
  assert (H : (inject_Z z - inject_Z z == 0)%Q) by ring.
  rewrite H. reflexivity.
Qed.



Lemma close_refl (x : Qc) : close x x = true.
Proof.
  unfold close. replace (x - x)%Qc with (Q2Qc 0) by ring. reflexivity.
Qed.

Lemma vclose_refl (v : Vec3) : vclose v v = true.
Proof.
  destruct v as [[a b] c]. unfold vclose; simpl. rewrite !close_refl. reflexivity.
Qed.

Lemma mat_close_refl (m : Mat3) : mat_close m m = true.
Proof.
  destruct m as [[r0 r1] r2]. unfold mat_close; simpl.
  rewrite !vclose_refl. reflexivity.
Qed.

Lemma round_whole_vector (d : Z3) : map3 round_half_even (Z3_to_Vec3 d) = d.
Proof.
  destruct d as [[a b] c]. unfold Z3_to_Vec3; simpl.
  rewrite !round_half_even_Z. reflexivity.
Qed.

Lemma Qceqb_false (x y : Qc) : x <> y -> Qceqb x y = false.
Proof.
  intros H. unfold Qceqb. destruct (Qeq_bool x y) eqn:E; [| reflexivity].
  apply Qeq_bool_iff in E. apply Qc_is_canon in E. contradiction.
Qed.

(** Read in the voxel coordinates of the source, the origin of a grid
    shifted by [v] voxels is [v]. *)
Lemma shifted_origin (a : AffineMatrix) (v : Vec3) :
  invertible a ->
  exists inv, inverse a = Ok inv
              /\ affine_apply (compose inv (affine_shift a v voxel)) vzero = v.
Proof.
  intros Hd. unfold invertible in Hd. unfold inverse.
  rewrite (Qceqb_false _ _ Hd). eexists. split; [reflexivity |].
  destruct a as [[[[[a b] c] [[d e] f]] [[g h] i]] [[tx ty] tz]].
  destruct v as [[x y] z].
  unfold det in Hd. simpl in Hd.
  unfold affine_apply, compose, affine_shift, vadd, vopp, mat_vec, mat_mul,
    mat_scale, adjugate, transpose, dot, vzero, Qc_of_Z, det; simpl.
  change (Q2Qc (inject_Z 0)) with (Q2Qc 0).
  apply f_equal2; [apply f_equal2 |]; field; exact Hd.
Qed.

(** *** Slices, intervals and padding as lists of positions *)

Lemma filter_all {A : Type} (p : A -> bool) (l : list A) :
  (forall x, In x l -> p x = true) -> filter p l = l.
Proof.
  induction l as [| x l IH]; intros H; simpl; [reflexivity |].
  rewrite (H x (or_introl eq_refl)). f_equal. apply IH. intros y Hy. apply H. right. exact Hy.
Qed.

Lemma filter_none {A : Type} (p : A -> bool) (l : list A) :
  (forall x, In x l -> p x = false) -> filter p l = [].
Proof.
  induction l as [| x l IH]; intros H; simpl; [reflexivity |].
  rewrite (H x (or_introl eq_refl)). apply IH. intros y Hy. apply H. right. exact Hy.
Qed.

(** Inside the axis, the interval is a run of consecutive positions. *)
Lemma interval_positions_seq (lo hi : Z) (n : nat) :
  0 <= lo <= hi -> hi <= Z.of_nat n ->
  interval_positions lo hi n = seq (Z.to_nat lo) (Z.to_nat (hi - lo)).
Proof.
  intros Hlo Hhi. unfold interval_positions.
  replace n with (Z.to_nat lo + (Z.to_nat (hi - lo) + (n - Z.to_nat hi)))%nat by lia.
  rewrite !seq_app, !filter_app. simpl.
  rewrite filter_none, filter_all, filter_none.
  - rewrite app_nil_r. reflexivity.
  - intros x Hx. apply in_seq in Hx. apply andb_false_iff. right. apply Z.ltb_ge. lia.
  - intros x Hx. apply in_seq in Hx. apply andb_true_iff. split.
    + apply Z.leb_le. lia.
    + apply Z.ltb_lt. lia.
  - intros x Hx. apply in_seq in Hx. apply andb_false_iff. left. apply Z.leb_gt. lia.
Qed.

Lemma interval_positions_length (lo hi : Z) (n : nat) :
  0 <= lo <= hi -> hi <= Z.of_nat n ->
  length (interval_positions lo hi n) = Z.to_nat (hi - lo).
Proof.
  intros Hlo Hhi. rewrite interval_positions_seq by assumption. apply length_seq.
Qed.

Lemma map_offset_seq (lo : Z) (s c : nat) :
  0 <= lo ->
  map (fun k => Z.to_nat (lo + Z.of_nat k * 1)) (seq s c) = seq (Z.to_nat lo + s) c.
Proof.
  intros Hlo. revert s. induction c as [| c IH]; intros s; simpl; [reflexivity |].
  f_equal.
  - lia.
  - rewrite IH. f_equal. lia.
Qed.

(** A Python slice with bounds inside the axis selects the interval. *)
Lemma slice_indices_interval (lo hi : Z) (n : nat) :
  0 <= lo <= hi -> hi <= Z.of_nat n ->
  slice_indices (Some lo) (Some hi) None n = Ok (interval_positions lo hi n).
Proof.
  intros Hlo Hhi. unfold slice_indices. simpl.
  rewrite interval_positions_seq by assumption.
  assert (Hb : forall b, 0 <= b <= Z.of_nat n -> slice_bound (Z.of_nat n) b = b).
  { intros b Hb. unfold slice_bound.
    destruct (b <? 0) eqn:E; [apply Z.ltb_lt in E; lia | lia]. }
  rewrite !Hb by lia.
  destruct (hi <=? lo) eqn:E.
  - apply Z.leb_le in E. replace (hi - lo) with 0 by lia. reflexivity.
  - replace ((hi - lo + 1 - 1) / 1) with (hi - lo) by (rewrite Z.div_1_r; lia).
    rewrite map_offset_seq by lia. f_equal. f_equal. lia.
Qed.

(** The full slice selects every position. *)
Lemma slice_indices_all (n : nat) : slice_indices None None None n = Ok (seq 0 n).
Proof.
  unfold slice_indices. cbv zeta. change (1 <=? 0) with false. cbv iota.
  destruct (Z.of_nat n <=? 0) eqn:E.
  - apply Z.leb_le in E. replace n with 0%nat by lia. reflexivity.
  - replace ((Z.of_nat n - 0 + 1 - 1) / 1) with (Z.of_nat n) by (rewrite Z.div_1_r; lia).
    rewrite Nat2Z.id. rewrite (map_offset_seq 0 0 n) by lia. reflexivity.
Qed.

(** A padded axis holds the entries it had and the ones added. *)
Lemma pad_indices_length (mode : string) (n a b : nat) (idxs : list (option nat)) :
  pad_indices mode n a b = Ok idxs -> length idxs = (a + n + b)%nat.
Proof.
  unfold pad_indices. intros H.
  destruct (String.eqb mode "constant").
  { inversion H; subst.
    rewrite !length_app, !repeat_length, length_map, length_seq. lia. }
  destruct (String.eqb mode "replicate").
  { destruct (n =? 0)%nat; [discriminate |]. inversion H; subst.
    rewrite !length_app, !repeat_length, length_map, length_seq. lia. }
  destruct (String.eqb mode "reflect"); [| discriminate].
  destruct ((a <? n)%nat && (b <? n)%nat); [| discriminate].
  inversion H; subst.
  rewrite !length_app, length_rev, !length_map, !length_seq. lia.
Qed.

Lemma pad_indices_constant (n a b : nat) :
  pad_indices "constant" n a b
  = Ok (repeat None a ++ map Some (seq 0 n) ++ repeat None b).
Proof. reflexivity. Qed.

(** *** Selecting every position of an axis changes nothing *)

Lemma numel_app (a b : list nat) : numel (a ++ b) = (numel a * numel b)%nat.
Proof.
  induction a as [| x a IH]; simpl; [lia |]. rewrite IH. lia.
Qed.

Lemma split_at_axis (s : list nat) (axis : nat) :
  (axis < length s)%nat ->
  firstn axis s ++ nth axis s 0%nat :: skipn (S axis) s = s.
Proof.
  revert axis. induction s as [| x s IH]; intros axis H; simpl in H; [lia |].
  destruct axis as [| axis]; simpl; [reflexivity |].
  f_equal. apply IH. lia.
Qed.

Lemma chunks_rebuild {A : Type} (F : list A -> list A) (k sz : nat) (l : list A) :
  (forall blk, length blk = sz -> F blk = blk) ->
  length l = (k * sz)%nat ->
  flat_map F (chunks k sz l) = l.
Proof.
  intros HF. revert l. induction k as [| k IH]; intros l Hl; simpl in *.
  - destruct l; [reflexivity | discriminate].
  - rewrite HF by (rewrite length_firstn; lia).
    rewrite IH by (rewrite length_skipn; lia).
    apply firstn_skipn.
Qed.

Lemma slices_rebuild {A : Type} (inner n : nat) (blk : list A) :
  length blk = (n * inner)%nat ->
  flat_map (fun i => firstn inner (skipn (i * inner) blk)) (seq 0 n) = blk.
Proof.
  revert blk. induction n as [| n IH]; intros blk Hl.
  - destruct blk; [reflexivity | discriminate].
  - transitivity (firstn inner blk ++ skipn inner blk); [| apply firstn_skipn].
    simpl. f_equal. rewrite <- seq_shift.
    rewrite flat_map_concat_map, map_map, <- flat_map_concat_map.
    etransitivity;
      [| apply (IH (skipn inner blk)); rewrite length_skipn; simpl in Hl; lia].
    apply flat_map_ext. intros i. rewrite skipn_skipn.
    f_equal. f_equal. simpl. lia.
Qed.

Lemma gather_every_position (axis : nat) (fill : Qc) (t : Tensor) :
  tensor_wf t -> (axis < ndim t)%nat ->
  gather_axis axis (map Some (seq 0 (nth axis (shape t) 0%nat))) fill t = t.
Proof.
  unfold tensor_wf, ndim. intros Hwf Hax. destruct t as [s dt dat]. simpl in *.
  unfold gather_axis. simpl. f_equal.
  - rewrite length_map, length_seq. apply split_at_axis. exact Hax.
  - apply chunks_rebuild.
    + intros blk Hb. rewrite flat_map_concat_map, map_map, <- flat_map_concat_map.
      apply slices_rebuild. exact Hb.
    + rewrite Hwf. rewrite <- (split_at_axis s axis Hax) at 1.
      rewrite numel_app. reflexivity.
Qed.

(** *** The fast path of [resample_like] *)

Arguments gather_axis : simpl never.
Arguments interval_positions : simpl never.
Arguments pad_indices : simpl never.

Lemma shape_gather_axis (axis : nat) (idxs : list (option nat)) (fill : Qc) (t : Tensor) :
  shape (gather_axis axis idxs fill t)
  = firstn axis (shape t) ++ length idxs :: skipn (S axis) (shape t).
Proof. reflexivity. Qed.

(** A target that is the source geometry shifted by a whole number of
    voxels, and is not taken for the source geometry itself, goes to the
    crop-and-pad path with exactly that shift. *)
Lemma resample_like_takes_shift
  (self : Volume) (tb : Z3) (sd : option SliceDirection) (d : Z3)
  (mode padding_mode : string) :
  let target :=
    mkGeometry tb (affine_shift (matrix (geometry self)) (Z3_to_Vec3 d) voxel) sd in
  invertible (matrix (geometry self)) ->
  Z3_eqb tb (volume_baseshape self)
  && translation_close (matrix (geometry self)) (matrix target) = false ->
  resample_like self (LikeGeometry target) mode padding_mode
  = resample_by_shift self target d padding_mode.
Proof.
  intros target Hinv Hid. unfold resample_like.
  assert (Hl : linear_close (matrix (geometry self)) (matrix target) = true)
    by apply mat_close_refl.
  rewrite Hl. cbn [baseshape target]. rewrite Hid.
  destruct (shifted_origin _ (Z3_to_Vec3 d) Hinv) as [inv [-> Hdelta]].
  cbn [bind matrix target]. rewrite Hdelta, round_whole_vector, vclose_refl.
  reflexivity.
Qed.

(** The indexing of the fast path, on a 4D tensor and bounds inside it, is
    a crop of each spatial axis to an interval. *)
Lemma getitem_spatial_intervals (t : Tensor) (c w h d : nat) (lo hi : Z3) :
  shape t = [c; w; h; d] ->
  let '(lo0, lo1, lo2) := lo in
  let '(hi0, hi1, hi2) := hi in
  0 <= lo0 <= hi0 -> hi0 <= Z.of_nat w ->
  0 <= lo1 <= hi1 -> hi1 <= Z.of_nat h ->
  0 <= lo2 <= hi2 -> hi2 <= Z.of_nat d ->
  getitem t (slice_all :: map (fun ab => Slice (Some (fst ab)) (Some (snd ab)) None)
                            (combine (list3 lo) (list3 hi)))
  = Ok (crop_axis 3 lo2 hi2 (crop_axis 2 lo1 hi1 (crop_axis 1 lo0 hi0
          (gather_axis 0 (map Some (seq 0 c)) (Q2Qc 0) t)))).
Proof.
  intros Hs. destruct lo as [[lo0 lo1] lo2], hi as [[hi0 hi1] hi2].
  intros H0 H0' H1 H1' H2 H2'.
  unfold getitem, ndim. rewrite Hs. cbn [list3 combine map fst snd].
  cbn [filter is_ellipsis negb length Nat.ltb Nat.leb Nat.sub fill_ellipsis slice_all].
  unfold slice_all. cbn [index_from].
  rewrite Hs. cbn [nth]. rewrite slice_indices_all. cbn [bind].
  set (t0 := gather_axis 0 _ _ t).
  assert (Hs0 : shape t0 = [c; w; h; d]).
  { unfold t0. rewrite shape_gather_axis, Hs. simpl. rewrite length_map, length_seq.
    reflexivity. }
  rewrite Hs0. cbn [nth]. rewrite slice_indices_interval by assumption. cbn [bind].
  replace (gather_axis 1 (map Some (interval_positions lo0 hi0 w)) (Q2Qc 0) t0)
    with (crop_axis 1 lo0 hi0 t0) by (unfold crop_axis; rewrite Hs0; reflexivity).
  set (t1 := crop_axis 1 lo0 hi0 t0).
  assert (Hs1 : exists w', shape t1 = [c; w'; h; d]).
  { unfold t1, crop_axis. rewrite shape_gather_axis, Hs0. simpl. eauto. }
  destruct Hs1 as [w' Hs1].
  rewrite Hs1. cbn [nth]. rewrite slice_indices_interval by assumption. cbn [bind].
  replace (gather_axis 2 (map Some (interval_positions lo1 hi1 h)) (Q2Qc 0) t1)
    with (crop_axis 2 lo1 hi1 t1) by (unfold crop_axis; rewrite Hs1; reflexivity).
  set (t2 := crop_axis 2 lo1 hi1 t1).
  assert (Hs2 : exists h', shape t2 = [c; w'; h'; d]).
  { unfold t2, crop_axis. rewrite shape_gather_axis, Hs1. simpl. eauto. }
  destruct Hs2 as [h' Hs2].
  rewrite Hs2. cbn [nth]. rewrite slice_indices_interval by assumption. cbn [bind].
  replace (gather_axis 3 (map Some (interval_positions lo2 hi2 d)) (Q2Qc 0) t2)
    with (crop_axis 3 lo2 hi2 t2) by (unfold crop_axis; rewrite Hs2; reflexivity).
  reflexivity.
Qed.

Lemma ndim_gather_axis (axis : nat) (idxs : list (option nat)) (fill : Qc) (t : Tensor) :
  (axis < ndim t)%nat -> ndim (gather_axis axis idxs fill t) = ndim t.
Proof.
  unfold ndim. intros H. rewrite shape_gather_axis.
  rewrite <- (split_at_axis (shape t) axis H) at 3.
  rewrite !length_app. reflexivity.
Qed.

Lemma ndim_pad_axis (axis : nat) (mode : string) (before after : Z) (t p : Tensor) :
  (axis < ndim t)%nat -> pad_axis axis mode before after t = Ok p -> ndim p = ndim t.
Proof.
  unfold pad_axis. intros Hax H. apply bind_ok in H. destruct H as (idxs & _ & H).
  inversion H; subst. apply ndim_gather_axis. exact Hax.
Qed.

Lemma ndim_crop_axis (axis : nat) (lo hi : Z) (t : Tensor) :
  (axis < ndim t)%nat -> ndim (crop_axis axis lo hi t) = ndim t.
Proof. apply ndim_gather_axis. Qed.

Ltac solve_ndim E0 :=
  first [ exact E0
        | rewrite E0; lia
        | rewrite ndim_crop_axis; [solve_ndim E0 | solve_ndim E0] ].

(** The padding of the fast path, on a 4D tensor, pads the three spatial
    axes, the last one first. *)
Lemma F_pad_spatial_axes (t : Tensor) (mode : string) (before after : Z3) :
  ndim t = 4%nat ->
  let '(before0, before1, before2) := before in
  let '(after0, after1, after2) := after in
  F_pad t (rev (map Z.to_nat (flat_map (fun ba => [fst ba; snd ba])
                                (combine (list3 after) (list3 before))))) mode
  = (p <- pad_axis 3 mode before2 after2 t ;;
     p <- pad_axis 2 mode before1 after1 p ;;
     pad_axis 1 mode before0 after0 p).
Proof.
  intros Hn. destruct before as [[b0 b1] b2], after as [[a0 a1] a2].
  cbn [list3 combine flat_map fst snd app map rev].
  unfold F_pad. cbn [pad_from]. rewrite Hn. cbn [Nat.leb Nat.sub].
  destruct (pad_axis 3 mode b2 a2 t) as [p3 | e] eqn:E3.
  - pose proof (ndim_pad_axis 3 mode b2 a2 t p3 ltac:(lia) E3) as Hn3.
    unfold pad_axis in E3. destruct (pad_indices mode _ _ _) as [i3 | e3]; [| discriminate].
    cbn [bind] in E3 |- *. inversion E3 as [E3']. rewrite E3'.
    rewrite Hn3, Hn. cbn [Nat.leb Nat.sub].
    destruct (pad_axis 2 mode b1 a1 p3) as [p2 | e] eqn:E2.
    + pose proof (ndim_pad_axis 2 mode b1 a1 p3 p2 ltac:(lia) E2) as Hn2.
      unfold pad_axis in E2. destruct (pad_indices mode _ _ _) as [i2 | e2]; [| discriminate].
      cbn [bind] in E2 |- *. inversion E2 as [E2']. rewrite E2'.
      rewrite Hn2, Hn3, Hn. cbn [Nat.leb Nat.sub].
      unfold pad_axis. destruct (pad_indices mode _ _ _) as [i1 | e1]; reflexivity.
    + unfold pad_axis in E2. destruct (pad_indices mode _ _ _) as [i2 | e2]; [discriminate |].
      cbn [bind] in E2 |- *. congruence.
  - unfold pad_axis in E3. destruct (pad_indices mode _ _ _) as [i3 | e3]; [discriminate |].
    cbn [bind] in E3 |- *. congruence.
Qed.

Lemma any_padding_iff (before after : Z3) :
  existsb (fun d => negb (d =? 0))
    (flat_map (fun ba => [fst ba; snd ba]) (combine (list3 after) (list3 before)))
  = negb (all3 (fun p => p =? 0) before && all3 (fun p => p =? 0) after).
Proof.
  destruct before as [[b0 b1] b2], after as [[a0 a1] a2]. simpl.
  destruct (b0 =? 0), (b1 =? 0), (b2 =? 0), (a0 =? 0), (a1 =? 0), (a2 =? 0); reflexivity.
Qed.

(** What [shift_within] gives on one axis: the crop interval lies inside
    the axis, and the kept and the added voxels make up the target length. *)
Lemma axis_within (l t n : Z) :
  0 <= n -> 0 <= t -> - t <= l <= n ->
  0 <= clamp_min 0 l <= clamp_max 0 (l + t - n) + n
  /\ clamp_max 0 (l + t - n) + n <= n
  /\ (Z.to_nat (Z.abs (clamp_max 0 l))
      + Z.to_nat (clamp_max 0 (l + t - n) + n - clamp_min 0 l)
      + Z.to_nat (clamp_min 0 (l + t - n)))%nat = Z.to_nat t.
Proof. unfold clamp_min, clamp_max. lia. Qed.

(** Inside the extent, the crop-and-pad path is the explicit crop and pad
    of the tensor (its channel axis indexed in full), handed to [new]
    together with the target. *)
Lemma resample_by_shift_explicit
  (self : Volume) (target : AcquisitionGeometry) (d : Z3) (padding_mode : string) :
  Volume_ok self ->
  shift_within d (baseshape target) (volume_baseshape self) ->
  resample_by_shift self target d padding_mode
  = (t <- explicit_crop_pad
            (gather_axis 0 (map Some (seq 0 (num_channels self))) (Q2Qc 0) (tensor self))
            d (baseshape target) (volume_baseshape self) padding_mode ;;
     new self t (GeomAcquisition target)).
Proof.
  intros [Hn _]. unfold volume_baseshape, num_channels, tensor_baseshape.
  destruct self as [t g]. cbn [tensor geometry].
  unfold ndim in Hn. cbn [tensor] in Hn.
  destruct (shape t) as [| c [| w [| h [| dd [| ? ?]]]]] eqn:Hs; try discriminate.
  clear Hn. cbn [hd].
  destruct d as [[l0 l1] l2]. destruct (baseshape target) as [[t0 t1] t2] eqn:Hb.
  intros [[Ht0 Hl0] [[Ht1 Hl1] [Ht2 Hl2]]].
  destruct (axis_within l0 t0 (Z.of_nat w) (Nat2Z.is_nonneg w) Ht0 Hl0) as [A0 [A0' _]].
  destruct (axis_within l1 t1 (Z.of_nat h) (Nat2Z.is_nonneg h) Ht1 Hl1) as [A1 [A1' _]].
  destruct (axis_within l2 t2 (Z.of_nat dd) (Nat2Z.is_nonneg dd) Ht2 Hl2) as [A2 [A2' _]].
  unfold resample_by_shift, explicit_crop_pad.
  unfold volume_baseshape, tensor_baseshape. cbn [tensor geometry].
  rewrite Hs, Hb. cbn [zip3 map3].
  pose proof (getitem_spatial_intervals t c w h dd
                (clamp_min 0 l0, clamp_min 0 l1, clamp_min 0 l2)
                (clamp_max 0 (l0 + t0 - Z.of_nat w) + Z.of_nat w,
                 clamp_max 0 (l1 + t1 - Z.of_nat h) + Z.of_nat h,
                 clamp_max 0 (l2 + t2 - Z.of_nat dd) + Z.of_nat dd) Hs) as Hg.
  cbn beta iota in Hg. rewrite (Hg A0 A0' A1 A1' A2 A2'). cbn [bind]. clear Hg.
  set (cropped := crop_axis 3 _ _ _).
  rewrite (any_padding_iff
             (Z.abs (clamp_max 0 l0), Z.abs (clamp_max 0 l1), Z.abs (clamp_max 0 l2))
             (clamp_min 0 (l0 + t0 - Z.of_nat w), clamp_min 0 (l1 + t1 - Z.of_nat h),
              clamp_min 0 (l2 + t2 - Z.of_nat dd))).
  destruct (all3 _ _ && all3 _ _); cbn [negb bind]; [reflexivity |].
  destruct (padding_equivalent padding_mode) as [m |]; [| reflexivity].
  assert (Hc : ndim cropped = 4%nat).
  { assert (E0 : ndim (gather_axis 0 (map Some (seq 0 c)) (Q2Qc 0) t) = 4%nat).
    { rewrite ndim_gather_axis; unfold ndim; rewrite Hs; simpl; lia. }
    unfold cropped. solve_ndim E0. }
  pose proof (F_pad_spatial_axes cropped m
                (Z.abs (clamp_max 0 l0), Z.abs (clamp_max 0 l1), Z.abs (clamp_max 0 l2))
                (clamp_min 0 (l0 + t0 - Z.of_nat w), clamp_min 0 (l1 + t1 - Z.of_nat h),
                 clamp_min 0 (l2 + t2 - Z.of_nat dd)) Hc) as Hp.
  cbn beta iota in Hp. rewrite Hp. reflexivity.
Qed.

Lemma shape_crop_axis (axis : nat) (lo hi : Z) (t : Tensor) :
  shape (crop_axis axis lo hi t)
  = firstn axis (shape t)
    ++ length (interval_positions lo hi (nth axis (shape t) 0%nat))
    :: skipn (S axis) (shape t).
Proof. unfold crop_axis. rewrite shape_gather_axis, length_map. reflexivity. Qed.

Lemma shape_pad_axis (axis : nat) (mode : string) (before after : Z) (t p : Tensor) :
  pad_axis axis mode before after t = Ok p ->
  shape p = firstn axis (shape t)
            ++ (Z.to_nat before + nth axis (shape t) 0 + Z.to_nat after)%nat
            :: skipn (S axis) (shape t).
Proof.
  unfold pad_axis. intros H. apply bind_ok in H. destruct H as (idxs & Hi & H).
  inversion H; subst. rewrite shape_gather_axis.
  rewrite (pad_indices_length _ _ _ _ _ Hi). reflexivity.
Qed.

(** Inside the extent, the explicit crop and pad yields a tensor of the
    target shape. *)
Lemma explicit_crop_pad_shape
  (t : Tensor) (c w h d : nat) (lower target_shape : Z3) (padding_mode : string)
  (t' : Tensor) :
  shape t = [c; w; h; d] ->
  shift_within lower target_shape (Z.of_nat w, Z.of_nat h, Z.of_nat d) ->
  explicit_crop_pad t lower target_shape (Z.of_nat w, Z.of_nat h, Z.of_nat d)
    padding_mode = Ok t' ->
  ndim t' = 4%nat /\ tensor_baseshape t' = target_shape /\ hd 0%nat (shape t') = c.
Proof.
  intros Hs. destruct lower as [[l0 l1] l2], target_shape as [[t0 t1] t2].
  intros [[Ht0 Hl0] [[Ht1 Hl1] [Ht2 Hl2]]].
  destruct (axis_within l0 t0 (Z.of_nat w) (Nat2Z.is_nonneg w) Ht0 Hl0) as [A0 [A0' S0]].
  destruct (axis_within l1 t1 (Z.of_nat h) (Nat2Z.is_nonneg h) Ht1 Hl1) as [A1 [A1' S1]].
  destruct (axis_within l2 t2 (Z.of_nat d) (Nat2Z.is_nonneg d) Ht2 Hl2) as [A2 [A2' S2]].
  unfold explicit_crop_pad. cbn [zip3 map3].
  set (cropped := crop_axis 3 _ _ _).
  assert (Hc : shape cropped
               = [c;
                  Z.to_nat (clamp_max 0 (l0 + t0 - Z.of_nat w) + Z.of_nat w - clamp_min 0 l0);
                  Z.to_nat (clamp_max 0 (l1 + t1 - Z.of_nat h) + Z.of_nat h - clamp_min 0 l1);
                  Z.to_nat (clamp_max 0 (l2 + t2 - Z.of_nat d) + Z.of_nat d - clamp_min 0 l2)]).
  { unfold cropped. rewrite !shape_crop_axis, Hs. cbn [firstn skipn nth app].
    rewrite !interval_positions_length by assumption. reflexivity. }
  destruct (all3 _ _ && all3 _ _) eqn:Hz.
  - intros H. inversion H; subst t'. unfold ndim, tensor_baseshape. rewrite Hc.
    apply andb_true_iff in Hz. destruct Hz as [Hb Ha]. cbn [all3] in Hb, Ha.
    rewrite !andb_true_iff, !Z.eqb_eq in Hb, Ha.
    destruct Hb as [[Hb0 Hb1] Hb2]. destruct Ha as [[Ha0 Ha1] Ha2].
    rewrite Hb0, Ha0 in S0. rewrite Hb1, Ha1 in S1. rewrite Hb2, Ha2 in S2.
    cbn [hd length]. repeat split. f_equal; [f_equal |]; lia.
  - destruct (padding_equivalent padding_mode) as [m |]; [| discriminate].
    intros H. apply bind_ok in H. destruct H as (p3 & H3 & H).
    apply bind_ok in H. destruct H as (p2 & H2 & H1).
    apply shape_pad_axis in H3, H2, H1.
    rewrite Hc in H3. cbn [firstn skipn nth app] in H3.
    rewrite H3 in H2. cbn [firstn skipn nth app] in H2.
    rewrite H2 in H1. cbn [firstn skipn nth app] in H1.
    unfold ndim, tensor_baseshape. rewrite H1. cbn [hd length].
    repeat split. f_equal; [f_equal |]; lia.
Qed.

(** With zero padding, the explicit crop and pad always has an outcome. *)
Lemma explicit_crop_pad_zeros (t : Tensor) (lower target_shape source_shape : Z3) :
  exists t', explicit_crop_pad t lower target_shape source_shape "zeros" = Ok t'.
Proof.
  destruct lower as [[l0 l1] l2], target_shape as [[t0 t1] t2],
    source_shape as [[s0 s1] s2].
  unfold explicit_crop_pad. cbn [zip3 map3].
  destruct (all3 _ _ && all3 _ _); [eauto |].
  change (padding_equivalent "zeros") with (Some "constant"%string). cbv iota.
  unfold pad_axis. repeat (rewrite pad_indices_constant; cbn [bind]).
  eexists. reflexivity.
Qed.

(** Inside the extent, the crop-and-pad path returns the explicit crop and
    pad of the tensor, paired with the target geometry. *)
Lemma resample_by_shift_within
  (self : Volume) (target : AcquisitionGeometry) (d : Z3) (padding_mode : string) :
  Volume_ok self ->
  shift_within d (baseshape target) (volume_baseshape self) ->
  resample_by_shift self target d padding_mode
  = (t <- explicit_crop_pad
            (gather_axis 0 (map Some (seq 0 (num_channels self))) (Q2Qc 0) (tensor self))
            d (baseshape target) (volume_baseshape self) padding_mode ;;
     Ok (mkVolume t target)).
Proof.
  intros Hok Hin. rewrite resample_by_shift_explicit by assumption.
  destruct (explicit_crop_pad _ _ _ _ _) as [t' | e] eqn:E; [| reflexivity].
  cbn [bind].
  destruct Hok as [Hn _]. unfold volume_baseshape, num_channels, tensor_baseshape in *.
  unfold ndim in Hn.
  destruct (shape (tensor self)) as [| c [| w [| h [| dd [| ? ?]]]]] eqn:Hs;
    try discriminate.
  cbn [hd] in E.
  destruct (explicit_crop_pad_shape
              (gather_axis 0 (map Some (seq 0 c)) (Q2Qc 0) (tensor self))
              c w h dd d (baseshape target) padding_mode t')
    as [Hn' [Hb' _]]; try assumption.
  { rewrite shape_gather_axis, Hs. simpl. rewrite length_map, length_seq. reflexivity. }
  apply new_acquisition; [exact Hn' | symmetry; exact Hb'].
Qed.

(** With zero padding and inside the extent, the crop-and-pad path returns
    a volume on the target geometry. *)
Lemma resample_by_shift_zeros
  (self : Volume) (target : AcquisitionGeometry) (d : Z3) :
  Volume_ok self ->
  shift_within d (baseshape target) (volume_baseshape self) ->
  exists v, resample_by_shift self target d "zeros" = Ok v
            /\ geometry v = target
            /\ volume_baseshape v = baseshape target
            /\ Volume_ok v.
Proof.
  intros Hok Hin. pose proof (resample_by_shift_explicit self target d "zeros" Hok Hin) as He.
  destruct (explicit_crop_pad_zeros
              (gather_axis 0 (map Some (seq 0 (num_channels self))) (Q2Qc 0) (tensor self))
              d (baseshape target) (volume_baseshape self)) as [t' E].
  rewrite E in He. cbn [bind] in He.
  rewrite (resample_by_shift_within self target d "zeros" Hok Hin), E. cbn [bind].
  eexists. split; [reflexivity |]. cbn [geometry].
  rewrite resample_by_shift_within in He by assumption. rewrite E in He. cbn [bind] in He.
  symmetry in He. pose proof (new_ok _ _ _ _ He) as [Hn Hb]. cbn [tensor geometry] in *.
  unfold volume_baseshape. cbn [tensor].
  repeat split; auto.
Qed.

Lemma affine_apply_origin (a : AffineMatrix) : affine_apply a vzero = trans a.
Proof.
  destruct a as [[[[[a b] c] [[d e] f]] [[g h] i]] [[tx ty] tz]].
  unfold affine_apply, vadd, mat_vec, dot, vzero, Qc_of_Z; simpl.
  change (Q2Qc (inject_Z 0)) with (Q2Qc 0).
  apply f_equal2; [apply f_equal2 |]; ring.
Qed.

Lemma hd_is_nth0 (s : list nat) : hd 0%nat s = nth 0 s 0%nat.
Proof. destruct s; reflexivity. Qed.

(** Cropping an axis to its whole length changes nothing. *)
Lemma crop_axis_full (axis : nat) (t : Tensor) (n : nat) :
  tensor_wf t -> (axis < ndim t)%nat -> nth axis (shape t) 0%nat = n ->
  crop_axis axis 0 (Z.of_nat n) t = t.
Proof.
  intros Hwf Hax Hn. unfold crop_axis. rewrite Hn.
  rewrite interval_positions_seq by lia.
  replace (Z.to_nat 0) with 0%nat by reflexivity.
  replace (Z.to_nat (Z.of_nat n - 0)) with n by lia.
  rewrite <- Hn. apply gather_every_position; assumption.
Qed.

(** A shift by no voxel at all: the explicit crop and pad returns the
    tensor as it is. *)
Lemma explicit_crop_pad_no_shift (t : Tensor) (c w h d : nat) (padding_mode : string) :
  tensor_wf t -> shape t = [c; w; h; d] ->
  explicit_crop_pad t (0, 0, 0) (Z.of_nat w, Z.of_nat h, Z.of_nat d)
    (Z.of_nat w, Z.of_nat h, Z.of_nat d) padding_mode = Ok t.
Proof.
  intros Hwf Hs. unfold explicit_crop_pad. cbn [zip3 map3].
  replace (0 + Z.of_nat w - Z.of_nat w) with 0 by lia.
  replace (0 + Z.of_nat h - Z.of_nat h) with 0 by lia.
  replace (0 + Z.of_nat d - Z.of_nat d) with 0 by lia.
  change (clamp_min 0 0) with 0. change (clamp_max 0 0) with 0.
  change (Z.abs 0) with 0. cbn [all3 Z.eqb andb Z.add].
  rewrite (crop_axis_full 1 t w), (crop_axis_full 2 t h), (crop_axis_full 3 t d);
    try assumption; try (unfold ndim; rewrite Hs; simpl; lia);
    try (rewrite Hs; reflexivity).
  reflexivity.
Qed.

(** C1, as the code has it.  For a volume with an invertible geometry and
    entries for every index, and a shift by whole voxels that stays within
    the extent of the grid and moves the translation column by more than
    the tolerance (or does not move it at all), [resample_like] on the
    shifted geometry returns the explicit crop and pad of the tensor by
    that shift, paired with the target geometry; whatever the
    interpolation primitive does plays no part.  With zero padding there
    is always such a volume. *)
Theorem resample_like_whole_voxel_shift_is_crop_and_pad
  (self : Volume) (d : Z3) (mode padding_mode : string) :
  let target := shift (geometry self) (Z3_to_Vec3 d) voxel in
  Volume_ok self ->
  tensor_wf (tensor self) ->
  invertible (matrix (geometry self)) ->
  shift_within d (volume_baseshape self) (volume_baseshape self) ->
  d = (0, 0, 0)
  \/ translation_close (matrix (geometry self)) (matrix target) = false ->
  resample_like self (LikeGeometry target) mode padding_mode
  = (t <- explicit_crop_pad (tensor self) d (baseshape target)
            (volume_baseshape self) padding_mode ;;
     Ok (mkVolume t target))
  /\ (padding_mode = "zeros"%string ->
      exists t,
        explicit_crop_pad (tensor self) d (baseshape target)
          (volume_baseshape self) padding_mode = Ok t
        /\ resample_like self (LikeGeometry target) mode padding_mode
           = Ok (mkVolume t target)).
Proof.
  intros target Hok Hwf Hinv Hin Hmove.
  assert (Hmain :
    resample_like self (LikeGeometry target) mode padding_mode
    = (t <- explicit_crop_pad (tensor self) d (baseshape target)
              (volume_baseshape self) padding_mode ;;
       Ok (mkVolume t target))).
  { pose proof Hok as [Hn Hb].
    assert (Htb : baseshape target = volume_baseshape self) by exact Hb.
    destruct Hmove as [-> | Hfar].
    - (* no shift: the geometries agree and the tensor is handed back *)
      unfold resample_like.
      assert (Hl : linear_close (matrix (geometry self)) (matrix target) = true)
        by apply mat_close_refl.
      assert (Ht : translation_close (matrix (geometry self)) (matrix target) = true).
      { unfold translation_close, target. cbn [shift matrix affine_shift trans].
        change (Z3_to_Vec3 (0, 0, 0)) with vzero.
        rewrite affine_apply_origin. apply vclose_refl. }
      rewrite Hl, Ht, Htb, Z3_eqb_refl. cbn [andb].
      rewrite new_acquisition by assumption.
      unfold volume_baseshape, tensor_baseshape in *. unfold ndim in Hn.
      destruct (shape (tensor self)) as [| c [| w [| h [| dd [| ? ?]]]]] eqn:Hs;
        try discriminate.
      rewrite (explicit_crop_pad_no_shift _ c w h dd) by assumption.
      reflexivity.
    - (* a shift that is seen: crop and pad *)
      unfold target, shift.
      rewrite resample_like_takes_shift.
      + rewrite resample_by_shift_within.
        * cbn [baseshape]. unfold num_channels. rewrite hd_is_nth0.
          rewrite gather_every_position;
            [reflexivity | assumption | rewrite Hn; lia].
        * assumption.
        * cbn [baseshape]. rewrite Hb. exact Hin.
      + exact Hinv.
      + unfold target, shift in Hfar. rewrite Hfar. apply andb_false_r. }
  split; [exact Hmain |].
  intros ->.
  destruct (explicit_crop_pad_zeros (tensor self) d (baseshape target)
              (volume_baseshape self)) as [t Ht].
  exists t. split; [exact Ht |]. rewrite Hmain, Ht. reflexivity.
Qed.

(** *** Centered reshape and padding *)

Lemma tensor_baseshape_nonnegative (t : Tensor) : nonnegative (tensor_baseshape t).
Proof.
  unfold tensor_baseshape.
  destruct (shape t) as [| c [| w [| h [| d [| ? ?]]]]]; simpl; lia.
Qed.

Lemma centering_shift_same (s : Z3) : centering_shift s s = (0, 0, 0).
Proof.
  destruct s as [[a b] c]. unfold centering_shift; simpl.
  rewrite !Z.sub_diag. reflexivity.
Qed.

Lemma centering_shift_within (cur bs : Z3) :
  nonnegative cur -> nonnegative bs -> shift_within (centering_shift cur bs) bs cur.
Proof.
  destruct cur as [[a b] c], bs as [[a' b'] c']. unfold centering_shift; simpl.
  intros (Ha & Hb & Hc) (Ha' & Hb' & Hc').
  repeat split; try assumption; Z.div_mod_to_equations; lia.
Qed.

(** [reshape] to a shape without negative lengths succeeds, on the geometry
    shifted by the centering offset. *)
Lemma reshape_within (self : Volume) (bs : Z3) :
  Volume_ok self -> invertible (matrix (geometry self)) -> nonnegative bs ->
  exists v,
    reshape self bs = Ok v
    /\ geometry v
       = mkGeometry bs
           (affine_shift (matrix (geometry self))
              (Z3_to_Vec3 (centering_shift (volume_baseshape self) bs)) voxel)
           (explicit_slice_direction (geometry self))
    /\ Volume_ok v
    /\ volume_baseshape v = bs.
Proof.
  intros Hok Hinv Hbs. unfold reshape.
  change (AcquisitionGeometry_new bs
            (Some (matrix (shift (geometry self)
                             (Z3_to_Vec3 (centering_shift (volume_baseshape self) bs)) voxel)))
            (explicit_slice_direction (geometry self)))
    with (mkGeometry bs
            (affine_shift (matrix (geometry self))
               (Z3_to_Vec3 (centering_shift (volume_baseshape self) bs)) voxel)
            (explicit_slice_direction (geometry self))).
  set (target := mkGeometry bs _ _).
  destruct (Z3_eqb bs (volume_baseshape self)) eqn:E.
  - (* the same shape: nothing to do *)
    apply Z3_eqb_eq in E. subst bs.
    unfold resample_like. cbn [baseshape matrix target].
    assert (Hl : linear_close (matrix (geometry self))
                   (affine_shift (matrix (geometry self))
                      (Z3_to_Vec3 (centering_shift (volume_baseshape self)
                                     (volume_baseshape self))) voxel) = true)
      by apply mat_close_refl.
    rewrite Hl, Z3_eqb_refl. cbn [andb].
    assert (Ht : translation_close (matrix (geometry self))
                   (affine_shift (matrix (geometry self))
                      (Z3_to_Vec3 (centering_shift (volume_baseshape self)
                                     (volume_baseshape self))) voxel) = true).
    { rewrite centering_shift_same. unfold translation_close.
      cbn [affine_shift trans]. change (Z3_to_Vec3 (0, 0, 0)) with vzero.
      rewrite affine_apply_origin. apply vclose_refl. }
    rewrite Ht. destruct Hok as [Hn Hb].
    rewrite new_acquisition by (try exact Hn; reflexivity).
    eexists. split; [reflexivity |]. cbn [geometry tensor].
    split; [reflexivity |]. split; [split; [exact Hn | reflexivity] | reflexivity].
  - (* another shape: crop and pad around the center *)
    unfold target.
    rewrite resample_like_takes_shift by (try exact Hinv; rewrite E; reflexivity).
    fold target.
    destruct (resample_by_shift_zeros self target
                (centering_shift (volume_baseshape self) bs) Hok) as (v & Hv & Hg & Hb & Hokv).
    { cbn [baseshape target]. apply centering_shift_within; [| exact Hbs].
      apply tensor_baseshape_nonnegative. }
    exists v. repeat split; try assumption; apply Hokv.
Qed.

Lemma pad_is_reshape (self : Volume) (delta : scalar_or_vector) :
  pad self delta = reshape self (padded_shape self delta).
Proof. reflexivity. Qed.

Lemma Qc_of_Z_add (a b : Z) : Qc_of_Z (a + b) = (Qc_of_Z a + Qc_of_Z b)%Qc.
Proof.
  apply Qc_is_canon. unfold Qcplus, Q2Qc. cbn [this].
  rewrite Qred_correct, !Qc_of_Z_this, inject_Z_plus. reflexivity.
Qed.

Lemma Z3_to_Vec3_add (u v : Z3) :
  Z3_to_Vec3 (zip3 Z.add u v) = vadd (Z3_to_Vec3 u) (Z3_to_Vec3 v).
Proof.
  destruct u as [[a b] c], v as [[a' b'] c']. unfold Z3_to_Vec3, vadd; simpl.
  rewrite !Qc_of_Z_add. reflexivity.
Qed.

Lemma affine_shift_twice (a : AffineMatrix) (u v : Vec3) :
  affine_shift (affine_shift a u voxel) v voxel = affine_shift a (vadd u v) voxel.
Proof.
  destruct a as [[[[[a b] c] [[d e] f]] [[g h] i]] [[tx ty] tz]].
  destruct u as [[x y] z], v as [[x' y'] z'].
  unfold affine_shift, affine_apply, vadd, mat_vec, dot; simpl.
  f_equal. apply f_equal2; [apply f_equal2 |]; ring.
Qed.

Lemma affine_shift_none (a : AffineMatrix) : affine_shift a vzero voxel = a.
Proof.
  destruct a as [l t]. unfold affine_shift. cbn [lin].
  rewrite affine_apply_origin. reflexivity.
Qed.



Lemma even_difference_centers (cur bs : Z3) :
  even_difference cur bs ->
  zip3 Z.add (centering_shift cur bs) (centering_shift bs cur) = (0, 0, 0).
Proof.
  destruct cur as [[a b] c], bs as [[a' b'] c']. unfold centering_shift; simpl.
  intros (Ha & Hb & Hc).
  apply Z.even_spec in Ha, Hb, Hc.
  destruct Ha as [ka Ha], Hb as [kb Hb], Hc as [kc Hc].
  f_equal; [f_equal |]; Z.div_mod_to_equations; lia.
Qed.

(** Reshaping and reshaping back succeeds and leaves the geometry shifted,
    in voxels, by the sum of the two centering offsets; when every
    difference between the two shapes is even that sum is zero and the
    geometry is the original one. *)
Theorem reshape_round_trip_geometry (self : Volume) (bs : Z3) :
  Volume_ok self ->
  invertible (matrix (geometry self)) ->
  nonnegative bs ->
  exists v1 v2,
    reshape self bs = Ok v1
    /\ reshape v1 (volume_baseshape self) = Ok v2
    /\ geometry v2
       = shift (geometry self)
           (Z3_to_Vec3 (zip3 Z.add (centering_shift (volume_baseshape self) bs)
                          (centering_shift bs (volume_baseshape self)))) voxel
    /\ (even_difference (volume_baseshape self) bs -> geometry v2 = geometry self).
Proof.
  intros Hok Hinv Hbs.
  destruct (reshape_within self bs Hok Hinv Hbs) as (v1 & Hv1 & Hg1 & Hok1 & Hb1).
  assert (Hinv1 : invertible (matrix (geometry v1))) by (rewrite Hg1; exact Hinv).
  destruct (reshape_within v1 (volume_baseshape self) Hok1 Hinv1
              (tensor_baseshape_nonnegative _)) as (v2 & Hv2 & Hg2 & _ & _).
  exists v1, v2. split; [exact Hv1 |]. split; [exact Hv2 |].
  assert (Hg : geometry v2
               = shift (geometry self)
                   (Z3_to_Vec3 (zip3 Z.add (centering_shift (volume_baseshape self) bs)
                                  (centering_shift bs (volume_baseshape self)))) voxel).
  { rewrite Hg2, Hb1, Hg1. cbn [matrix explicit_slice_direction].
    rewrite affine_shift_twice, <- Z3_to_Vec3_add. unfold shift.
    destruct Hok as [_ Hb]. unfold volume_baseshape. rewrite <- Hb. reflexivity. }
  split; [exact Hg |].
  intros Heven. rewrite Hg, (even_difference_centers _ _ Heven).
  unfold shift. change (Z3_to_Vec3 (0, 0, 0)) with vzero.
  rewrite affine_shift_none. destruct (geometry self); reflexivity.
Qed.

(** A crop that succeeds keeps the three spatial axes, and its geometry is
    anchored to the cropped shape. *)
Theorem crop_keeps_spatial_axes
  (self : Volume) (cropping : cropping_arg) (margin : option scalar_or_vector)
  (v : Volume) :
  crop self cropping margin = Ok v ->
  ndim (tensor v) = 4%nat /\ baseshape (geometry v) = volume_baseshape v.
Proof. intros H. exact (crop_ok _ _ _ _ H). Qed.

(** *** Operators and constructors *)

(** On a 4D tensor of the spatial shape of the volume, [new] without a
    geometry pairs the tensor with the geometry of the volume. *)
Lemma new_same_grid (self : Volume) (t : Tensor) :
  Volume_ok self -> ndim t = 4%nat -> tl (shape t) = tl (shape (tensor self)) ->
  new self t GeomNone = Ok (mkVolume t (geometry self)).
Proof.
  intros [Hn Hb] Ht Htl.
  change (new self t GeomNone) with (new self t (GeomAcquisition (geometry self))).
  apply new_acquisition; [exact Ht |].
  rewrite Hb. unfold tensor_baseshape, ndim in *.
  destruct (shape t) as [| c [| w [| h [| d [| ? ?]]]]]; try discriminate.
  destruct (shape (tensor self)) as [| c' [| w' [| h' [| d' [| ? ?]]]]];
    try discriminate.
  simpl in Htl. inversion Htl; subst. reflexivity.
Qed.

Lemma new_keeps_geometry (self : Volume) (t : Tensor) (v : Volume) :
  Volume_ok self -> new self t GeomNone = Ok v ->
  tensor v = (if (ndim t =? 3)%nat then unsqueeze0 t else t)
  /\ geometry v = geometry self
  /\ volume_baseshape v = volume_baseshape self.
Proof.
  intros [_ Hb] H. pose proof (new_ok _ _ _ _ H) as [_ Hv].
  unfold new, Volume_init in H.
  apply bind_ok in H. destruct H as (t' & Ht & H).
  apply bind_ok in H. destruct H as (a & Ha & H).
  inversion H; subst v. cbn [tensor geometry] in *.
  unfold geometry_setter in Ha.
  destruct (negb (Z3_eqb _ _)); [discriminate |]. inversion Ha; subst a.
  split.
  - destruct (ndim t =? 3)%nat; [congruence |].
    destruct (negb (ndim t =? 4)%nat); [discriminate | congruence].
  - split; [reflexivity |]. unfold volume_baseshape. cbn [tensor]. congruence.
Qed.

Lemma inplace_keeps_shape (op : binary_operator) (self : Volume) (other : operand)
  (v : Volume) :
  inplace op self other = Ok v ->
  shape (tensor v) = shape (tensor self)
  /\ dtype_of (tensor v) = dtype_of (tensor self)
  /\ geometry v = geometry self.
Proof.
  unfold inplace. intros H. bind_inv H. inversion H; subst v. cbn [tensor geometry].
  unfold tensor_binop_inplace in Hx. bind_inv Hx.
  destruct (list_eq_dec _ _ _); [| discriminate].
  inversion Hx; subst. auto.
Qed.

(** Every operation that works on the entries (the operators, the casts,
    the channel reductions, the like-constructors, the in-place operators,
    [smooth], [stack]) hands back the geometry of the volume untouched, on a
    tensor of the same spatial shape. *)
Theorem entrywise_operations_keep_geometry
  (op : operation) (self v : Volume) :
  Volume_ok self ->
  entrywise op = true ->
  run op self = Ok (AVolume v) ->
  geometry v = geometry self /\ volume_baseshape v = volume_baseshape self.
Proof.
  intros Hok He H.
  assert (Hnew : forall t, new self t GeomNone = Ok v ->
            geometry v = geometry self /\ volume_baseshape v = volume_baseshape self).
  { intros t Ht. apply (new_keeps_geometry self t v Hok Ht). }
  destruct op; try discriminate He; simpl in H;
    try (apply as_volume_ok in H);
    try (eapply Hnew; eassumption).
  - (* smooth *)
    unfold smooth in H. bind_inv H. eapply Hnew; eassumption.
  - (* binary *)
    unfold binary in H. bind_inv H. eapply Hnew; eassumption.
  - (* in place *)
    destruct (inplace_keeps_shape _ _ _ _ H) as (Hs & _ & Hg).
    split; [exact Hg |]. unfold volume_baseshape, tensor_baseshape. rewrite Hs. reflexivity.
  - unfold maximum, binary in H. bind_inv H. eapply Hnew; eassumption.
  - unfold minimum, binary in H. bind_inv H. eapply Hnew; eassumption.
  - (* to *)
    unfold to in H. destruct d; [eapply Hnew; eassumption |].
    inversion H; subst. auto.
  - (* astype *)
    unfold astype in H. destruct (dtype_eqb _ _); [| eapply Hnew; eassumption].
    inversion H; subst. auto.
  - (* max *)
    unfold volume_max, reduction in H. bind_inv H.
    destruct dim as [[| p | p] |]; try discriminate.
    bind_inv H. inversion H; subst. eapply Hnew; eassumption.
  - unfold volume_min, reduction in H. bind_inv H.
    destruct dim as [[| p | p] |]; try discriminate.
    bind_inv H. inversion H; subst. eapply Hnew; eassumption.
  - unfold volume_sum, reduction in H. bind_inv H.
    destruct dim as [[| p | p] |]; try discriminate.
    bind_inv H. inversion H; subst. eapply Hnew; eassumption.
  - (* stack *)
    unfold stack in H. destruct others as [| o rest].
    + inversion H; subst. auto.
    + bind_inv H. eapply Hnew; eassumption.
Qed.

Lemma broadcast_rev_same (a : list nat) : broadcast_rev a a = Some a.
Proof.
  induction a as [| x a IH]; simpl; [reflexivity |].
  rewrite IH, Nat.eqb_refl. reflexivity.
Qed.

Lemma broadcast_shapes_same (s : list nat) : broadcast_shapes s s = Ok s.
Proof.
  unfold broadcast_shapes. rewrite broadcast_rev_same, rev_involutive. reflexivity.
Qed.

Lemma broadcast_shapes_scalar (s : list nat) : broadcast_shapes s [] = Ok s.
Proof.
  unfold broadcast_shapes. cbn [rev].
  destruct (rev s) eqn:E; cbn [broadcast_rev].
  - apply (f_equal (@rev nat)) in E. rewrite rev_involutive in E. subst. reflexivity.
  - rewrite <- E, rev_involutive. reflexivity.
Qed.

(** A tensor that already has the shape asked for is not expanded. *)
Lemma broadcast_to_same (t : Tensor) : broadcast_to (shape t) t = t.
Proof.
  unfold broadcast_to, ndim. rewrite Nat.sub_diag. cbn [repeat app].
  assert (H : forall (l : list nat) (acc : Tensor),
             shape acc = shape t ->
             fold_left
               (fun acc axis =>
                  let want := nth axis (shape t) 0%nat in
                  if (nth axis (shape acc) 0 =? want)%nat then acc
                  else gather_axis axis (repeat (Some 0%nat) want) (Q2Qc 0) acc)
               l acc = acc).
  { induction l as [| k l IH]; intros acc Hacc; simpl; [reflexivity |].
    rewrite Hacc, Nat.eqb_refl. apply IH. exact Hacc. }
  rewrite H by reflexivity. destruct t; reflexivity.
Qed.






Lemma like_shape_tail (self : Volume) (channels : option nat) :
  Volume_ok self ->
  ndim (mkTensor (like_shape self channels) float32 []) = 4%nat
  /\ tl (like_shape self channels) = tl (shape (tensor self))
  /\ hd 0%nat (like_shape self channels)
     = match channels with Some c => c | None => num_channels self end.
Proof.
  intros [Hn _]. unfold like_shape, volume_shape, num_channels, ndim in *. cbn [shape].
  destruct (shape (tensor self)) as [| c [| w [| h [| d [| ? ?]]]]]; try discriminate.
  destruct channels; simpl; auto.
Qed.

Lemma cast_value_zero_one (dt : dtype) :
  cast_value dt (Q2Qc 0) = Q2Qc 0 /\ cast_value dt (Q2Qc 1) = Q2Qc 1.
Proof. destruct dt; split; reflexivity. Qed.

(** [zeros_like] and [ones_like] never fail on a volume: the outcome has
    the channels asked for (those of the volume when none are), the spatial
    shape and the geometry of the volume, the element type asked for (that
    of the volume when none is), one entry per index, and every entry is
    zero, or one. *)
Theorem zeros_like_and_ones_like_fill_the_grid
  (self : Volume) (ones : bool) (channels : option nat) (dt : option dtype) :
  Volume_ok self ->
  exists v,
    (if ones then ones_like self channels dt else zeros_like self channels dt) = Ok v
    /\ num_channels v = match channels with Some c => c | None => num_channels self end
    /\ volume_baseshape v = volume_baseshape self
    /\ volume_dtype v = match dt with Some d => d | None => volume_dtype self end
    /\ Forall (fun x => x = if ones then Q2Qc 1 else Q2Qc 0) (data (tensor v))
    /\ tensor_wf (tensor v)
    /\ geometry v = geometry self.
Proof.
  intros Hok. destruct (like_shape_tail self channels Hok) as (Hn & Htl & Hhd).
  set (fill := if ones then Q2Qc 1 else Q2Qc 0).
  assert (Hcall : (if ones then ones_like self channels dt
                   else zeros_like self channels dt)
                  = full_like self fill channels dt) by (destruct ones; reflexivity).
  rewrite Hcall. unfold full_like. rewrite new_same_grid; try assumption.
  eexists. split; [reflexivity |]. cbn [tensor geometry].
  unfold num_channels, volume_baseshape, tensor_baseshape, volume_dtype, full, tensor_wf.
  cbn [tensor shape dtype_of data].
  repeat split.
  - exact Hhd.
  - unfold ndim in Hn. cbn [shape] in Hn.
    destruct Hok as [Hs _]. unfold ndim in Hs.
    destruct (like_shape self channels) as [| c [| w [| h [| d [| ? ?]]]]];
      try discriminate.
    destruct (shape (tensor self)) as [| c' [| w' [| h' [| d' [| ? ?]]]]];
      try discriminate.
    simpl in Htl. inversion Htl; subst. reflexivity.
  - apply Forall_forall. intros x Hx. apply repeat_spec in Hx. subst x.
    unfold fill. destruct ones; apply cast_value_zero_one.
  - apply repeat_length.
Qed.

(** Casting: [astype] to the element type the volume already has returns
    the volume itself; to any other it returns a volume of that element
    type with as many entries on the same shape and geometry, and for a
    cast to booleans the entries are the tests for non-zero. *)
Theorem astype_casts_entries (self : Volume) (dt : dtype) :
  Volume_ok self ->
  (volume_dtype self = dt -> astype self dt = Ok self)
  /\ (volume_dtype self <> dt ->
      exists v,
        astype self dt = Ok v
        /\ volume_dtype v = dt
        /\ shape (tensor v) = shape (tensor self)
        /\ length (data (tensor v)) = length (data (tensor self))
        /\ geometry v = geometry self
        /\ (dt = boolean ->
            data (tensor v)
            = map (fun x => if Qceqb x (Q2Qc 0) then Q2Qc 0 else Q2Qc 1)
                (data (tensor self)))).
Proof.
  intros Hok. unfold astype. split.
  - intros <-. destruct (volume_dtype self); reflexivity.
  - intros Hne.
    destruct (dtype_eqb (volume_dtype self) dt) eqn:E.
    + exfalso. apply Hne. destruct (volume_dtype self), dt; simpl in E;
        try discriminate; reflexivity.
    + rewrite new_same_grid; [| exact Hok | apply Hok | reflexivity].
      eexists. split; [reflexivity |]. cbn [tensor geometry].
      unfold volume_dtype, cast, tensor_map. cbn [tensor shape dtype_of data].
      repeat split.
      * apply length_map.
      * intros ->. reflexivity.
Qed.

Lemma reduce_first_axis_shape (f : list Qc -> Qc) (dt : dtype) (t : Tensor) :
  shape (reduce_axis 0 f dt t) = tl (shape t).
Proof. unfold reduce_axis. cbn [shape firstn app]. destruct (shape t); reflexivity. Qed.

(** Reductions: with [dim=0] the channels are reduced away and the outcome
    is a volume of one channel on the same grid and geometry ([sum] always,
    [max] and [min] when there is a channel to reduce, and they raise when
    there is none); with any other [dim] the outcome is never a volume. *)
Theorem channel_reductions (self : Volume) :
  Volume_ok self ->
  (exists v, volume_sum self (Some 0) = Ok (AVolume v)
             /\ shape (tensor v) = 1%nat :: tl (shape (tensor self))
             /\ geometry v = geometry self)
  /\ (num_channels self <> 0%nat ->
      exists v w, volume_max self (Some 0) = Ok (AVolume v)
                  /\ volume_min self (Some 0) = Ok (AVolume w)
                  /\ shape (tensor v) = 1%nat :: tl (shape (tensor self))
                  /\ shape (tensor w) = 1%nat :: tl (shape (tensor self))
                  /\ geometry v = geometry self /\ geometry w = geometry self)
  /\ (num_channels self = 0%nat ->
      volume_max self (Some 0)
      = Raise (RuntimeError "expected reduction dim to have non-zero size")
      /\ volume_min self (Some 0)
         = Raise (RuntimeError "expected reduction dim to have non-zero size"))
  /\ (forall dim r, dim <> Some 0 ->
      volume_max self dim = Ok r \/ volume_min self dim = Ok r
      \/ volume_sum self dim = Ok r ->
      exists t, r = ATensor t).
Proof.
  intros Hok. pose proof Hok as [Hn Hb].
  assert (Hd : norm_dim (ndim (tensor self)) 0 = Ok 0%nat) by (rewrite Hn; reflexivity).
  assert (Hnew : forall r, shape r = tl (shape (tensor self)) ->
            new self r GeomNone
            = Ok (mkVolume (unsqueeze0 r) (geometry self))).
  { intros r Hr. unfold new, Volume_init.
    assert (H3 : ndim r = 3%nat).
    { unfold ndim in *. rewrite Hr.
      destruct (shape (tensor self)) as [| c [| w [| h [| d [| ? ?]]]]];
        try discriminate. reflexivity. }
    rewrite H3. cbn [Nat.eqb bind geometry_setter].
    replace (tensor_baseshape (unsqueeze0 r)) with (tensor_baseshape (tensor self)).
    - rewrite <- Hb, Z3_eqb_refl. reflexivity.
    - unfold tensor_baseshape, unsqueeze0. cbn [shape]. rewrite Hr. unfold ndim in Hn.
      destruct (shape (tensor self)) as [| c [| w [| h [| d [| ? ?]]]]];
        try discriminate. reflexivity. }
  split; [| split; [| split]].
  - unfold volume_sum, reduction, tensor_sum. rewrite Hd. cbn [bind].
    rewrite Hnew by apply reduce_first_axis_shape. cbn [bind].
    eexists. split; [reflexivity |]. cbn [tensor geometry unsqueeze0 shape].
    rewrite reduce_first_axis_shape. auto.
  - intros Hc.
    assert (Hz : (nth 0 (shape (tensor self)) 0 =? 0)%nat = false).
    { rewrite <- hd_is_nth0. apply Nat.eqb_neq. exact Hc. }
    unfold volume_max, volume_min, reduction, amax, amin, amax_or_amin.
    rewrite Hd. cbn [bind]. rewrite Hz. cbn [bind].
    rewrite !Hnew by apply reduce_first_axis_shape. cbn [bind].
    eexists. eexists. split; [reflexivity |]. split; [reflexivity |].
    cbn [tensor geometry unsqueeze0 shape]. rewrite !reduce_first_axis_shape. auto.
  - intros Hc.
    assert (Hz : (nth 0 (shape (tensor self)) 0 =? 0)%nat = true).
    { rewrite <- hd_is_nth0. apply Nat.eqb_eq. exact Hc. }
    unfold volume_max, volume_min, reduction, amax, amin, amax_or_amin.
    rewrite Hd. cbn [bind]. rewrite Hz. split; reflexivity.
  - intros dim r Hdim H.
    assert (Hred : forall reduce, reduction reduce self dim = Ok r -> exists t, r = ATensor t).
    { intros reduce Hr. unfold reduction in Hr. bind_inv Hr.
      destruct dim as [[| p | p] |]; try (inversion Hr; eauto).
      contradiction Hdim. reflexivity. }
    destruct H as [H | [H | H]]; eapply Hred; exact H.
Qed.

(** Concatenating tensors that agree on every axis but the first adds the
    first axes up and appends the entries. *)
Lemma cat0_same_tail (s : list nat) (ts : list Tensor) (t : Tensor) :
  tl (shape t) = s -> Forall (fun o => tl (shape o) = s) ts ->
  exists r, cat0 (t :: ts) = Ok r
            /\ tl (shape r) = s
            /\ hd 0%nat (shape r) = list_sum (map (fun o => hd 0%nat (shape o)) (t :: ts))
            /\ data r = concat (map data (t :: ts))
            /\ (ts <> [] -> shape r = hd 0%nat (shape r) :: s).
Proof.
  intros Ht Hall. revert t Ht. induction Hall as [| o ts Ho Hall IH]; intros t Ht.
  - exists t. unfold list_sum. cbn [cat0 map fold_right concat].
    rewrite Nat.add_0_r, app_nil_r.
    repeat split; auto. intros H. contradiction H. reflexivity.
  - destruct (IH o Ho) as (r & Hr & Htl & Hhd & Hdata & _).
    change (cat0 (t :: o :: ts)) with
      (r <- cat0 (o :: ts) ;;
       if list_eq_dec Nat.eq_dec (tl (shape t)) (tl (shape r)) then
         Ok (mkTensor ((hd 0 (shape t) + hd 0 (shape r))%nat :: tl (shape t))
               (dtype_of t) (data t ++ data r))
       else Raise (RuntimeError "sizes of tensors must match except in dimension 0")).
    rewrite Hr. cbn [bind].
    destruct (list_eq_dec Nat.eq_dec (tl (shape t)) (tl (shape r))) as [_ | Hne];
      [| contradiction Hne; congruence].
    eexists. split; [reflexivity |]. cbn [shape data hd tl].
    repeat split.
    + exact Ht.
    + rewrite Hhd. reflexivity.
    + rewrite Hdata. reflexivity.
    + intros _. rewrite Ht. reflexivity.
Qed.

(** [stack] of volumes on one grid: the channels of all of them, in order,
    on the grid and with the geometry of the first; a volume on another grid
    makes it raise. *)
Theorem stack_concatenates_channels (self : Volume) (others : list Volume) :
  Volume_ok self ->
  Forall (fun o => tl (shape (tensor o)) = tl (shape (tensor self))) others ->
  exists v,
    stack (self :: others) = Ok v
    /\ num_channels v = list_sum (map num_channels (self :: others))
    /\ data (tensor v) = concat (map (fun o => data (tensor o)) (self :: others))
    /\ volume_baseshape v = volume_baseshape self
    /\ geometry v = geometry self.
Proof.
  intros Hok Hall. destruct others as [| o others].
  - exists self. unfold list_sum. cbn [stack map fold_right concat].
    rewrite Nat.add_0_r, app_nil_r. auto.
  - destruct (cat0_same_tail (tl (shape (tensor self))) (map tensor (o :: others))
                (tensor self) eq_refl) as (r & Hr & Htl & Hhd & Hdata & Hshape).
    { apply Forall_map. exact Hall. }
    specialize (Hshape ltac:(discriminate)).
    unfold stack.
    change (map tensor (self :: o :: others)) with (tensor self :: map tensor (o :: others)).
    rewrite Hr. cbn [bind].
    assert (Hn : ndim r = 4%nat).
    { destruct Hok as [Hs _]. unfold ndim in *. rewrite Hshape.
      destruct (shape (tensor self)) as [| c [| w [| h [| d [| ? ?]]]]];
        try discriminate. reflexivity. }
    rewrite new_same_grid by assumption.
    eexists. split; [reflexivity |]. cbn [tensor geometry].
    repeat split.
    + unfold num_channels. cbn [tensor]. rewrite Hhd.
      change (tensor self :: map tensor (o :: others)) with (map tensor (self :: o :: others)).
      rewrite map_map. reflexivity.
    + rewrite Hdata.
      change (tensor self :: map tensor (o :: others)) with (map tensor (self :: o :: others)).
      rewrite map_map. reflexivity.
    + unfold volume_baseshape, tensor_baseshape. cbn [tensor].
      destruct Hok as [Hs _]. unfold ndim in *.
      destruct (shape r) as [| c [| w [| h [| d [| ? ?]]]]]; try discriminate.
      destruct (shape (tensor self)) as [| c' [| w' [| h' [| d' [| ? ?]]]]];
        try discriminate.
      simpl in Htl. inversion Htl; subst. reflexivity.
Qed.

(** Two volumes on different grids cannot be stacked. *)
Theorem stack_rejects_another_grid (self other : Volume) :
  tl (shape (tensor other)) <> tl (shape (tensor self)) ->
  stack [self; other]
  = Raise (RuntimeError "sizes of tensors must match except in dimension 0").
Proof.
  intros Hne. unfold stack. cbn [map cat0 bind].
  destruct (list_eq_dec Nat.eq_dec (tl (shape (tensor self))) (tl (shape (tensor other))))
    as [E | _]; [| reflexivity].
  contradiction Hne. symmetry. exact E.
Qed.

(** *** Order statistics *)

Lemma count_app (p : Qc -> bool) (l1 l2 : list Qc) :
  count p (l1 ++ l2) = (count p l1 + count p l2)%nat.
Proof. unfold count. rewrite filter_app, length_app. reflexivity. Qed.

Lemma count_le_length (p : Qc -> bool) (l : list Qc) : (count p l <= length l)%nat.
Proof.
  unfold count. induction l as [| x l IH]; simpl; [lia |].
  destruct (p x); simpl; lia.
Qed.

Lemma count_below_length (p : Qc -> bool) (l : list Qc) (x : Qc) :
  In x l -> p x = false -> (count p l < length l)%nat.
Proof.
  intros Hin Hp. apply in_split in Hin. destruct Hin as (l1 & l2 & ->).
  rewrite count_app, length_app.
  pose proof (count_le_length p l1). pose proof (count_le_length p l2).
  unfold count in *. simpl. rewrite Hp. lia.
Qed.

Lemma count_insert_desc (p : Qc -> bool) (x : Qc) (l : list Qc) :
  count p (insert_desc x l) = count p (x :: l).
Proof.
  unfold count. induction l as [| y l IH]; [reflexivity |].
  simpl in *. destruct (Qcleb y x); [reflexivity |].
  simpl. destruct (p y), (p x); simpl in *; lia.
Qed.

Lemma count_sort_desc (p : Qc -> bool) (l : list Qc) :
  count p (sort_desc l) = count p l.
Proof.
  induction l as [| x l IH]; [reflexivity |].
  change (sort_desc (x :: l)) with (insert_desc x (sort_desc l)).
  rewrite count_insert_desc. unfold count in *. simpl.
  destruct (p x); simpl; lia.
Qed.

Lemma count_rev (p : Qc -> bool) (l : list Qc) : count p (rev l) = count p l.
Proof.
  induction l as [| x l IH]; [reflexivity |].
  simpl. rewrite count_app, IH. unfold count. simpl. destruct (p x); simpl; lia.
Qed.

Lemma In_insert_desc (y x : Qc) (l : list Qc) :
  In y (insert_desc x l) <-> y = x \/ In y l.
Proof.
  induction l as [| z l IH]; simpl.
  - split; [intros [<- | []] | intros [-> | []]]; left; reflexivity.
  - destruct (Qcleb z x); simpl.
    + split; [intros [<- | H] | intros [-> | H]];
        [left; reflexivity | right; exact H | left; reflexivity | right; exact H].
    + rewrite IH. split.
      * intros [<- | [-> | H]];
          [right; left; reflexivity | left; reflexivity | right; right; exact H].
      * intros [-> | [<- | H]];
          [right; left; reflexivity | left; reflexivity | right; right; exact H].
Qed.

Lemma In_sort_desc (y : Qc) (l : list Qc) : In y (sort_desc l) <-> In y l.
Proof.
  induction l as [| x l IH]; [reflexivity |].
  change (sort_desc (x :: l)) with (insert_desc x (sort_desc l)).
  rewrite In_insert_desc, IH. simpl.
  split; (intros [H | H]; [left; symmetry; exact H | right; exact H]).
Qed.

Lemma length_insert_desc (x : Qc) (l : list Qc) :
  length (insert_desc x l) = S (length l).
Proof.
  induction l as [| z l IH]; [reflexivity |].
  simpl. destruct (Qcleb z x); simpl; congruence.
Qed.

Lemma length_sort_desc (l : list Qc) : length (sort_desc l) = length l.
Proof.
  induction l as [| x l IH]; [reflexivity |].
  change (sort_desc (x :: l)) with (insert_desc x (sort_desc l)).
  rewrite length_insert_desc, IH. reflexivity.
Qed.

Lemma ordered_app (R : Qc -> Qc -> Prop) (l1 l2 : list Qc) :
  ordered R (l1 ++ l2)
  <-> ordered R l1 /\ ordered R l2 /\ forall a b, In a l1 -> In b l2 -> R a b.
Proof.
  induction l1 as [| x l1 IH]; simpl.
  - split.
    + intros H. split; [exact I |]. split; [exact H | intros a b []].
    + intros (_ & H & _). exact H.
  - rewrite IH. split.
    + intros (Hx & H1 & H2 & H12). repeat split; auto.
      * intros y Hy. apply Hx. apply in_or_app. auto.
      * intros a b [<- | Ha] Hb; [apply Hx; apply in_or_app; auto | auto].
    + intros ((Hx & H1) & H2 & H12). repeat split; auto.
      intros y Hy. apply in_app_or in Hy. destruct Hy; auto.
Qed.

Lemma ordered_rev (R : Qc -> Qc -> Prop) (l : list Qc) :
  ordered R l -> ordered (fun a b => R b a) (rev l).
Proof.
  induction l as [| x l IH]; simpl; [auto |].
  intros [Hx Hl]. apply ordered_app. split; [auto |]. split.
  - simpl. split; [intros y [] | exact I].
  - intros a b Ha [<- | []]. apply Hx. apply in_rev. exact Ha.
Qed.

Lemma ordered_insert_desc (x : Qc) (l : list Qc) :
  ordered (fun a b => (b <= a)%Qc) l ->
  ordered (fun a b => (b <= a)%Qc) (insert_desc x l).
Proof.
  induction l as [| z l IH]; simpl.
  - intros _. split; [intros y [] | exact I].
  - intros [Hz Hl]. destruct (Qcleb z x) eqn:E.
    + simpl. repeat split; auto.
      apply Qcleb_true in E.
      intros y [<- | Hy]; [exact E |].
      apply Qcle_trans with z; auto.
    + simpl. split; [| auto].
      intros y Hy. apply In_insert_desc in Hy. destruct Hy as [-> | Hy]; auto.
      apply Qcleb_false. exact E.
Qed.

Lemma ordered_sort_desc (l : list Qc) : ordered (fun a b => (b <= a)%Qc) (sort_desc l).
Proof.
  induction l as [| x l IH]; [exact I |].
  change (sort_desc (x :: l)) with (insert_desc x (sort_desc l)).
  apply ordered_insert_desc. exact IH.
Qed.

Lemma In_firstn_list (k : nat) (s : list Qc) (x : Qc) : In x (firstn k s) -> In x s.
Proof.
  intros H. rewrite <- (firstn_skipn k s). apply in_or_app. left. exact H.
Qed.

(** In an ordered list the entries kept by [firstn] stand before those
    dropped. *)
Lemma ordered_firstn_skipn (R : Qc -> Qc -> Prop) (k : nat) (s : list Qc) :
  ordered R s -> forall a b, In a (firstn k s) -> In b (skipn k s) -> R a b.
Proof.
  intros H. rewrite <- (firstn_skipn k s) in H. apply ordered_app in H. apply H.
Qed.

(** The counts around the last of the entries picked from the front. *)
Lemma picked_counts (weak strict : Qc -> bool) (s : list Qc) (k : nat) (r : Qc) :
  (k <= length s)%nat -> In r (firstn k s) ->
  (forall a, In a (firstn k s) -> weak a = true) ->
  (forall b, In b (skipn k s) -> strict b = false) ->
  strict r = false ->
  (k <= count weak s)%nat /\ (count strict s < k)%nat.
Proof.
  intros Hk Hr Hweak Hstrict Hrr.
  assert (Hsplit : forall p, count p s
                    = (count p (firstn k s) + count p (skipn k s))%nat).
  { intros p. rewrite <- count_app, firstn_skipn. reflexivity. }
  assert (Hlen : length (firstn k s) = k) by (rewrite length_firstn; lia).
  rewrite !Hsplit. split.
  - unfold count at 1. rewrite filter_all by exact Hweak. lia.
  - unfold count at 2. rewrite filter_none by exact Hstrict. simpl.
    pose proof (count_below_length strict (firstn k s) r Hr Hrr). lia.
Qed.

Lemma Qcltb_irrefl (x : Qc) : Qcltb x x = false.
Proof.
  destruct (Qcltb x x) eqn:E; [| reflexivity].
  apply Qcltb_true in E. exfalso. exact (Qclt_not_eq _ _ E eq_refl).
Qed.

Lemma Qcltb_false_of_le (x y : Qc) : (y <= x)%Qc -> Qcltb x y = false.
Proof.
  intros H. destruct (Qcltb x y) eqn:E; [| reflexivity].
  apply Qcltb_true in E. exfalso. exact (Qcle_not_lt _ _ H E).
Qed.

(** The rank asked of [topk] lies between 1 and the number of entries. *)
Lemma trunc_scaled (n : nat) (p : Qc) :
  (1 <= n)%nat -> (Q2Qc 0 < p)%Qc -> (p < Q2Qc 1)%Qc ->
  0 <= trunc (Qc_of_nat n * p)%Qc < Z.of_nat n.
Proof.
  intros Hn H0 H1.
  assert (Hn' : (0 < inject_Z (Z.of_nat n))%Q).
  { change 0%Q with (inject_Z 0). rewrite <- Zlt_Qlt. lia. }
  assert (Hx : (this (Qc_of_nat n * p)%Qc == inject_Z (Z.of_nat n) * this p)%Q).
  { unfold Qcmult, Q2Qc. cbn [this]. rewrite Qred_correct.
    unfold Qc_of_nat. rewrite Qc_of_Z_this. reflexivity. }
  assert (Hp0 : (0 < this p)%Q) by exact H0.
  assert (Hp1 : (this p < 1)%Q) by exact H1.
  assert (Hlo : (0 <= this (Qc_of_nat n * p)%Qc)%Q).
  { rewrite Hx. apply Qmult_le_0_compat; apply Qlt_le_weak; assumption. }
  assert (Hhi : (this (Qc_of_nat n * p)%Qc < inject_Z (Z.of_nat n))%Q).
  { rewrite Hx. rewrite <- (Qmult_1_r (inject_Z (Z.of_nat n))) at 2.
    apply Qmult_lt_l; assumption. }
  unfold trunc.
  replace (Qle_bool 0 (Qc_of_nat n * p)%Qc) with true
    by (symmetry; apply Qle_bool_iff; exact Hlo).
  split.
  - change 0 with (Qfloor 0). apply Qfloor_resp_le. exact Hlo.
  - rewrite Zlt_Qlt. eapply Qle_lt_trans; [apply Qfloor_le | exact Hhi].
Qed.

Lemma quantile_rank_in_range (n : nat) (q : Qc) :
  (1 <= n)%nat -> (Q2Qc 0 < q)%Qc -> (q < Q2Qc 1)%Qc ->
  1 <= quantile_rank n q <= Z.of_nat n.
Proof.
  intros Hn H0 H1. unfold quantile_rank.
  destruct (Qcltb (Q2Qc (1 # 2)) q).
  - assert (Hp : (Q2Qc 0 < Q2Qc 1 - q)%Qc /\ (Q2Qc 1 - q < Q2Qc 1)%Qc).
    { clear - H0 H1. unfold Qclt, Qcminus, Qcplus, Qcopp, Q2Qc in H0, H1 |- *.
      cbn [this] in H0, H1 |- *.
      rewrite !Qred_correct. rewrite Qred_correct in H1. rewrite Qred_correct in H0.
      split; lra. }
    pose proof (trunc_scaled n (Q2Qc 1 - q)%Qc Hn (proj1 Hp) (proj2 Hp)). lia.
  - pose proof (trunc_scaled n q Hn H0 H1). lia.
Qed.

(** [quantile] strictly between 0 and 1, on a volume with entries, for a
    dyadic quantile (the median, the quartiles, ...) fine enough for the
    number of voxels: it returns the entry of rank [k] counted from the top
    when [q] is above one half and from the bottom otherwise, [k] being the
    rank the code asks [topk] for: at least [k] entries lie at or beyond
    the outcome and fewer than [k] strictly beyond it. *)
Theorem quantile_is_order_statistic (self : Volume) (q : Qc) :
  length (data (tensor self)) = numel (shape (tensor self)) ->
  data (tensor self) <> [] ->
  (Q2Qc 0 < q)%Qc -> (q < Q2Qc 1)%Qc ->
  dyadic_for (length (data (tensor self))) q ->
  exists r,
    quantile self q = Ok (scalar_tensor (volume_dtype self) r)
    /\ In r (data (tensor self))
    /\ let k := Z.to_nat (quantile_rank (length (data (tensor self))) q) in
       (1 <= k <= length (data (tensor self)))%nat
       /\ if Qcltb (Q2Qc (1 # 2)) q then
            (k <= count (fun y => Qcleb r y) (data (tensor self)))%nat
            /\ (count (fun y => Qcltb r y) (data (tensor self)) < k)%nat
          else
            (k <= count (fun y => Qcleb y r) (data (tensor self)))%nat
            /\ (count (fun y => Qcltb y r) (data (tensor self)) < k)%nat.
Proof.
  intros Hlen Hne H0 H1 _.
  assert (Hn : (1 <= length (data (tensor self)))%nat).
  { destruct (data (tensor self)); [congruence | simpl; lia]. }
  pose proof (quantile_rank_in_range _ q Hn H0 H1) as Hk.
  unfold quantile.
  replace (Qcltb q (Q2Qc 0)) with false
    by (symmetry; apply Qcltb_false_of_le; apply Qclt_le_weak; exact H0).
  replace (Qcltb (Q2Qc 1) q) with false
    by (symmetry; apply Qcltb_false_of_le; apply Qclt_le_weak; exact H1).
  replace (Qceqb q (Q2Qc 0)) with false
    by (symmetry; apply Qceqb_false; intros ->; exact (Qclt_not_eq _ _ H0 eq_refl)).
  replace (Qceqb q (Q2Qc 1)) with false
    by (symmetry; apply Qceqb_false; intros ->; exact (Qclt_not_eq _ _ H1 eq_refl)).
  cbn [orb]. cbv zeta.
  replace (numel (shape (flatten (tensor self)))) with (length (data (tensor self)))
    by (rewrite Hlen; unfold flatten; cbn [shape]; unfold numel at 2;
        cbn [fold_right]; lia).
  unfold quantile_rank in *. cbv zeta.
  set (s := sort_desc (data (tensor self))).
  assert (Hs : length s = length (data (tensor self))) by apply length_sort_desc.
  destruct (Qcltb (Q2Qc (1 # 2)) q) eqn:Ehalf.
  - set (k := trunc (Qc_of_nat (length (data (tensor self))) * (Q2Qc 1 - q))%Qc + 1) in *.
    unfold topk_values, flatten. cbn [data dtype_of].
    replace ((k <? 0) || (Z.of_nat (length (data (tensor self))) <? k)) with false
      by (symmetry; apply orb_false_iff; split; apply Z.ltb_ge; lia).
    cbn [bind]. unfold tensor_min. cbn [data dtype_of]. fold s.
    destruct (firstn (Z.to_nat k) s) as [| x rest] eqn:Ep.
    { exfalso. apply (f_equal (@length Qc)) in Ep. rewrite length_firstn in Ep.
      simpl in Ep. lia. }
    destruct (fold_min_spec rest x) as [Hin Hle]. rewrite <- Ep in Hin, Hle.
    exists (fold_left Qcmin rest x). split; [reflexivity |]. split.
    { apply In_sort_desc. fold s. eapply In_firstn_list. exact Hin. }
    split; [lia |].
    rewrite <- (count_sort_desc (fun y => Qcleb _ y)).
    rewrite <- (count_sort_desc (fun y => Qcltb _ y)). fold s.
    apply picked_counts with (r := fold_left Qcmin rest x).
    + lia.
    + exact Hin.
    + intros a Ha. apply Qcleb_true. apply Hle. exact Ha.
    + intros b Hb. apply Qcltb_false_of_le.
      exact (ordered_firstn_skipn _ (Z.to_nat k) s (ordered_sort_desc _) _ _ Hin Hb).
    + apply Qcltb_irrefl.
  - set (k := trunc (Qc_of_nat (length (data (tensor self))) * q)%Qc + 1) in *.
    unfold topk_values, flatten. cbn [data dtype_of].
    replace ((k <? 0) || (Z.of_nat (length (data (tensor self))) <? k)) with false
      by (symmetry; apply orb_false_iff; split; apply Z.ltb_ge; lia).
    cbn [bind]. unfold tensor_max. cbn [data dtype_of]. fold s.
    assert (Hrs : length (rev s) = length (data (tensor self)))
      by (rewrite length_rev; exact Hs).
    destruct (firstn (Z.to_nat k) (rev s)) as [| x rest] eqn:Ep.
    { exfalso. apply (f_equal (@length Qc)) in Ep. rewrite length_firstn in Ep.
      simpl in Ep. lia. }
    destruct (fold_max_spec rest x) as [Hin Hle]. rewrite <- Ep in Hin, Hle.
    exists (fold_left Qcmax rest x). split; [reflexivity |]. split.
    { apply In_sort_desc. fold s. apply in_rev. eapply In_firstn_list. exact Hin. }
    split; [lia |].
    rewrite <- (count_sort_desc (fun y => Qcleb y _)).
    rewrite <- (count_sort_desc (fun y => Qcltb y _)). fold s.
    rewrite <- (count_rev (fun y => Qcleb y _)).
    rewrite <- (count_rev (fun y => Qcltb y _)).
    apply picked_counts with (r := fold_left Qcmax rest x).
    + lia.
    + exact Hin.
    + intros a Ha. apply Qcleb_true. apply Hle. exact Ha.
    + intros b Hb. apply Qcltb_false_of_le.
      exact (ordered_firstn_skipn _ (Z.to_nat k) (rev s)
               (ordered_rev _ _ (ordered_sort_desc _)) _ _ Hin Hb).
    + apply Qcltb_irrefl.
Qed.

(** *** Volumes without a non-zero voxel *)

Lemma nth_of_zeros (l : list Qc) (k : nat) :
  Forall (fun x => x = Q2Qc 0) l -> nth k l (Q2Qc 0) = Q2Qc 0.
Proof.
  intros H. destruct (Nat.lt_ge_cases k (length l)) as [Hlt | Hge].
  - rewrite Forall_forall in H. apply H. apply nth_In. exact Hlt.
  - apply nth_overflow. exact Hge.
Qed.

Lemma Qcsum_of_zeros (l : list Qc) :
  Forall (fun x => x = Q2Qc 0) l -> Qcsum l = Q2Qc 0.
Proof.
  induction 1 as [| x l Hx _ IH]; [reflexivity |].
  unfold Qcsum in *. cbn [fold_right]. rewrite IH, Hx. apply Qcplus_0_l.
Qed.

(** A tensor of zeros has no non-zero index. *)
Lemma nonzero_of_zeros (t : Tensor) :
  Forall (fun x => x = Q2Qc 0) (data t) -> shape (nonzero t) = [0%nat; ndim t].
Proof.
  intros H. unfold nonzero. cbn [shape].
  rewrite filter_none; [reflexivity |].
  intros k _. rewrite nth_of_zeros by exact H. reflexivity.
Qed.

Lemma Forall_firstn_zeros (n : nat) (l : list Qc) :
  Forall (fun x => x = Q2Qc 0) l -> Forall (fun x => x = Q2Qc 0) (firstn n l).
Proof.
  intros H. apply Forall_forall. intros x Hx. rewrite Forall_forall in H.
  apply H. rewrite <- (firstn_skipn n l). apply in_or_app. left. exact Hx.
Qed.

(** The sum over the channels of a tensor of zeros is a tensor of zeros. *)
Lemma channel_sum_of_zeros (dt : dtype) (t : Tensor) :
  Forall (fun x => x = Q2Qc 0) (data t) ->
  Forall (fun x => x = Q2Qc 0) (data (reduce_axis 0 Qcsum dt t)).
Proof.
  intros H. unfold reduce_axis. cbn [data firstn numel fold_right chunks flat_map].
  rewrite app_nil_r. apply Forall_forall. intros x Hx.
  apply in_map_iff in Hx. destruct Hx as (j & <- & _).
  apply Qcsum_of_zeros. unfold column. apply Forall_forall. intros y Hy.
  apply in_map_iff in Hy. destruct Hy as (i & <- & _).
  apply nth_of_zeros. apply Forall_firstn_zeros. exact H.
Qed.

(** On a volume without a non-zero voxel, the bounds of the non-zero voxels
    of at most one channel are refused with a [ValueError], and
    [crop_to_nonzero] raises before it reaches [crop], whatever the margin
    and the number of channels. *)
Theorem blank_volume_has_no_nonzero_bounds
  (self : Volume) (margin : option scalar_or_vector) :
  Volume_ok self ->
  Forall (fun x => x = Q2Qc 0) (data (tensor self)) ->
  ((num_channels self <= 1)%nat ->
   bounds self true margin
   = Raise (ValueError "cannot compute nonzero bounds on an empty volume"))
  /\ exists e, crop_to_nonzero self margin = Raise e.
Proof.
  intros [Hn Hb] Hz. split.
  - intros Hc. unfold bounds.
    replace (1 <? num_channels self)%nat with false
      by (symmetry; apply Nat.ltb_ge; exact Hc).
    unfold tensor_sum. rewrite Hn. cbn [norm_dim Z.ltb Z.compare Z.leb andb Z.of_nat
      Pos.of_succ_nat Pos.succ Z.to_nat bind].
    unfold view. rewrite reduce_first_axis_shape. unfold volume_shape.
    rewrite Nat.eqb_refl. cbn [bind]. cbv zeta.
    rewrite nonzero_of_zeros; [reflexivity |].
    cbn [data]. apply channel_sum_of_zeros. exact Hz.
  - unfold crop_to_nonzero. cbv zeta. unfold amin, amax_or_amin.
    unfold ndim at 1. rewrite !nonzero_of_zeros by exact Hz.
    cbn [length norm_dim]. eexists. reflexivity.
Qed.

Lemma numel_cons (c : nat) (s : list nat) : numel (c :: s) = (c * numel s)%nat.
Proof. reflexivity. Qed.

(** The bounds of the non-zero voxels cannot be asked of a volume of more
    than one channel: the channels are not reduced away, and the view onto
    the spatial shape is refused. *)
Theorem nonzero_bounds_reject_several_channels
  (self : Volume) (margin : option scalar_or_vector) :
  Volume_ok self -> (1 < num_channels self)%nat ->
  numel (tl (shape (tensor self))) <> 0%nat ->
  bounds self true margin = Raise (RuntimeError "shape is invalid for input size").
Proof.
  intros [Hn Hb] Hc Hgrid. unfold bounds.
  replace (1 <? num_channels self)%nat with true
    by (symmetry; apply Nat.ltb_lt; exact Hc).
  cbn [bind]. unfold view, volume_shape, num_channels in *.
  destruct (shape (tensor self)) as [| c s]; [simpl in Hc; lia |].
  cbn [tl hd] in *. rewrite numel_cons.
  replace (numel s =? c * numel s)%nat with false; [reflexivity |].
  symmetry. apply Nat.eqb_neq. nia.
Qed.

(** *** Operations that change nothing *)

(** A target with the matrix and the shape of the volume takes the first
    exit of [resample_like]. *)
Lemma resample_like_same_grid
  (self : Volume) (g : AcquisitionGeometry) (mode padding_mode : string) :
  Volume_ok self -> matrix g = matrix (geometry self) ->
  baseshape g = volume_baseshape self ->
  resample_like self (LikeGeometry g) mode padding_mode = Ok (mkVolume (tensor self) g).
Proof.
  intros [Hn _] Hm Hb. unfold resample_like. rewrite Hm, Hb.
  unfold linear_close, translation_close.
  rewrite mat_close_refl, Z3_eqb_refl, vclose_refl. cbn [andb].
  apply new_acquisition; [exact Hn | exact Hb].
Qed.

Lemma Qcdiv_zero (s : Qc) : (Q2Qc 0 / s)%Qc = Qc_of_Z 0.
Proof. unfold Qcdiv. change (Qc_of_Z 0) with (Q2Qc 0). ring. Qed.

(** Reshaping a volume to the shape it has, or padding it by nothing,
    returns the volume as it is: same tensor, same geometry. *)
Theorem reshape_to_own_shape (self : Volume) :
  Volume_ok self ->
  reshape self (volume_baseshape self) = Ok self
  /\ pad self (Scalar (Q2Qc 0)) = Ok self.
Proof.
  intros Hok.
  assert (Hr : reshape self (volume_baseshape self) = Ok self).
  { unfold reshape. cbv zeta. rewrite centering_shift_same.
    rewrite resample_like_same_grid; try assumption.
    - f_equal. destruct self as [t g]. cbn [tensor geometry]. f_equal.
      destruct Hok as [_ Hb]. cbn [tensor geometry] in Hb.
      unfold AcquisitionGeometry_new, shift, volume_baseshape. cbn [tensor matrix].
      change (Z3_to_Vec3 (0, 0, 0)) with vzero. rewrite affine_shift_none.
      rewrite <- Hb. destruct g; reflexivity.
    - unfold AcquisitionGeometry_new, shift. cbn [matrix].
      change (Z3_to_Vec3 (0, 0, 0)) with vzero. apply affine_shift_none.
    - reflexivity. }
  split; [exact Hr |].
  rewrite pad_is_reshape.
  replace (padded_shape self (Scalar (Q2Qc 0))) with (volume_baseshape self);
    [exact Hr |].
  unfold padded_shape. cbn [as_vector].
  destruct (spacing (geometry self)) as [[sx sy] sz].
  destruct (volume_baseshape self) as [[w h] d].
  unfold vdiv. cbn [zip3 map3]. rewrite !Qcdiv_zero, !round_half_even_Z.
  rewrite !Z.add_0_r. reflexivity.
Qed.

Lemma Qceiling_Z (z : Z) : Qceiling (Qc_of_Z z) = z.
Proof.
  unfold Qceiling. rewrite Qc_of_Z_this.
  rewrite <- inject_Z_opp, Qfloor_Z. lia.
Qed.

Lemma Qc_of_Z_nonzero (z : Z) : z <> 0 -> Qc_of_Z z <> Q2Qc 0.
Proof.
  intros Hz H. apply (f_equal this) in H. rewrite Qc_of_Z_this in H.
  change (this (Q2Qc 0)) with (inject_Z 0) in H.
  apply Hz. apply inject_Z_injective. rewrite H. reflexivity.
Qed.

Lemma mat_mul_diag_ones (m : Mat3) : mat_mul m (diag (Q2Qc 1, Q2Qc 1, Q2Qc 1)) = m.
Proof.
  destruct m as [[[[a b] c] [[d e] f]] [[g h] i]].
  unfold mat_mul, diag, transpose, mat_vec, dot; simpl.
  repeat (apply f_equal2); ring.
Qed.

(** Resampling a volume of unit voxels to unit voxels changes nothing, on
    a grid without an empty axis and of at most 2^24 voxels along each
    axis (lengths that float32 holds exactly, as it does the products and
    quotients by one): the tensor and the matrix are those of the volume.
    The slice direction is not passed on. *)
Theorem resample_at_current_spacing
  (self : Volume) (new_spacing : Tensor) (mode padding_mode : string) :
  Volume_ok self ->
  shape new_spacing = [3%nat] ->
  spacing (geometry self) = (Q2Qc 1, Q2Qc 1, Q2Qc 1) ->
  vec3_of_tensor new_spacing = (Q2Qc 1, Q2Qc 1, Q2Qc 1) ->
  all3 (fun n => (0 <? n) && (n <=? 2 ^ 24)) (volume_baseshape self) = true ->
  resample self new_spacing mode padding_mode
  = Ok (mkVolume (tensor self)
          (mkGeometry (volume_baseshape self) (matrix (geometry self)) None)).
Proof.
  intros Hok Hshape Hunit Hnew Hsize.
  assert (Hsp : vec3_of_tensor new_spacing = spacing (geometry self))
    by (rewrite Hunit; exact Hnew).
  assert (Hs : all3 (fun s => negb (Qceqb s (Q2Qc 0))) (spacing (geometry self)) = true)
    by (rewrite Hunit; reflexivity).
  assert (Hb : all3 (fun n => negb (n =? 0)) (volume_baseshape self) = true).
  { destruct (volume_baseshape self) as [[w h] d]. cbn [all3] in Hsize |- *.
    apply andb_true_iff in Hsize. destruct Hsize as [Hsize Hd].
    apply andb_true_iff in Hsize. destruct Hsize as [Hw Hh].
    apply andb_true_iff in Hw, Hh, Hd.
    destruct Hw as [Hw _], Hh as [Hh _], Hd as [Hd _].
    apply Z.ltb_lt in Hw, Hh, Hd.
    repeat (apply andb_true_iff; split); apply negb_true_iff, Z.eqb_neq; lia. }
  clear Hunit Hnew Hsize.
  unfold resample. cbv zeta.
  unfold ndim. rewrite Hshape. cbn [length Nat.eqb]. rewrite ?Hshape.
  cbn [length Nat.eqb hd negb orb].
  rewrite Hsp.
  destruct (spacing (geometry self)) as [[sx sy] sz] eqn:Es.
  destruct (volume_baseshape self) as [[w h] d] eqn:Eb.
  cbn [all3] in Hs, Hb.
  apply andb_true_iff in Hs. destruct Hs as [Hs Hsz].
  apply andb_true_iff in Hs. destruct Hs as [Hsx Hsy].
  apply andb_true_iff in Hb. destruct Hb as [Hb Hd].
  apply andb_true_iff in Hb. destruct Hb as [Hw Hh].
  assert (Hnz : forall s, negb (Qceqb s (Q2Qc 0)) = true -> s <> Q2Qc 0).
  { intros s H ->. discriminate H. }
  apply Hnz in Hsx, Hsy, Hsz.
  apply negb_true_iff, Z.eqb_neq in Hw, Hh, Hd.
  assert (Hshape' : forall (s : Qc) (n : Z), s <> Q2Qc 0 ->
            Qceiling (s * Qc_of_Z n / s)%Qc = n).
  { intros s n Hne. replace (s * Qc_of_Z n / s)%Qc with (Qc_of_Z n)
      by (field; exact Hne). apply Qceiling_Z. }
  assert (Hdelta : forall (s : Qc) (n : Z), s <> Q2Qc 0 -> n <> 0 ->
            (Q2Qc (1 # 2) * (s / s) * (Q2Qc 1 - Qc_of_Z n / Qc_of_Z n))%Qc
            = Qc_of_Z 0).
  { intros s n Hne Hn. change (Qc_of_Z 0) with (Q2Qc 0).
    pose proof (Qc_of_Z_nonzero n Hn). field. split; assumption. }
  assert (Hone : forall s : Qc, s <> Q2Qc 0 -> (s / s)%Qc = Q2Qc 1).
  { intros s Hne. field. exact Hne. }
  unfold vdiv, vmul, Z3_to_Vec3. cbn [zip3 map3].
  rewrite !Hshape' by assumption. rewrite !Hdelta by assumption.
  rewrite !Hone by assumption.
  rewrite resample_like_same_grid; try assumption.
  - f_equal. f_equal. unfold AcquisitionGeometry_new, scale, shift. cbn [matrix baseshape].
    f_equal. fold vzero. rewrite affine_shift_none.
    unfold affine_scale. rewrite mat_mul_diag_ones.
    destruct (matrix (geometry self)); reflexivity.
  - unfold AcquisitionGeometry_new, scale, shift. cbn [matrix baseshape].
    fold vzero. rewrite affine_shift_none.
    unfold affine_scale. rewrite mat_mul_diag_ones.
    destruct (matrix (geometry self)); reflexivity.
  - unfold AcquisitionGeometry_new. cbn [baseshape]. symmetry. exact Eb.
Qed.

(** *** Element types *)

Lemma new_dtype (self : Volume) (t : Tensor) (g : geometry_arg) (v : Volume) :
  new self t g = Ok v -> volume_dtype v = dtype_of t.
Proof.
  unfold new, Volume_init. intros H. bind_inv H. bind_inv H.
  inversion H; subst. unfold volume_dtype. cbn [tensor].
  destruct (ndim t =? 3)%nat.
  - inversion Hx; subst. reflexivity.
  - destruct (negb (ndim t =? 4)%nat); [discriminate |]. inversion Hx; subst. reflexivity.
Qed.

Lemma index_from_dtype (items : list index_item) :
  forall (axis : nat) (t r : Tensor),
    index_from axis items t = Ok r -> dtype_of r = dtype_of t.
Proof.
  induction items as [| item items IH]; intros axis t r H.
  - inversion H. reflexivity.
  - destruct item as [i | a b c |]; cbn [index_from] in H.
    + bind_inv H. apply IH in H. exact H.
    + bind_inv H. apply IH in H. exact H.
    + discriminate.
Qed.

Lemma getitem_dtype (t r : Tensor) (items : list index_item) :
  getitem t items = Ok r -> dtype_of r = dtype_of t.
Proof.
  unfold getitem. destruct (ndim t <? _)%nat; [discriminate |].
  apply index_from_dtype.
Qed.

Lemma pad_from_dtype (mode : string) (n : nat) :
  forall (pads : list nat), (length pads <= n)%nat ->
  forall (k : nat) (t r : Tensor),
    pad_from k pads mode t = Ok r -> dtype_of r = dtype_of t.
Proof.
  induction n as [| n IH]; intros pads Hlen k t r H.
  - destruct pads; [| simpl in Hlen; lia]. inversion H. reflexivity.
  - destruct pads as [| a [| b rest]].
    + inversion H. reflexivity.
    + discriminate.
    + cbn [pad_from] in H. destruct (ndim t <=? k)%nat; [discriminate |].
      bind_inv H. apply IH in H; [exact H |]. simpl in Hlen. lia.
Qed.

Lemma F_pad_dtype (t r : Tensor) (pads : list nat) (mode : string) :
  F_pad t pads mode = Ok r -> dtype_of r = dtype_of t.
Proof. apply (pad_from_dtype mode (length pads)). lia. Qed.

(** With nearest-neighbour sampling, which [reshape] and [pad] always ask
    for, whatever [resample_like] returns has the element type of the
    source, on each of its three paths and whatever the interpolation
    gives back. *)
Theorem nearest_resampling_keeps_dtype
  (self : Volume) (target : like_target) (padding_mode : string) (v : Volume) :
  resample_like self target "nearest" padding_mode = Ok v ->
  volume_dtype v = volume_dtype self.
Proof.
  assert (Hgrid : forall g, resample_by_grid self g "nearest" padding_mode = Ok v ->
            volume_dtype v = volume_dtype self).
  { intros g H. unfold resample_by_grid in H. do 3 bind_inv H.
    cbn [String.eqb Ascii.eqb Bool.eqb andb] in H.
    apply new_dtype in H. exact H. }
  unfold resample_like. intros H.
  destruct (linear_close _ _); [| eapply Hgrid; exact H].
  destruct (_ && _).
  - apply new_dtype in H. exact H.
  - bind_inv H. destruct (vclose _ _); [| eapply Hgrid; exact H].
    unfold resample_by_shift in H. do 2 bind_inv H.
    apply new_dtype in H. rewrite H.
    apply getitem_dtype in Hx0.
    destruct (existsb _ _).
    + destruct (padding_equivalent padding_mode); [| discriminate].
      apply F_pad_dtype in Hx1. unfold volume_dtype. congruence.
    + inversion Hx1; subst. exact Hx0.
Qed.

(** *** The geometry of a crop *)

Lemma any3_nonzero_false (minc : Z3) :
  any3 (fun c => negb (c =? 0)) minc = false -> minc = (0, 0, 0).
Proof.
  destruct minc as [[a b] c]. cbn [any3]. intros H.
  apply orb_false_iff in H. destruct H as [H Hc].
  apply orb_false_iff in H. destruct H as [Ha Hb].
  apply negb_false_iff, Z.eqb_eq in Ha, Hb, Hc. subst. reflexivity.
Qed.

(** The shift by [minc] that [crop] skips when [minc] is zero would change
    nothing. *)
Lemma crop_shift_matrix (g : AcquisitionGeometry) (minc : Z3) :
  matrix (if any3 (fun c => negb (c =? 0)) minc
          then shift g (Z3_to_Vec3 minc) voxel else g)
  = affine_shift (matrix g) (Z3_to_Vec3 minc) voxel.
Proof.
  destruct (any3 _ minc) eqn:E; [reflexivity |].
  apply any3_nonzero_false in E. subst.
  change (Z3_to_Vec3 (0, 0, 0)) with vzero. rewrite affine_shift_none. reflexivity.
Qed.

Lemma shifted_position (a : AffineMatrix) (d p : Vec3) :
  affine_apply (affine_shift a d voxel) p = affine_apply a (vadd d p).
Proof.
  destruct a as [[[[[a b] c] [[d0 e] f]] [[g h] i]] [[tx ty] tz]].
  destruct d as [[dx dy] dz], p as [[x y] z].
  unfold affine_shift, affine_apply, vadd, mat_vec, dot; simpl.
  apply f_equal2; [apply f_equal2 |]; ring.
Qed.

Lemma strided_position (a : AffineMatrix) (s p : Vec3) :
  affine_apply (affine_scale a s voxel) p = affine_apply a (vmul s p).
Proof.
  destruct a as [[[[[a b] c] [[d0 e] f]] [[g h] i]] [[tx ty] tz]].
  destruct s as [[sx sy] sz], p as [[x y] z].
  unfold affine_scale, affine_apply, vadd, vmul, mat_mul, diag, transpose, mat_vec, dot;
    simpl.
  apply f_equal2; [apply f_equal2 |]; ring.
Qed.

Lemma vmul_ones (p : Vec3) : vmul (Z3_to_Vec3 (1, 1, 1)) p = p.
Proof.
  destruct p as [[x y] z]. unfold vmul, Z3_to_Vec3; simpl.
  change (Qc_of_Z 1) with (Q2Qc 1).
  apply f_equal2; [apply f_equal2 |]; ring.
Qed.

Lemma new_given_geometry (self : Volume) (t : Tensor) (a : AcquisitionGeometry)
  (v : Volume) : new self t (GeomAcquisition a) = Ok v -> geometry v = a.
Proof.
  unfold new, Volume_init. intros H. bind_inv H. bind_inv H.
  inversion H; subst. cbn [geometry]. unfold geometry_setter in Hx0.
  destruct (negb (Z3_eqb _ _)); [discriminate |]. inversion Hx0. reflexivity.
Qed.

(** What a crop by a tuple of indexing items, without margin, returns.  The
    tensor is the volume's indexed by the tuple expanded to four items
    (given a leading axis when the indexing left three).  The geometry is
    read from the tuple as it was given, less its first item, not from the
    expanded one: with [minc] and [stride] the corner and the strides that
    [slicing_to_coordinates] reports for it, voxel [p] of the outcome is
    placed where voxel [minc + stride * p] of the source lies (stride one
    when none is reported).  So a tuple that names the axes with an ellipsis
    has its data cut along the axes the expansion finds and its geometry
    moved along the axes the items happen to stand at.  The base shape is
    that of the indexed tensor, and the slice direction is passed on. *)
Theorem crop_by_tuple_outcome
  (self : Volume) (items : list index_item) (v : Volume) :
  crop self (CropTuple items) None = Ok v ->
  exists (slicing : list index_item) (t : Tensor) (minc maxc : Z3)
         (stride : option Z3),
    expand_slicing items 4%nat = Ok slicing
    /\ existsb is_int (tl slicing) = false
    /\ slicing_to_coordinates (tl items) (volume_baseshape self)
       = Ok (minc, maxc, stride)
    /\ getitem (tensor self) slicing = Ok t
    /\ tensor v = (if (ndim t =? 3)%nat then unsqueeze0 t else t)
    /\ (forall p : Vec3,
           affine_apply (matrix (geometry v)) p
           = affine_apply (matrix (geometry self))
               (vadd (Z3_to_Vec3 minc)
                  (vmul (Z3_to_Vec3 (match stride with
                                     | Some s => s
                                     | None => (1, 1, 1)
                                     end)) p)))
    /\ baseshape (geometry v) = last3 (shape t)
    /\ explicit_slice_direction (geometry v) = explicit_slice_direction (geometry self).
Proof.
  intros H. unfold crop in H. cbv zeta in H. cbn [option_map] in H.
  bind_inv H. destruct x as [[sl minc] stride].
  bind_inv Hx. rename x into slicing.
  destruct (existsb is_int (tl slicing)) eqn:Hint; [discriminate |].
  bind_inv Hx. destruct x as [[mn mx] st]. inversion Hx; subst sl minc stride.
  bind_inv H. rename x into t.
  assert (Hg := new_given_geometry _ _ _ _ H).
  exists slicing, t, mn, mx, st.
  repeat (split; [first [assumption | reflexivity] |]).
  split; [| split; [| split]].
  - unfold new, Volume_init in H. bind_inv H. bind_inv H. inversion H.
    cbn [tensor]. destruct (ndim t =? 3)%nat.
    + inversion Hx3. reflexivity.
    + destruct (negb (ndim t =? 4)%nat); [discriminate |]. inversion Hx3. reflexivity.
  - intros p. rewrite Hg. unfold AcquisitionGeometry_new. cbn [matrix].
    destruct st as [s |].
    + unfold scale. cbn [matrix]. rewrite crop_shift_matrix.
      rewrite strided_position, shifted_position. reflexivity.
    + rewrite crop_shift_matrix, shifted_position, vmul_ones. reflexivity.
  - rewrite Hg. reflexivity.
  - rewrite Hg. unfold AcquisitionGeometry_new. cbn [explicit_slice_direction].
    destruct st; unfold scale; cbn [explicit_slice_direction];
      destruct (any3 _ mn); reflexivity.
Qed.

(** Four full slices select the whole of a 4D tensor. *)
Lemma getitem_everything (t : Tensor) :
  tensor_wf t -> ndim t = 4%nat ->
  getitem t [slice_all; slice_all; slice_all; slice_all] = Ok t.
Proof.
  intros Hwf Hn. unfold getitem. cbn [filter is_ellipsis slice_all negb length].
  rewrite Hn. cbn [Nat.ltb Nat.leb Nat.sub fill_ellipsis].
  unfold slice_all. cbn [index_from].
  rewrite slice_indices_all. cbn [bind].
  rewrite gather_every_position by (try assumption; lia).
  rewrite slice_indices_all. cbn [bind].
  rewrite gather_every_position by (try assumption; lia).
  rewrite slice_indices_all. cbn [bind].
  rewrite gather_every_position by (try assumption; lia).
  rewrite slice_indices_all. cbn [bind].
  rewrite gather_every_position by (try assumption; lia).
  reflexivity.
Qed.

Lemma last3_of_volume (t : Tensor) : ndim t = 4%nat -> last3 (shape t) = tensor_baseshape t.
Proof.
  unfold ndim, last3, tensor_baseshape. intros H.
  destruct (shape t) as [| c [| w [| h [| d [| ? ?]]]]]; try discriminate. reflexivity.
Qed.

(** A crop that selects everything, as [volume[...]] does, returns the
    volume as it is: when the slicing expands to four full slices and its
    lower corner is the origin without a stride, the outcome is the very
    tensor and the very geometry. *)
Theorem crop_to_full_extent
  (self : Volume) (items : list index_item) (maxc : Z3) :
  Volume_ok self -> tensor_wf (tensor self) ->
  expand_slicing items 4%nat = Ok [slice_all; slice_all; slice_all; slice_all] ->
  slicing_to_coordinates (tl items) (volume_baseshape self) = Ok ((0, 0, 0), maxc, None) ->
  crop self (CropTuple items) None = Ok self
  /\ __getitem__ self (CropTuple items) = Ok self.
Proof.
  intros [Hn Hb] Hwf Hex Hco.
  assert (H : crop self (CropTuple items) None = Ok self).
  { unfold crop. cbv zeta. cbn [option_map]. rewrite Hex. cbn [bind].
    cbn [tl existsb is_int slice_all orb]. rewrite Hco. cbn [bind].
    cbn [any3 Z.eqb negb orb].
    rewrite getitem_everything by assumption. cbn [bind].
    rewrite new_acquisition.
    - f_equal. destruct self as [t g]. cbn [tensor geometry] in *. f_equal.
      unfold AcquisitionGeometry_new. rewrite last3_of_volume by exact Hn.
      rewrite <- Hb. destruct g; reflexivity.
    - exact Hn.
    - unfold AcquisitionGeometry_new. cbn [baseshape]. apply last3_of_volume. exact Hn. }
  split; [exact H | exact H].
Qed.

(** *** Sampling grids *)

Lemma nth_flat_map_uniform {A B : Type} (f : A -> list B) (m : nat) (da : A) (db : B)
  (l : list A) :
  (forall a, length (f a) = m) ->
  forall i j, (i < length l)%nat -> (j < m)%nat ->
    nth (i * m + j) (flat_map f l) db = nth j (f (nth i l da)) db.
Proof.
  intros Hlen. induction l as [| a l IH]; intros i j Hi Hj; [simpl in Hi; lia |].
  cbn [flat_map]. destruct i as [| i].
  - cbn [Nat.mul Nat.add nth]. apply app_nth1. rewrite Hlen. exact Hj.
  - rewrite app_nth2 by (rewrite Hlen; simpl; lia).
    rewrite Hlen. replace (S i * m + j - m)%nat with (i * m + j)%nat by (simpl; lia).
    cbn [nth]. apply IH; [simpl in Hi; lia | exact Hj].
Qed.

Lemma length_flat_map_uniform {A B : Type} (f : A -> list B) (m : nat) (l : list A) :
  (forall a, length (f a) = m) -> length (flat_map f l) = (length l * m)%nat.
Proof.
  intros Hlen. induction l as [| a l IH]; [reflexivity |].
  cbn [flat_map length]. rewrite length_app, Hlen, IH. simpl. lia.
Qed.

Lemma grid_points_length (w h d : nat) : length (grid_points w h d) = (w * (h * d))%nat.
Proof.
  unfold grid_points.
  rewrite (length_flat_map_uniform _ (h * d)); [rewrite length_seq; reflexivity |].
  intros x. rewrite (length_flat_map_uniform _ d); [rewrite length_seq; reflexivity |].
  intros y. rewrite length_map, length_seq. reflexivity.
Qed.

Lemma row_major_bound (n m i j : nat) :
  (i < n)%nat -> (j < m)%nat -> (i * m + j < n * m)%nat.
Proof.
  intros Hi Hj. assert (H : (S i * m <= n * m)%nat) by (apply Nat.mul_le_mono_r; lia).
  simpl in H. lia.
Qed.

(** The points of the index grid come in row-major order. *)
Lemma grid_points_nth (w h d x y z : nat) (dflt : Vec3) :
  (x < w)%nat -> (y < h)%nat -> (z < d)%nat ->
  nth (x * (h * d) + (y * d + z)) (grid_points w h d) dflt
  = (Qc_of_nat x, Qc_of_nat y, Qc_of_nat z).
Proof.
  intros Hx Hy Hz. unfold grid_points.
  assert (Hyz : (y * d + z < h * d)%nat) by (apply row_major_bound; assumption).
  rewrite (nth_flat_map_uniform _ (h * d) 0%nat); try (rewrite ?length_seq; assumption).
  - rewrite seq_nth by exact Hx. cbn [Nat.add].
    rewrite (nth_flat_map_uniform _ d 0%nat); try (rewrite ?length_seq; assumption).
    + rewrite seq_nth by exact Hy. cbn [Nat.add].
      rewrite (nth_indep _ dflt (Qc_of_nat x, Qc_of_nat y, Qc_of_nat 0))
        by (rewrite length_map, length_seq; exact Hz).
      rewrite (map_nth (fun z0 => (Qc_of_nat x, Qc_of_nat y, Qc_of_nat z0))).
      rewrite seq_nth by exact Hz. reflexivity.
    + intros a. rewrite length_map, length_seq. reflexivity.
  - intros a. rewrite (length_flat_map_uniform _ d); [rewrite length_seq; reflexivity |].
    intros b. rewrite length_map, length_seq. reflexivity.
Qed.

Lemma list3_length (p : Vec3) : length (list3 p) = 3%nat.
Proof. destruct p as [[a b] c]. reflexivity. Qed.

(** [volume_grid] on a shape (W, H, D): a tensor of shape (W, H, D, 3) with
    one entry per index, whose three entries at voxel (x, y, z) are the
    coordinates of that voxel after the transform, then normalised and
    flipped when a normalising shape is given.  The normalising shape has no
    axis of one voxel: there the source divides by zero, and its entries
    are not numbers. *)
Theorem volume_grid_entries
  (w h d : nat) (transform : option AffineMatrix) (normalize : option Z3) :
  match normalize with
  | Some n => all3 (fun k => negb (k =? 1)) n = true
  | None => True
  end ->
  exists g,
    volume_grid (Z.of_nat w, Z.of_nat h, Z.of_nat d) transform normalize = Ok g
    /\ shape g = [w; h; d; 3%nat]
    /\ tensor_wf g
    /\ forall x y z, (x < w)%nat -> (y < h)%nat -> (z < d)%nat ->
       let k := ((x * h + y) * d + z)%nat in
       let moved :=
         match transform with
         | Some a => affine_apply a (Qc_of_nat x, Qc_of_nat y, Qc_of_nat z)
         | None => (Qc_of_nat x, Qc_of_nat y, Qc_of_nat z)
         end in
       (nth (k * 3) (data g) (Q2Qc 0), nth (k * 3 + 1) (data g) (Q2Qc 0),
        nth (k * 3 + 2) (data g) (Q2Qc 0))
       = match normalize with
         | Some n => flip (normalize_grid_points n moved)
         | None => moved
         end.
Proof.
  intros _. unfold volume_grid.
  replace ((Z.of_nat w <? 0) || (Z.of_nat h <? 0) || (Z.of_nat d <? 0)) with false
    by (symmetry; repeat (apply orb_false_iff; split); apply Z.ltb_ge; lia).
  rewrite !Nat2Z.id. cbv zeta.
  set (moved := fun p : Vec3 =>
                  match transform with Some a => affine_apply a p | None => p end).
  set (post := fun p : Vec3 =>
                 match normalize with
                 | Some n => flip (normalize_grid_points n (moved p))
                 | None => moved p
                 end).
  assert (Hgrid :
    match normalize with
    | Some n =>
        map (fun p => flip (normalize_grid_points n p))
          match transform with
          | Some a => map (affine_apply a) (grid_points w h d)
          | None => grid_points w h d
          end
    | None =>
        match transform with
        | Some a => map (affine_apply a) (grid_points w h d)
        | None => grid_points w h d
        end
    end = map post (grid_points w h d)).
  { unfold post, moved. destruct normalize, transform;
      rewrite ?map_map, ?map_id; reflexivity. }
  rewrite Hgrid. eexists. split; [reflexivity |]. cbn [shape data].
  split; [reflexivity |]. split.
  - unfold tensor_wf. cbn [shape data numel fold_right].
    rewrite (length_flat_map_uniform _ 3 _ list3_length).
    rewrite length_map, grid_points_length. lia.
  - intros x y z Hx Hy Hz. cbv zeta.
    transitivity (post (Qc_of_nat x, Qc_of_nat y, Qc_of_nat z)); [| reflexivity].
    remember (post (Qc_of_nat x, Qc_of_nat y, Qc_of_nat z)) as q eqn:Eq.
    assert (Hk : ((x * h + y) * d + z = x * (h * d) + (y * d + z))%nat) by lia.
    assert (Hlt : ((x * h + y) * d + z < length (map post (grid_points w h d)))%nat).
    { rewrite length_map, grid_points_length. rewrite Hk.
      apply row_major_bound; [exact Hx |]. apply row_major_bound; assumption. }
    pose proof (nth_flat_map_uniform list3 3 vzero (Q2Qc 0)
                  (map post (grid_points w h d)) list3_length) as Hnth.
    replace (((x * h + y) * d + z) * 3)%nat with (((x * h + y) * d + z) * 3 + 0)%nat
      at 1 by lia.
    rewrite !Hnth by (try exact Hlt; lia).
    rewrite (nth_indep _ vzero (post vzero)) by exact Hlt.
    rewrite (map_nth post). rewrite Hk, grid_points_nth by assumption.
    rewrite <- Eq. destruct q as [[a b] c]. reflexivity.
Qed.

(** [normalize_grid_points] sends the first voxel of every axis to -1 and
    the last one to +1, the convention of [align_corners=True], on every
    axis longer than one voxel. *)
Theorem normalize_grid_points_corners (bs : Z3) :
  all3 (fun n => negb (n =? 1)) bs = true ->
  normalize_grid_points bs vzero = (Q2Qc (-1), Q2Qc (-1), Q2Qc (-1))
  /\ normalize_grid_points bs (Z3_to_Vec3 (map3 (fun n => n - 1) bs))
     = (Q2Qc 1, Q2Qc 1, Q2Qc 1).
Proof.
  destruct bs as [[w h] d]. cbn [all3]. intros H.
  apply andb_true_iff in H. destruct H as [H Hd].
  apply andb_true_iff in H. destruct H as [Hw Hh].
  apply negb_true_iff, Z.eqb_neq in Hw, Hh, Hd.
  assert (Hne : forall n, n <> 1 -> (Qc_of_Z n - Q2Qc 1)%Qc <> Q2Qc 0).
  { intros n Hn E. apply (Qc_of_Z_nonzero (n - 1)); [lia |].
    replace (n - 1) with (n + -1) by lia. rewrite Qc_of_Z_add.
    rewrite <- E. change (Qc_of_Z (-1)) with (- Q2Qc 1)%Qc. ring. }
  assert (Hlast : forall n, Qc_of_Z (n - 1) = (Qc_of_Z n - Q2Qc 1)%Qc).
  { intros n. replace (n - 1) with (n + -1) by lia. rewrite Qc_of_Z_add.
    change (Qc_of_Z (-1)) with (- Q2Qc 1)%Qc. ring. }
  assert (Hlo : forall n, (Qc_of_Z 0 / (Qc_of_Z n - Q2Qc 1) * Q2Qc 2 - Q2Qc 1)%Qc
                          = Q2Qc (-1)).
  { intros n. change (Qc_of_Z 0) with (Q2Qc 0). unfold Qcdiv.
    change (Q2Qc (-1)) with (- Q2Qc 1)%Qc. ring. }
  assert (Hhi : forall n, n <> 1 ->
            (Qc_of_Z (n - 1) / (Qc_of_Z n - Q2Qc 1) * Q2Qc 2 - Q2Qc 1)%Qc = Q2Qc 1).
  { intros n Hn. rewrite Hlast. pose proof (Hne n Hn).
    change (Q2Qc 2) with (Q2Qc 1 + Q2Qc 1)%Qc. field. assumption. }
  unfold normalize_grid_points, vzero, Z3_to_Vec3. cbn [zip3 map3].
  rewrite !Hlo, !Hhi by assumption. split; reflexivity.
Qed.

(** *** The Gaussian filter *)








(** *** A volume and a number *)

Lemma firstn_succ_nth (s : list nat) (k : nat) :
  (k < length s)%nat -> firstn (S k) s = firstn k s ++ [nth k s 0%nat].
Proof.
  revert k. induction s as [| x s IH]; intros k Hk; [simpl in Hk; lia |].
  destruct k as [| k]; [reflexivity |].
  cbn [firstn nth app]. f_equal. apply IH. simpl in Hk. lia.
Qed.

Lemma numel_ones (m : nat) : numel (repeat 1%nat m) = 1%nat.
Proof. induction m as [| m IH]; [reflexivity |]. cbn [repeat]. rewrite numel_cons, IH. reflexivity. Qed.

Lemma chunks_of_repeat (q : Qc) (n : nat) : chunks n 1 (repeat q n) = repeat [q] n.
Proof. induction n as [| n IH]; [reflexivity |]. cbn [repeat chunks firstn skipn]. rewrite IH. reflexivity. Qed.

Lemma flat_map_repeat {A B : Type} (f : A -> list B) (x : A) (n : nat) :
  flat_map f (repeat x n) = concat (repeat (f x) n).
Proof. induction n as [| n IH]; [reflexivity |]. cbn [repeat flat_map concat]. rewrite IH. reflexivity. Qed.

Lemma concat_repeat_repeat (q : Qc) (m n : nat) :
  concat (repeat (repeat q m) n) = repeat q (n * m).
Proof.
  induction n as [| n IH]; [reflexivity |].
  cbn [repeat concat]. rewrite IH. rewrite <- repeat_app. reflexivity.
Qed.

Lemma concat_repeat_singleton (q : Qc) (n : nat) : concat (repeat [q] n) = repeat q n.
Proof. induction n as [| n IH]; [reflexivity |]. cbn [repeat concat app]. rewrite IH. reflexivity. Qed.

(** Expanding a 0D tensor axis after axis: after the first [k] axes the
    tensor holds one copy of its entry per index of those axes. *)
Lemma broadcast_scalar_steps (s : list nat) (dt : dtype) (q : Qc) :
  forall m k, (k + m = length s)%nat ->
    fold_left
      (fun acc axis =>
         let want := nth axis s 0%nat in
         if (nth axis (shape acc) 0 =? want)%nat then acc
         else gather_axis axis (repeat (Some 0%nat) want) (Q2Qc 0) acc)
      (seq k m)
      (mkTensor (firstn k s ++ repeat 1%nat m) dt (repeat q (numel (firstn k s))))
    = mkTensor s dt (repeat q (numel s)).
Proof.
  induction m as [| m IH]; intros k Hk.
  - cbn [seq fold_left repeat]. rewrite app_nil_r, Nat.add_0_r in *.
    rewrite Hk, firstn_all. reflexivity.
  - cbn [seq fold_left]. cbv zeta. cbn [shape].
    assert (Hlen : length (firstn k s) = k) by (rewrite length_firstn; lia).
    assert (Hnth : nth k (firstn k s ++ repeat 1%nat (S m)) 0%nat = 1%nat).
    { rewrite app_nth2 by lia. rewrite Hlen, Nat.sub_diag. reflexivity. }
    rewrite Hnth.
    assert (Hnext : firstn (S k) s = firstn k s ++ [nth k s 0%nat])
      by (apply firstn_succ_nth; lia).
    destruct (1 =? nth k s 0)%nat eqn:E.
    + apply Nat.eqb_eq in E. rewrite <- (IH (S k)) by lia.
      f_equal. rewrite Hnext, <- E. f_equal.
      * rewrite <- app_assoc. reflexivity.
      * rewrite numel_app. cbn [numel fold_right]. f_equal. lia.
    + rewrite <- (IH (S k)) by lia. f_equal.
      unfold gather_axis. cbn [shape dtype_of data]. rewrite Hnth.
      assert (Hfirst : firstn k (firstn k s ++ repeat 1%nat (S m)) = firstn k s).
      { rewrite firstn_app, Hlen, Nat.sub_diag. cbn [firstn].
        rewrite app_nil_r. rewrite firstn_firstn. f_equal. lia. }
      assert (Hskip : skipn (S k) (firstn k s ++ repeat 1%nat (S m)) = repeat 1%nat m).
      { rewrite skipn_app, Hlen. rewrite skipn_all2 by lia.
        replace (S k - k)%nat with 1%nat by lia. reflexivity. }
      rewrite Hfirst, Hskip, numel_ones, repeat_length. f_equal.
      * rewrite Hnext, <- app_assoc. reflexivity.
      * rewrite Hnext, numel_app.
        replace (numel [nth k s 0%nat]) with (nth k s 0%nat)
          by (unfold numel; cbn [fold_right]; lia).
        cbn [Nat.mul Nat.add]. rewrite chunks_of_repeat, flat_map_repeat.
        rewrite flat_map_repeat. cbn [Nat.mul skipn firstn].
        rewrite concat_repeat_singleton, concat_repeat_repeat. reflexivity.
Qed.

(** A number broadcasts to one copy at every index. *)
Lemma broadcast_to_scalar (s : list nat) (dt : dtype) (q : Qc) :
  broadcast_to s (scalar_tensor dt q) = mkTensor s dt (repeat q (numel s)).
Proof.
  unfold broadcast_to, scalar_tensor, ndim. cbn [shape length dtype_of data].
  rewrite Nat.sub_0_r, app_nil_r.
  exact (broadcast_scalar_steps s dt q (length s) 0 eq_refl).
Qed.




(** *** Where resampling lands *)

(** Whatever path [resample_like] takes (the matching geometry, the
    whole-voxel shift or the interpolation), what it returns carries the
    target geometry itself, on a tensor of the target's spatial shape. *)
Theorem resample_like_lands_on_target
  (self : Volume) (target : like_target) (mode padding_mode : string) (v : Volume) :
  resample_like self target mode padding_mode = Ok v ->
  geometry v = match target with LikeVolume o => geometry o | LikeGeometry g => g end
  /\ volume_baseshape v
     = baseshape match target with LikeVolume o => geometry o | LikeGeometry g => g end.
Proof.
  intros H. pose proof (resample_like_ok _ _ _ _ _ H) as [_ Hb].
  assert (Hg : geometry v
               = match target with LikeVolume o => geometry o | LikeGeometry g => g end).
  { unfold resample_like in H.
    set (g := match target with LikeVolume o => geometry o | LikeGeometry g => g end) in *.
    assert (Hgrid : resample_by_grid self g mode padding_mode = Ok v -> geometry v = g).
    { intros Hr. unfold resample_by_grid in Hr. do 3 bind_inv Hr.
      eapply new_given_geometry. exact Hr. }
    destruct (linear_close _ _); [| apply Hgrid; exact H].
    destruct (_ && _); [eapply new_given_geometry; exact H |].
    bind_inv H. destruct (vclose _ _); [| apply Hgrid; exact H].
    unfold resample_by_shift in H. do 2 bind_inv H.
    eapply new_given_geometry. exact H. }
  split; [exact Hg |]. unfold volume_baseshape. rewrite <- Hb, Hg. reflexivity.
Qed.

(** A resampling transform without [negate] returns a volume on the target
    geometry of the transform, which for a bare matrix is the geometry of
    the volume itself: the image moves, the grid stays. *)
Theorem resampling_transform_lands_on_target
  (self : Volume) (t : transform_arg) (mode : string) (v : Volume) :
  transform self t true false mode = Ok v ->
  geometry v = match t with
               | TransformMatrix _ => geometry self
               | TransformVolume a => avt_target a
               end
  /\ Volume_ok v.
Proof.
  intros H. split; [| eapply transform_ok; exact H].
  unfold transform in H. cbn [negb] in H. cbv zeta in H.
  do 4 bind_inv H. cbn [bind] in H.
  apply new_given_geometry in H. rewrite H. destruct t; reflexivity.
Qed.

(** *** The entries of the centroids *)

Lemma nth_chunks {A : Type} (k sz o : nat) (l : list A) :
  (o < k)%nat -> nth o (chunks k sz l) [] = firstn sz (skipn (o * sz) l).
Proof.
  revert o l. induction k as [| k IH]; intros o l Ho; [lia |].
  cbn [chunks]. destruct o as [| o]; [reflexivity |].
  cbn [nth]. rewrite IH by lia. rewrite skipn_skipn. f_equal. f_equal. simpl. lia.
Qed.

Lemma length_chunks {A : Type} (k sz : nat) (l : list A) : length (chunks k sz l) = k.
Proof. revert l. induction k as [| k IH]; intros l; [reflexivity |]. cbn [chunks length]. rewrite IH. reflexivity. Qed.

Lemma nth_firstn_skipn (sz off i : nat) (l : list Qc) (d : Qc) :
  (i < sz)%nat -> nth i (firstn sz (skipn off l)) d = nth (off + i) l d.
Proof.
  intros Hi. rewrite nth_firstn.
  replace (i <? sz)%nat with true by (symmetry; apply Nat.ltb_lt; exact Hi).
  rewrite nth_skipn. reflexivity.
Qed.

(** One entry of a reduction: [f] of the entries met along the axis. *)
Lemma reduce_axis_entry (axis : nat) (f : list Qc -> Qc) (dt : dtype) (t : Tensor)
  (o j : nat) :
  let inner := numel (skipn (S axis) (shape t)) in
  let n := nth axis (shape t) 0%nat in
  (o < numel (firstn axis (shape t)))%nat -> (j < inner)%nat ->
  nth (o * inner + j) (data (reduce_axis axis f dt t)) (Q2Qc 0)
  = f (map (fun i => nth ((o * n + i) * inner + j) (data t) (Q2Qc 0)) (seq 0 n)).
Proof.
  intros inner n Ho Hj. unfold reduce_axis. cbn [data]. fold inner. fold n.
  rewrite (nth_flat_map_uniform _ inner []).
  - rewrite nth_chunks by exact Ho.
    set (blk := firstn (n * inner) (skipn (o * (n * inner)) (data t))).
    rewrite (nth_indep _ (Q2Qc 0) ((fun j0 => f (column inner n j0 blk)) 0%nat))
      by (rewrite length_map, length_seq; exact Hj).
    rewrite (map_nth (fun j0 => f (column inner n j0 blk))).
    rewrite seq_nth by exact Hj. cbn [Nat.add]. f_equal. unfold blk.
    unfold column. apply map_ext_in. intros i Hi. apply in_seq in Hi.
    rewrite nth_firstn_skipn.
    + f_equal. lia.
    + assert (H : (S i * inner <= n * inner)%nat) by (apply Nat.mul_le_mono_r; lia).
      simpl in H. lia.
  - intros blk. rewrite length_map, length_seq. reflexivity.
  - rewrite length_chunks. exact Ho.
  - exact Hj.
Qed.

Lemma reduce_axis_length (axis : nat) (f : list Qc -> Qc) (dt : dtype) (t : Tensor) :
  length (data (reduce_axis axis f dt t))
  = (numel (firstn axis (shape t)) * numel (skipn (S axis) (shape t)))%nat.
Proof.
  unfold reduce_axis. cbn [data].
  rewrite (length_flat_map_uniform _ (numel (skipn (S axis) (shape t)))).
  - rewrite length_chunks. reflexivity.
  - intros blk. rewrite length_map, length_seq. reflexivity.
Qed.

Lemma nth_map2 {A B C : Type} (f : A -> B -> C) (l : list A) (l' : list B)
  (k : nat) (da : A) (db : B) (dc : C) :
  (k < length l)%nat -> (k < length l')%nat ->
  nth k (map2 f l l') dc = f (nth k l da) (nth k l' db).
Proof.
  revert l' k. induction l as [| x l IH]; intros l' k Hl Hl'; [simpl in Hl; lia |].
  destruct l' as [| y l']; [simpl in Hl'; lia |].
  destruct k as [| k]; [reflexivity |].
  cbn [map2 nth]. apply IH; simpl in *; lia.
Qed.

Lemma length_map2 {A B C : Type} (f : A -> B -> C) (l : list A) (l' : list B) :
  length (map2 f l l') = Nat.min (length l) (length l').
Proof.
  revert l'. induction l as [| x l IH]; intros l'; [reflexivity |].
  destruct l' as [| y l']; [reflexivity |]. cbn [map2 length]. rewrite IH. reflexivity.
Qed.

Lemma nth_concat_repeat (l : list Qc) (c ci i : nat) (d : Qc) :
  (ci < c)%nat -> (i < length l)%nat ->
  nth (ci * length l + i) (concat (repeat l c)) d = nth i l d.
Proof.
  revert ci. induction c as [| c IH]; intros ci Hc Hi; [lia |].
  cbn [repeat concat]. destruct ci as [| ci].
  - cbn [Nat.mul Nat.add]. apply app_nth1. exact Hi.
  - rewrite app_nth2 by (simpl; lia).
    replace (S ci * length l + i - length l)%nat with (ci * length l + i)%nat
      by (simpl; lia).
    apply IH; [lia | exact Hi].
Qed.

Lemma length_concat_repeat (l : list Qc) (c : nat) :
  length (concat (repeat l c)) = (c * length l)%nat.
Proof.
  induction c as [| c IH]; [reflexivity |].
  cbn [repeat concat]. rewrite length_app, IH. simpl. lia.
Qed.

(** [arange(n)] against a (C, N) tensor: one copy per row. *)
Lemma broadcast_arange (c n : nat) :
  data (broadcast_to [c; n] (arange n)) = concat (repeat (map Qc_of_nat (seq 0 n)) c).
Proof.
  unfold broadcast_to, arange, ndim. cbn [shape length dtype_of data Nat.sub repeat app].
  cbn [seq fold_left]. cbv zeta. cbn [shape nth].
  set (l := map Qc_of_nat (seq 0 n)).
  assert (Hl : length l = n) by (unfold l; rewrite length_map, length_seq; reflexivity).
  destruct (1 =? c)%nat eqn:E.
  - apply Nat.eqb_eq in E. subst c. cbn [shape nth]. rewrite Nat.eqb_refl.
    cbn [data repeat concat]. rewrite app_nil_r. reflexivity.
  - unfold gather_axis at 2. cbn [shape firstn skipn app nth dtype_of data].
    rewrite Nat.eqb_refl.
    unfold gather_axis. cbn [shape firstn skipn app nth dtype_of data].
    unfold numel. cbn [fold_right chunks flat_map].
    rewrite app_nil_r, flat_map_repeat. f_equal. f_equal.
    cbn [Nat.mul skipn]. rewrite !Nat.mul_1_r, Nat.add_0_r.
    rewrite firstn_firstn, Nat.min_id. apply firstn_all2. lia.
Qed.

(** [coord] on a (C, N) tensor with one entry per index: the weighted mean
    index of every row. *)
Lemma coord_entries (a : Tensor) (c n : nat) :
  shape a = [c; n] -> length (data a) = (c * n)%nat ->
  exists x, coord a = Ok x
            /\ shape x = [c] /\ dtype_of x = float32 /\ length (data x) = c
            /\ forall ci, (ci < c)%nat ->
                 nth ci (data x) (Q2Qc 0)
                 = centre_of n (fun i => nth (ci * n + i) (data a) (Q2Qc 0)).
Proof.
  intros Hs Hlen. unfold coord. rewrite Hs. cbn [last].
  assert (Hba : broadcast_to [c; n] a = a) by (rewrite <- Hs; apply broadcast_to_same).
  set (ar := map Qc_of_nat (seq 0 n)).
  assert (Har : length ar = n) by (unfold ar; rewrite length_map, length_seq; reflexivity).
  (* the weighted tensor *)
  unfold tensor_binop at 1. rewrite Hs.
  replace (broadcast_shapes [c; n] (shape (arange n))) with (Ok [c; n])
    by (unfold broadcast_shapes; simpl; rewrite Nat.eqb_refl; reflexivity).
  cbn [bind]. rewrite Hba, broadcast_arange. fold ar.
  set (weighted := mkTensor [c; n] float32 (map2 Qcmult (data a) (concat (repeat ar c)))).
  assert (Hw : forall ci i, (ci < c)%nat -> (i < n)%nat ->
            nth (ci * n + i) (data weighted) (Q2Qc 0)
            = (nth (ci * n + i) (data a) (Q2Qc 0) * Qc_of_nat i)%Qc).
  { intros ci i Hci Hi. unfold weighted. cbn [data].
    assert (Hk : (ci * n + i < c * n)%nat) by (apply row_major_bound; assumption).
    rewrite (nth_map2 Qcmult _ _ _ (Q2Qc 0) (Q2Qc 0))
      by (rewrite ?length_concat_repeat, ?Har; lia).
    f_equal. rewrite <- Har at 1. rewrite nth_concat_repeat by (rewrite ?Har; assumption).
    unfold ar. rewrite (nth_indep _ (Q2Qc 0) (Qc_of_nat 0))
      by (rewrite length_map, length_seq; exact Hi).
    rewrite (map_nth Qc_of_nat), seq_nth by exact Hi. reflexivity. }
  (* the two sums over the last axis *)
  unfold tensor_sum. unfold ndim. cbn [shape weighted length]. rewrite Hs. cbn [length].
  change (norm_dim 2 (-1)) with (@Ok nat 1%nat). cbn [bind].
  change (dtype_of weighted) with float32.
  set (num := reduce_axis 1 Qcsum (sum_dtype float32) weighted).
  set (total := reduce_axis 1 Qcsum (sum_dtype (dtype_of a)) a).
  assert (Hnum : forall ci, (ci < c)%nat ->
            nth ci (data num) (Q2Qc 0)
            = Qcsum (map (fun i => (nth (ci * n + i) (data a) (Q2Qc 0) * Qc_of_nat i)%Qc)
                       (seq 0 n))).
  { intros ci Hci. unfold num.
    pose proof (reduce_axis_entry 1 Qcsum (sum_dtype float32) weighted ci 0) as H.
    cbn [shape weighted firstn skipn nth] in H. unfold numel in H. cbn [fold_right] in H.
    replace (ci * 1 + 0)%nat with ci in H by lia. rewrite H by lia.
    f_equal. apply map_ext_in. intros i Hi. apply in_seq in Hi.
    replace ((ci * n + i) * 1 + 0)%nat with (ci * n + i)%nat by lia. apply Hw; lia. }
  assert (Htot : forall ci, (ci < c)%nat ->
            nth ci (data total) (Q2Qc 0)
            = Qcsum (map (fun i => nth (ci * n + i) (data a) (Q2Qc 0)) (seq 0 n))).
  { intros ci Hci. unfold total.
    pose proof (reduce_axis_entry 1 Qcsum (sum_dtype (dtype_of a)) a ci 0) as H.
    rewrite Hs in H. cbn [firstn skipn nth] in H. unfold numel in H. cbn [fold_right] in H.
    replace (ci * 1 + 0)%nat with ci in H by lia. rewrite H by lia.
    f_equal. apply map_ext_in. intros i Hi.
    replace ((ci * n + i) * 1 + 0)%nat with (ci * n + i)%nat by lia. reflexivity. }
  assert (Hlnum : length (data num) = c).
  { unfold num. rewrite reduce_axis_length. cbn [shape weighted firstn skipn].
    unfold numel. cbn [fold_right]. lia. }
  assert (Hltot : length (data total) = c).
  { unfold total. rewrite reduce_axis_length, Hs. cbn [firstn skipn].
    unfold numel. cbn [fold_right]. lia. }
  assert (Hstot : shape total = [c]).
  { unfold total. unfold reduce_axis. cbn [shape]. rewrite Hs. reflexivity. }
  assert (Hsnum : shape num = [c]) by reflexivity.
  (* the denominator and the quotient *)
  unfold tensor_binop at 1. rewrite Hstot. cbn [shape scalar_tensor].
  rewrite broadcast_shapes_scalar. cbn [bind].
  fold (scalar_tensor float32 (Q2Qc (1 # 1000000))).
  assert (Hbt : broadcast_to [c] total = total)
    by (rewrite <- Hstot; apply broadcast_to_same).
  assert (Hbn : broadcast_to [c] num = num) by apply (broadcast_to_same num).
  rewrite broadcast_to_scalar, Hbt.
  cbn [data]. unfold numel at 1. cbn [fold_right]. rewrite Nat.mul_1_r.
  set (den := mkTensor [c] float32
                (map2 Qcplus (data total) (repeat (Q2Qc (1 # 1000000)) c))).
  unfold tensor_binop. rewrite Hsnum. cbn [shape den].
  rewrite broadcast_shapes_same. cbn [bind]. rewrite Hbn.
  replace (broadcast_to [c] den) with den by (symmetry; apply (broadcast_to_same den)).
  eexists. split; [reflexivity |]. cbn [shape dtype_of data].
  split; [reflexivity |]. split; [reflexivity |]. split.
  - rewrite length_map2. unfold den. cbn [data].
    rewrite length_map2, repeat_length, Hlnum, Hltot. lia.
  - intros ci Hci.
    rewrite (nth_map2 Qcdiv _ _ _ (Q2Qc 0) (Q2Qc 0));
      [| lia | unfold den; cbn [data]; rewrite length_map2, repeat_length, Hltot; lia].
    unfold den. cbn [data].
    rewrite (nth_map2 Qcplus _ _ _ (Q2Qc 0) (Q2Qc 0)) by (rewrite ?repeat_length; lia).
    rewrite Hnum, Htot by exact Hci.
    rewrite (nth_indep _ (Q2Qc 0) (Q2Qc (1 # 1000000))) by (rewrite repeat_length; lia).
    rewrite nth_repeat. reflexivity.
Qed.

(** [Tensor.mean(dim)]: shape, size and entries. *)
Lemma tensor_mean_entries (dim : Z) (t : Tensor) (axis : nat) :
  norm_dim (ndim t) dim = Ok axis ->
  exists r, tensor_mean dim t = Ok r
    /\ shape r = firstn axis (shape t) ++ skipn (S axis) (shape t)
    /\ length (data r)
       = (numel (firstn axis (shape t)) * numel (skipn (S axis) (shape t)))%nat
    /\ forall o j, (o < numel (firstn axis (shape t)))%nat ->
         (j < numel (skipn (S axis) (shape t)))%nat ->
         nth (o * numel (skipn (S axis) (shape t)) + j) (data r) (Q2Qc 0)
         = mean_over (nth axis (shape t) 0%nat)
             (fun i => nth ((o * nth axis (shape t) 0%nat + i)
                            * numel (skipn (S axis) (shape t)) + j) (data t) (Q2Qc 0)).
Proof.
  intros H. unfold tensor_mean. rewrite H. cbn [bind].
  eexists. split; [reflexivity |]. split; [reflexivity |].
  split; [apply reduce_axis_length |].
  intros o j Ho Hj. rewrite reduce_axis_entry by assumption. reflexivity.
Qed.

Lemma mean_over_ext (n : nat) (f g : nat -> Qc) :
  (forall i, (i < n)%nat -> f i = g i) -> mean_over n f = mean_over n g.
Proof.
  intros H. unfold mean_over. f_equal. f_equal. apply map_ext_in.
  intros i Hi. apply in_seq in Hi. apply H. lia.
Qed.

Lemma centre_of_ext (n : nat) (f g : nat -> Qc) :
  (forall i, (i < n)%nat -> f i = g i) -> centre_of n f = centre_of n g.
Proof.
  intros H. unfold centre_of.
  assert (H1 : map (fun i => (f i * Qc_of_nat i)%Qc) (seq 0 n)
               = map (fun i => (g i * Qc_of_nat i)%Qc) (seq 0 n)).
  { apply map_ext_in. intros i Hi. apply in_seq in Hi. rewrite H by lia. reflexivity. }
  assert (H2 : map f (seq 0 n) = map g (seq 0 n)).
  { apply map_ext_in. intros i Hi. apply in_seq in Hi. apply H. lia. }
  rewrite H1, H2. reflexivity.
Qed.

(** C10.  [centroids(space='world')] always raises, on reading the
    attribute [matrix] that the class does not define, while
    [centroids(space='voxel')] returns a float tensor of shape (C, 3) with
    one entry per index; on a grid without an empty axis, row [c] holds the
    centre of mass of channel [c] along the three axes. *)
Theorem centroids_world_raises_voxel_returns (self : Volume) :
  Volume_ok self ->
  centroids self world = Raise (AttributeError "'Volume' object has no attribute 'matrix'")
  /\ exists t,
       centroids self voxel = Ok t
       /\ shape t = [num_channels self; 3%nat]
       /\ dtype_of t = float32
       /\ tensor_wf t
       /\ (all3 (fun n => negb (n =? 0)) (volume_baseshape self) = true ->
           forall c, (c < num_channels self)%nat ->
             (nth (c * 3) (data t) (Q2Qc 0), nth (c * 3 + 1) (data t) (Q2Qc 0),
              nth (c * 3 + 2) (data t) (Q2Qc 0))
             = centre_of_mass (tensor self) c).
Proof.
  intros [Hn _]. unfold ndim in Hn.
  destruct self as [[s dt dat] g]. cbn [tensor shape] in Hn.
  destruct s as [| c [| w [| h [| d [| ? ?]]]]]; try discriminate. clear Hn.
  unfold centroids, num_channels, volume_dtype, centre_of_mass, clamped_voxel.
  cbn [tensor shape hd nth data dtype_of].
  set (clamped := cast float32 _).
  assert (Hc : shape clamped = [c; w; h; d]) by reflexivity.
  assert (HV : forall k, nth k (data clamped) (Q2Qc 0)
                         = Qcmax (Q2Qc 0) (nth k dat (Q2Qc 0))).
  { intros k. unfold clamped, cast, tensor_map. cbn [data]. rewrite map_map.
    exact (map_nth (fun x => cast_value float32 (Qcmax (Q2Qc 0) x)) dat (Q2Qc 0) k). }
  (* the mean over the last axis *)
  destruct (tensor_mean_entries (-1) clamped 3) as (zmean & -> & Hzs & Hzl & Hze);
    [unfold ndim; rewrite Hc; reflexivity |].
  rewrite Hc in Hzs, Hzl, Hze. cbn [firstn skipn app nth] in Hzs, Hzl, Hze.
  unfold numel in Hzl, Hze. cbn [fold_right] in Hzl, Hze. cbn [bind].
  assert (Hz : forall ci x y, (ci < c)%nat -> (x < w)%nat -> (y < h)%nat ->
            nth ((ci * w + x) * h + y) (data zmean) (Q2Qc 0)
            = mean_over d (fun z => Qcmax (Q2Qc 0)
                                      (nth (((ci * w + x) * h + y) * d + z) dat (Q2Qc 0)))).
  { intros ci x y Hci Hx Hy.
    assert (B : ((ci * w + x) * h + y < c * w * h)%nat)
      by (apply row_major_bound; [apply row_major_bound |]; assumption).
    specialize (Hze ((ci * w + x) * h + y)%nat 0%nat ltac:(lia) ltac:(lia)).
    replace (((ci * w + x) * h + y) * 1 + 0)%nat with ((ci * w + x) * h + y)%nat in Hze
      by lia.
    rewrite Hze. apply mean_over_ext. intros z Hzd. rewrite HV. f_equal. f_equal. lia. }
  (* x: the mean over y, then the weighted mean index *)
  destruct (tensor_mean_entries (-1) zmean 2) as (xm & -> & Hxs & Hxl & Hxe);
    [unfold ndim; rewrite Hzs; reflexivity |].
  rewrite Hzs in Hxs, Hxl, Hxe. cbn [firstn skipn app nth] in Hxs, Hxl, Hxe.
  unfold numel in Hxl, Hxe. cbn [fold_right] in Hxl, Hxe. cbn [bind].
  destruct (coord_entries xm c w Hxs ltac:(lia)) as (x & -> & Hsx & Hdx & Hlx & Hex).
  cbn [bind].
  (* y: the mean over x, then the weighted mean index *)
  destruct (tensor_mean_entries (-2) zmean 1) as (ym & -> & Hys & Hyl & Hye);
    [unfold ndim; rewrite Hzs; reflexivity |].
  rewrite Hzs in Hys, Hyl, Hye. cbn [firstn skipn app nth] in Hys, Hyl, Hye.
  unfold numel in Hyl, Hye. cbn [fold_right] in Hyl, Hye. cbn [bind].
  destruct (coord_entries ym c h Hys ltac:(lia)) as (y & -> & Hsy & Hdy & Hly & Hey).
  cbn [bind].
  (* z: the means over y and x, then the weighted mean index *)
  destruct (tensor_mean_entries (-2) clamped 2) as (zm & -> & Hms & Hml & Hme);
    [unfold ndim; rewrite Hc; reflexivity |].
  rewrite Hc in Hms, Hml, Hme. cbn [firstn skipn app nth] in Hms, Hml, Hme.
  unfold numel in Hml, Hme. cbn [fold_right] in Hml, Hme. cbn [bind].
  destruct (tensor_mean_entries (-2) zm 1) as (zm' & -> & Hns & Hnl & Hne);
    [unfold ndim; rewrite Hms; reflexivity |].
  rewrite Hms in Hns, Hnl, Hne. cbn [firstn skipn app nth] in Hns, Hnl, Hne.
  unfold numel in Hnl, Hne. cbn [fold_right] in Hnl, Hne. cbn [bind].
  destruct (coord_entries zm' c d Hns ltac:(lia)) as (z & -> & Hsz & Hdz & Hlz & Hez).
  cbn [bind Space_eqb].
  split; [reflexivity |].
  eexists. split; [reflexivity |]. unfold stack_last. cbn [shape dtype_of data].
  rewrite Hsx, Hlx. split; [reflexivity |]. split; [exact Hdx |]. split.
  - unfold tensor_wf. cbn [shape data]. unfold numel. cbn [app fold_right].
    rewrite (length_flat_map_uniform _ 3) by reflexivity. rewrite length_seq. lia.
  - intros _ ci Hci.
    pose proof (nth_flat_map_uniform
                  (fun k => [nth k (data x) (Q2Qc 0); nth k (data y) (Q2Qc 0);
                             nth k (data z) (Q2Qc 0)]) 3 0%nat (Q2Qc 0) (seq 0 c)
                  ltac:(reflexivity)) as Hnth.
    replace (ci * 3)%nat with (ci * 3 + 0)%nat at 1 by lia.
    rewrite !Hnth by (rewrite ?length_seq; lia).
    rewrite seq_nth by exact Hci. cbn [Nat.add nth].
    rewrite Hex, Hey, Hez by exact Hci.
    f_equal; [f_equal |].
    + apply centre_of_ext. intros xi Hxi.
      specialize (Hxe (ci * w + xi)%nat 0%nat).
      replace ((ci * w + xi) * 1 + 0)%nat with (ci * w + xi)%nat in Hxe by lia.
      rewrite Hxe; [| pose proof (row_major_bound c w ci xi Hci Hxi); lia | lia].
      apply mean_over_ext. intros yi Hyi.
      replace (((ci * w + xi) * h + yi) * 1 + 0)%nat with ((ci * w + xi) * h + yi)%nat
        by lia.
      apply Hz; assumption.
    + apply centre_of_ext. intros yi Hyi.
      pose proof (Hye ci yi ltac:(lia) ltac:(lia)) as E.
      replace (ci * (h * 1) + yi)%nat with (ci * h + yi)%nat in E by lia.
      rewrite E. apply mean_over_ext. intros xi Hxi.
      replace ((ci * w + xi) * (h * 1) + yi)%nat with ((ci * w + xi) * h + yi)%nat by lia.
      apply Hz; assumption.
    + apply centre_of_ext. intros zi Hzi.
      pose proof (Hne ci zi ltac:(lia) ltac:(lia)) as E.
      replace (ci * (d * 1) + zi)%nat with (ci * d + zi)%nat in E by lia.
      rewrite E. apply mean_over_ext. intros xi Hxi.
      pose proof (row_major_bound c w ci xi Hci Hxi) as B.
      pose proof (Hme (ci * w + xi)%nat zi ltac:(lia) ltac:(lia)) as E'.
      replace ((ci * w + xi) * (d * 1) + zi)%nat with ((ci * w + xi) * d + zi)%nat
        in E' |- * by lia.
      rewrite E'. apply mean_over_ext. intros yi Hyi. rewrite HV.
      f_equal. f_equal. lia.
Qed.

End VolumeMethods.

(* ------------------------------------------------------------------------- *)
(** ** The properties on sample volumes *)

Lemma sample_volume_ok (w h d : nat) : Volume_ok (sample_volume w h d).
Proof. split; reflexivity. Defined.

Lemma sample_volume_invertible (w h d : nat) :
  invertible (matrix (geometry (sample_volume w h d))).
Proof.
  unfold invertible. intros H. apply (f_equal this) in H. vm_compute in H. discriminate.
Defined.

(** The no-op of [resample_like], on the geometry of the volume itself. *)
Lemma resample_like_matching_geometry_is_noop_witness :
  resample_like no_interpolation (sample_volume 2 3 4)
    (LikeGeometry (geometry (sample_volume 2 3 4))) "linear" "zeros"
  = Ok (mkVolume (tensor (sample_volume 2 3 4)) (geometry (sample_volume 2 3 4))).
Proof.
  apply (resample_like_matching_geometry_is_noop no_interpolation
           (sample_volume 2 3 4) (LikeGeometry (geometry (sample_volume 2 3 4)))
           "linear" "zeros").
  - apply sample_volume_ok.
  - vm_compute. reflexivity.
  - reflexivity.
  - vm_compute. reflexivity.
Defined.



(** Indexing a spatial axis with an integer. *)
Lemma crop_rejects_integer_at_spatial_axis_witness :
  crop diagonal_spacing expand_to_rank corners_of_slicing slicing_of_corners
    (sample_volume 2 3 4) (CropTuple [slice_all; Idx 0]) None
  = Raise (ValueError "cannot remove a spatial dimension when cropping a volume").
Proof.
  apply (crop_rejects_integer_at_spatial_axis diagonal_spacing expand_to_rank
           corners_of_slicing slicing_of_corners (sample_volume 2 3 4)
           (CropTuple [slice_all; Idx 0]) None [slice_all; Idx 0]
           [slice_all; Idx 0; slice_all; slice_all]).
  - reflexivity.
  - reflexivity.
  - reflexivity.
Defined.

(** Centroids of a volume of two channels. *)
Lemma centroids_world_raises_voxel_returns_witness :
  centroids (layered_volume 2 2 3 4) world
  = Raise (AttributeError "'Volume' object has no attribute 'matrix'")
  /\ exists t,
       centroids (layered_volume 2 2 3 4) voxel = Ok t
       /\ shape t = [num_channels (layered_volume 2 2 3 4); 3%nat]
       /\ dtype_of t = float32
       /\ tensor_wf t
       /\ (all3 (fun n => negb (n =? 0)) (volume_baseshape (layered_volume 2 2 3 4)) = true ->
           forall c, (c < num_channels (layered_volume 2 2 3 4))%nat ->
             (nth (c * 3) (data t) (Q2Qc 0), nth (c * 3 + 1) (data t) (Q2Qc 0),
              nth (c * 3 + 2) (data t) (Q2Qc 0))
             = centre_of_mass (tensor (layered_volume 2 2 3 4)) c).
Proof.
  apply (centroids_world_raises_voxel_returns (layered_volume 2 2 3 4)).
  split; reflexivity.
Defined.

(** A shift by one voxel along the first axis, without any interpolation. *)
Lemma resample_like_whole_voxel_shift_is_crop_and_pad_witness :
  let self := sample_volume 2 3 4 in
  let target := shift (geometry self) (Z3_to_Vec3 (1, 0, 0)) voxel in
  resample_like no_interpolation self (LikeGeometry target) "linear" "zeros"
  = (t <- explicit_crop_pad (tensor self) (1, 0, 0) (baseshape target)
            (volume_baseshape self) "zeros" ;;
     Ok (mkVolume t target))
  /\ ("zeros"%string = "zeros"%string ->
      exists t,
        explicit_crop_pad (tensor self) (1, 0, 0) (baseshape target)
          (volume_baseshape self) "zeros" = Ok t
        /\ resample_like no_interpolation self (LikeGeometry target) "linear" "zeros"
           = Ok (mkVolume t target)).
Proof.
  apply (resample_like_whole_voxel_shift_is_crop_and_pad no_interpolation
           (sample_volume 2 3 4) (1, 0, 0) "linear" "zeros").
  - apply sample_volume_ok.
  - reflexivity.
  - apply sample_volume_invertible.
  - vm_compute. intuition discriminate.
  - right. vm_compute. reflexivity.
Defined.


(** C1 as stated fails.  A shift past the extent of the grid (three voxels
    on an axis of two) raises, whatever the interpolation primitive is; and
    on a grid of very fine voxels a shift by one voxel is taken for no
    shift at all, so the tensor comes back as it is, which is not its crop
    and pad by one voxel. *)
Lemma resample_like_whole_voxel_shift_counterexample :
  (~ exists gs v,
       resample_like gs (sample_volume 2 2 2)
         (LikeGeometry (shift (geometry (sample_volume 2 2 2))
                          (Z3_to_Vec3 (3, 0, 0)) voxel)) "linear" "zeros" = Ok v)
  /\ resample_like no_interpolation (fine_volume 2 2 2)
       (LikeGeometry (shift (geometry (fine_volume 2 2 2))
                        (Z3_to_Vec3 (1, 0, 0)) voxel)) "linear" "zeros"
     = Ok (mkVolume (tensor (fine_volume 2 2 2))
             (shift (geometry (fine_volume 2 2 2)) (Z3_to_Vec3 (1, 0, 0)) voxel))
  /\ (t <- explicit_crop_pad (tensor (fine_volume 2 2 2)) (1, 0, 0) (2, 2, 2) (2, 2, 2)
             "zeros" ;;
      Ok (same_entries (data t) (data (tensor (fine_volume 2 2 2))))) = Ok false.
Proof.
  split; [| split].
  - intros (gs & v & H). vm_compute in H. discriminate.
  - vm_compute. reflexivity.
  - vm_compute. reflexivity.
Qed.




(** C2 on the code: reshaping a grid of 3 x 3 x 3 voxels to 4 x 4 x 4 and
    back leaves the geometry one voxel off on every axis, since both
    centering offsets are rounded down: the geometries are not within the
    tolerance, and the translation has moved by (-1, -1, -1). *)
Theorem reshape_round_trip_odd_difference_shifts_geometry
  (gs : Tensor -> Tensor -> string -> string -> result Tensor) :
  (v1 <- reshape gs (sample_volume 3 3 3) (4, 4, 4) ;;
   v2 <- reshape gs v1 (3, 3, 3) ;;
   Ok (volume_baseshape v2,
       geometry_close (geometry v2) (geometry (sample_volume 3 3 3)),
       vclose (trans (matrix (geometry v2)))
         (vsub (trans (matrix (geometry (sample_volume 3 3 3))))
            (Q2Qc 1, Q2Qc 1, Q2Qc 1))))
  = Ok ((3, 3, 3), false, true).
Proof. vm_compute. reflexivity. Qed.

(** The invariant on a sample: a reshape of a sample volume yields a
    volume whose geometry is anchored to its tensor. *)
Lemma geometry_matches_tensor_shape_witness :
  match run diagonal_spacing expand_to_rank corners_of_slicing slicing_of_corners
          no_interpolation series_exp natural_pow zero_entries zero_entries no_blur
          (Reshape (3, 3, 3)) (sample_volume 2 3 4) with
  | Ok (AVolume v) => Volume_ok v
  | _ => False
  end.
Proof.
  destruct (run diagonal_spacing expand_to_rank corners_of_slicing slicing_of_corners
              no_interpolation series_exp natural_pow zero_entries zero_entries no_blur
              (Reshape (3, 3, 3)) (sample_volume 2 3 4)) as [[v | t] | e] eqn:E.
  - refine (proj2 (proj2 (proj2
      (geometry_matches_tensor_shape diagonal_spacing expand_to_rank corners_of_slicing
         slicing_of_corners no_interpolation series_exp natural_pow zero_entries
         zero_entries no_blur))) (Reshape (3, 3, 3)) (sample_volume 2 3 4) v _ E).
    apply sample_volume_ok.
  - vm_compute in E. discriminate.
  - vm_compute in E. discriminate.
Defined.

(** A round trip between shapes of even difference (2 x 3 x 4 and
    4 x 3 x 2) gives back the geometry. *)
Lemma reshape_round_trip_geometry_witness :
  let self := sample_volume 2 3 4 in
  exists v1 v2,
    reshape no_interpolation self (4, 3, 2) = Ok v1
    /\ reshape no_interpolation v1 (volume_baseshape self) = Ok v2
    /\ geometry v2
       = shift (geometry self)
           (Z3_to_Vec3 (zip3 Z.add (centering_shift (volume_baseshape self) (4, 3, 2))
                          (centering_shift (4, 3, 2) (volume_baseshape self)))) voxel
    /\ (even_difference (volume_baseshape self) (4, 3, 2) -> geometry v2 = geometry self).
Proof.
  apply (reshape_round_trip_geometry no_interpolation (sample_volume 2 3 4) (4, 3, 2)).
  - apply sample_volume_ok.
  - apply sample_volume_invertible.
  - vm_compute. intuition discriminate.
Defined.

(** A crop of a sample volume to its first voxel along each axis. *)
Lemma crop_keeps_spatial_axes_witness :
  match crop diagonal_spacing expand_to_rank corners_of_slicing slicing_of_corners
          (sample_volume 2 3 4)
          (CropTuple [slice_all; Slice (Some 0) (Some 1) None;
                      Slice (Some 0) (Some 1) None; Slice (Some 0) (Some 1) None])
          None with
  | Ok v => ndim (tensor v) = 4%nat /\ baseshape (geometry v) = volume_baseshape v
  | Raise _ => False
  end.
Proof.
  destruct (crop diagonal_spacing expand_to_rank corners_of_slicing slicing_of_corners
              (sample_volume 2 3 4)
              (CropTuple [slice_all; Slice (Some 0) (Some 1) None;
                          Slice (Some 0) (Some 1) None; Slice (Some 0) (Some 1) None])
              None) as [v | e] eqn:E.
  - exact (crop_keeps_spatial_axes diagonal_spacing expand_to_rank corners_of_slicing
             slicing_of_corners (sample_volume 2 3 4) _ None v E).
  - vm_compute in E. discriminate.
Defined.

(* ------------------------------------------------------------------------- *)
(** ** Smoothing through the filter of [filters.py] *)


(* ------------------------------------------------------------------------- *)
(** ** The further properties on sample volumes *)

(** Zeros on the grid of a sample volume. *)
Lemma entrywise_operations_keep_geometry_witness :
  match run diagonal_spacing expand_to_rank corners_of_slicing slicing_of_corners
          no_interpolation series_exp natural_pow zero_entries zero_entries no_blur
          (ZerosLike None None) (sample_volume 2 3 4) with
  | Ok (AVolume v) =>
      geometry v = geometry (sample_volume 2 3 4)
      /\ volume_baseshape v = volume_baseshape (sample_volume 2 3 4)
  | _ => False
  end.
Proof.
  destruct (run diagonal_spacing expand_to_rank corners_of_slicing slicing_of_corners
              no_interpolation series_exp natural_pow zero_entries zero_entries no_blur
              (ZerosLike None None) (sample_volume 2 3 4)) as [[v | t] | e] eqn:E.
  - exact (entrywise_operations_keep_geometry diagonal_spacing expand_to_rank
             corners_of_slicing slicing_of_corners no_interpolation series_exp
             natural_pow zero_entries zero_entries no_blur
             (ZerosLike None None) (sample_volume 2 3 4) v
             (sample_volume_ok 2 3 4) eq_refl E).
  - vm_compute in E. discriminate.
  - vm_compute in E. discriminate.
Defined.



(** Three channels of ones, as integers, on the grid of a sample volume. *)
Lemma zeros_like_and_ones_like_fill_the_grid_witness :
  exists v,
    ones_like (sample_volume 2 3 4) (Some 3%nat) (Some int32) = Ok v
    /\ num_channels v = 3%nat
    /\ volume_baseshape v = volume_baseshape (sample_volume 2 3 4)
    /\ volume_dtype v = int32
    /\ Forall (fun x => x = Q2Qc 1) (data (tensor v))
    /\ tensor_wf (tensor v)
    /\ geometry v = geometry (sample_volume 2 3 4).
Proof.
  apply (zeros_like_and_ones_like_fill_the_grid (sample_volume 2 3 4) true
           (Some 3%nat) (Some int32)).
  apply sample_volume_ok.
Defined.

(** A float volume cast to booleans. *)
Lemma astype_casts_entries_witness :
  (volume_dtype (sample_volume 2 3 4) = boolean ->
   astype (sample_volume 2 3 4) boolean = Ok (sample_volume 2 3 4))
  /\ (volume_dtype (sample_volume 2 3 4) <> boolean ->
      exists v,
        astype (sample_volume 2 3 4) boolean = Ok v
        /\ volume_dtype v = boolean
        /\ shape (tensor v) = shape (tensor (sample_volume 2 3 4))
        /\ length (data (tensor v)) = length (data (tensor (sample_volume 2 3 4)))
        /\ geometry v = geometry (sample_volume 2 3 4)
        /\ (boolean = boolean ->
            data (tensor v)
            = map (fun x => if Qceqb x (Q2Qc 0) then Q2Qc 0 else Q2Qc 1)
                (data (tensor (sample_volume 2 3 4))))).
Proof.
  apply (astype_casts_entries (sample_volume 2 3 4) boolean).
  apply sample_volume_ok.
Defined.

(** The channel sum of a volume of two channels. *)
Lemma channel_reductions_witness :
  exists v, volume_sum (layered_volume 2 2 2 2) (Some 0) = Ok (AVolume v)
            /\ shape (tensor v) = 1%nat :: tl (shape (tensor (layered_volume 2 2 2 2)))
            /\ geometry v = geometry (layered_volume 2 2 2 2).
Proof.
  apply (proj1 (channel_reductions (layered_volume 2 2 2 2)
                  (conj eq_refl eq_refl))).
Defined.

(** A sample volume stacked on itself. *)
Lemma stack_concatenates_channels_witness :
  exists v,
    stack [sample_volume 2 3 4; sample_volume 2 3 4] = Ok v
    /\ num_channels v = list_sum (map num_channels [sample_volume 2 3 4; sample_volume 2 3 4])
    /\ data (tensor v)
       = concat (map (fun o => data (tensor o)) [sample_volume 2 3 4; sample_volume 2 3 4])
    /\ volume_baseshape v = volume_baseshape (sample_volume 2 3 4)
    /\ geometry v = geometry (sample_volume 2 3 4).
Proof.
  apply (stack_concatenates_channels (sample_volume 2 3 4) [sample_volume 2 3 4]).
  - apply sample_volume_ok.
  - constructor; [reflexivity | constructor].
Defined.

(** Two sample volumes on different grids. *)
Lemma stack_rejects_another_grid_witness :
  stack [sample_volume 2 3 4; sample_volume 3 3 3]
  = Raise (RuntimeError "sizes of tensors must match except in dimension 0").
Proof.
  apply (stack_rejects_another_grid (sample_volume 2 3 4) (sample_volume 3 3 3)).
  intros H. vm_compute in H. discriminate.
Defined.

(** The upper quartile of the 24 entries of a sample volume. *)
Lemma quantile_is_order_statistic_witness :
  let self := sample_volume 2 3 4 in
  let q := Q2Qc (3 # 4) in
  exists r,
    quantile self q = Ok (scalar_tensor (volume_dtype self) r)
    /\ In r (data (tensor self))
    /\ let k := Z.to_nat (quantile_rank (length (data (tensor self))) q) in
       (1 <= k <= length (data (tensor self)))%nat
       /\ if Qcltb (Q2Qc (1 # 2)) q then
            (k <= count (fun y => Qcleb r y) (data (tensor self)))%nat
            /\ (count (fun y => Qcltb r y) (data (tensor self)) < k)%nat
          else
            (k <= count (fun y => Qcleb y r) (data (tensor self)))%nat
            /\ (count (fun y => Qcltb y r) (data (tensor self)) < k)%nat.
Proof.
  apply (quantile_is_order_statistic (sample_volume 2 3 4) (Q2Qc (3 # 4))).
  - reflexivity.
  - intros H. vm_compute in H. discriminate.
  - reflexivity.
  - reflexivity.
  - exists 3, 2%nat. split.
    + apply Qc_is_canon. reflexivity.
    + intros H. vm_compute in H. discriminate.
Defined.

(** A volume of zeros. *)
Lemma blank_volume_has_no_nonzero_bounds_witness :
  ((num_channels (blank_volume 2 2 2) <= 1)%nat ->
   bounds diagonal_spacing (blank_volume 2 2 2) true None
   = Raise (ValueError "cannot compute nonzero bounds on an empty volume"))
  /\ exists e,
       crop_to_nonzero diagonal_spacing expand_to_rank corners_of_slicing
         slicing_of_corners (blank_volume 2 2 2) None = Raise e.
Proof.
  apply (blank_volume_has_no_nonzero_bounds diagonal_spacing expand_to_rank
           corners_of_slicing slicing_of_corners (blank_volume 2 2 2) None).
  - split; reflexivity.
  - repeat constructor.
Defined.

(** A volume of two channels. *)
Lemma nonzero_bounds_reject_several_channels_witness :
  bounds diagonal_spacing (layered_volume 2 2 2 2) true None
  = Raise (RuntimeError "shape is invalid for input size").
Proof.
  apply (nonzero_bounds_reject_several_channels diagonal_spacing
           (layered_volume 2 2 2 2) None).
  - split; reflexivity.
  - vm_compute. lia.
  - intros H. vm_compute in H. discriminate.
Defined.

(** A sample volume reshaped to its own shape and padded by nothing. *)
Lemma reshape_to_own_shape_witness :
  reshape no_interpolation (sample_volume 2 3 4) (volume_baseshape (sample_volume 2 3 4))
  = Ok (sample_volume 2 3 4)
  /\ pad diagonal_spacing no_interpolation (sample_volume 2 3 4) (Scalar (Q2Qc 0))
     = Ok (sample_volume 2 3 4).
Proof.
  apply (reshape_to_own_shape diagonal_spacing no_interpolation (sample_volume 2 3 4)).
  apply sample_volume_ok.
Defined.

(** A sample volume of unit voxels resampled to unit voxels. *)
Lemma resample_at_current_spacing_witness :
  resample diagonal_spacing no_interpolation (sample_volume 2 3 4)
    (mkTensor [3%nat] float32 [Q2Qc 1; Q2Qc 1; Q2Qc 1]) "linear" "zeros"
  = Ok (mkVolume (tensor (sample_volume 2 3 4))
          (mkGeometry (volume_baseshape (sample_volume 2 3 4))
             (matrix (geometry (sample_volume 2 3 4))) None)).
Proof.
  apply (resample_at_current_spacing diagonal_spacing no_interpolation
           (sample_volume 2 3 4) (mkTensor [3%nat] float32 [Q2Qc 1; Q2Qc 1; Q2Qc 1])
           "linear" "zeros").
  - apply sample_volume_ok.
  - reflexivity.
  - change (spacing diagonal_spacing (geometry (sample_volume 2 3 4)))
      with (Qcabs (Q2Qc 1), Qcabs (Q2Qc 1), Qcabs (Q2Qc 1)).
    apply f_equal2; [apply f_equal2 |]; apply Qc_is_canon; reflexivity.
  - reflexivity.
  - reflexivity.
Defined.

(** A sample volume cropped by a whole-voxel shift keeps its floats. *)
Lemma nearest_resampling_keeps_dtype_witness :
  match resample_like no_interpolation (sample_volume 2 3 4)
          (LikeGeometry (shift (geometry (sample_volume 2 3 4))
                           (Z3_to_Vec3 (1, 0, 0)) voxel)) "nearest" "zeros" with
  | Ok v => volume_dtype v = volume_dtype (sample_volume 2 3 4)
  | Raise _ => False
  end.
Proof.
  destruct (resample_like no_interpolation (sample_volume 2 3 4)
              (LikeGeometry (shift (geometry (sample_volume 2 3 4))
                               (Z3_to_Vec3 (1, 0, 0)) voxel)) "nearest" "zeros")
    as [v | e] eqn:E.
  - exact (nearest_resampling_keeps_dtype no_interpolation (sample_volume 2 3 4) _
             "zeros" v E).
  - vm_compute in E. discriminate.
Defined.

(** A sample volume indexed from the second position on behind an
    ellipsis. *)
Lemma crop_by_tuple_outcome_witness :
  let self := sample_volume 2 3 4 in
  let items := [Ellipsis; Slice (Some 1) None None] in
  match crop diagonal_spacing expand_to_rank corners_of_slicing slicing_of_corners
          self (CropTuple items) None with
  | Ok v =>
      exists (slicing : list index_item) (t : Tensor) (minc maxc : Z3)
             (stride : option Z3),
        expand_to_rank items 4%nat = Ok slicing
        /\ existsb is_int (tl slicing) = false
        /\ corners_of_slicing (tl items) (volume_baseshape self)
           = Ok (minc, maxc, stride)
        /\ getitem (tensor self) slicing = Ok t
        /\ tensor v = (if (ndim t =? 3)%nat then unsqueeze0 t else t)
        /\ (forall p : Vec3,
               affine_apply (matrix (geometry v)) p
               = affine_apply (matrix (geometry self))
                   (vadd (Z3_to_Vec3 minc)
                      (vmul (Z3_to_Vec3 (match stride with
                                         | Some s => s
                                         | None => (1, 1, 1)
                                         end)) p)))
        /\ baseshape (geometry v) = last3 (shape t)
        /\ explicit_slice_direction (geometry v)
           = explicit_slice_direction (geometry self)
  | Raise _ => False
  end.
Proof.
  intros self items.
  destruct (crop diagonal_spacing expand_to_rank corners_of_slicing slicing_of_corners
              self (CropTuple items) None) as [v | e] eqn:E.
  - exact (crop_by_tuple_outcome diagonal_spacing expand_to_rank corners_of_slicing
             slicing_of_corners self items v E).
  - vm_compute in E. discriminate.
Defined.

(** [volume[...]] on a sample volume. *)
Lemma crop_to_full_extent_witness :
  crop diagonal_spacing expand_to_rank corners_of_slicing slicing_of_corners
    (sample_volume 2 3 4) (CropTuple [Ellipsis]) None = Ok (sample_volume 2 3 4)
  /\ __getitem__ diagonal_spacing expand_to_rank corners_of_slicing slicing_of_corners
       (sample_volume 2 3 4) (CropTuple [Ellipsis]) = Ok (sample_volume 2 3 4).
Proof.
  apply (crop_to_full_extent diagonal_spacing expand_to_rank corners_of_slicing
           slicing_of_corners (sample_volume 2 3 4) [Ellipsis] (1, 2, 3)).
  - apply sample_volume_ok.
  - reflexivity.
  - reflexivity.
  - reflexivity.
Defined.

(** The grid of a sample shape, moved by a sample matrix and normalised by
    that shape. *)
Lemma volume_grid_entries_witness :
  let a := mkAffine (diag (Q2Qc 2, Q2Qc 2, Q2Qc 2)) (Q2Qc 1, Q2Qc 0, Q2Qc 0) in
  exists g,
    volume_grid (2, 3, 4) (Some a) (Some (2, 3, 4)) = Ok g
    /\ shape g = [2%nat; 3%nat; 4%nat; 3%nat]
    /\ tensor_wf g
    /\ forall x y z, (x < 2)%nat -> (y < 3)%nat -> (z < 4)%nat ->
       let k := ((x * 3 + y) * 4 + z)%nat in
       let moved := affine_apply a (Qc_of_nat x, Qc_of_nat y, Qc_of_nat z) in
       (nth (k * 3) (data g) (Q2Qc 0), nth (k * 3 + 1) (data g) (Q2Qc 0),
        nth (k * 3 + 2) (data g) (Q2Qc 0))
       = flip (normalize_grid_points (2, 3, 4) moved).
Proof.
  intros a.
  exact (volume_grid_entries 2 3 4 (Some a) (Some (2, 3, 4)) eq_refl).
Defined.

(** The corners of a grid of 2 x 3 x 4 voxels. *)
Lemma normalize_grid_points_corners_witness :
  normalize_grid_points (2, 3, 4) vzero = (Q2Qc (-1), Q2Qc (-1), Q2Qc (-1))
  /\ normalize_grid_points (2, 3, 4) (Z3_to_Vec3 (map3 (fun n => n - 1) (2, 3, 4)))
     = (Q2Qc 1, Q2Qc 1, Q2Qc 1).
Proof.
  apply (normalize_grid_points_corners (2, 3, 4)).
  reflexivity.
Defined.




(** A sample volume resampled onto a grid shifted by one voxel. *)
Lemma resample_like_lands_on_target_witness :
  let target := shift (geometry (sample_volume 2 3 4)) (Z3_to_Vec3 (1, 0, 0)) voxel in
  match resample_like no_interpolation (sample_volume 2 3 4) (LikeGeometry target)
          "linear" "zeros" with
  | Ok v => geometry v = target /\ volume_baseshape v = baseshape target
  | Raise _ => False
  end.
Proof.
  intros target.
  destruct (resample_like no_interpolation (sample_volume 2 3 4) (LikeGeometry target)
              "linear" "zeros") as [v | e] eqn:E.
  - exact (resample_like_lands_on_target no_interpolation (sample_volume 2 3 4)
             (LikeGeometry target) "linear" "zeros" v E).
  - vm_compute in E. discriminate.
Defined.

(** A sample volume resampled through the identity matrix. *)
Lemma resampling_transform_lands_on_target_witness :
  match transform blank_sample (sample_volume 2 3 4) (TransformMatrix affine_id)
          true false "linear" with
  | Ok v => geometry v = geometry (sample_volume 2 3 4) /\ Volume_ok v
  | Raise _ => False
  end.
Proof.
  destruct (transform blank_sample (sample_volume 2 3 4) (TransformMatrix affine_id)
              true false "linear") as [v | e] eqn:E.
  - exact (resampling_transform_lands_on_target blank_sample (sample_volume 2 3 4)
             (TransformMatrix affine_id) "linear" v E).
  - vm_compute in E. discriminate.
Defined.
